(** * VoiceFlow: the transcript reconciler and its recognition backends

    A shallow embedding of the parts of the library that decide how
    recognised text reaches the consumer:

    - [src/useVoiceTranscription.ts] and its later revision
      [src/unnamed/part_001] (the React hook, called the reconciler);
    - [src/unnamed/part_004] (voiceInput.ts: the cloud recognizer
      [OpenAIVoiceInputService], the on-device recognizer
      [BrowserVoiceInputService] and the factory [createVoiceInputService];
      and the callbacks of the two copies of [TextareaWithVoice]);
    - [src/unnamed/part_003] (voiceLanguages.ts: the language catalogue).

    JavaScript strings are modelled by [string]: a sequence of code units,
    here restricted to the 256 values of [ascii] (Latin-1).  Every handler
    of the event loop (a recognizer event, a timer, a resolved promise) is
    one atomic step on an explicit state; what the code hands to its
    callbacks is recorded in a log kept in that state. *)

From Stdlib Require Import String Ascii List Bool Arith Lia.
From stdpp Require Import gmap strings.
Import ListNotations.


(** ** JavaScript string primitives used by the sources *)

Module JS.

(** [if (s)] on a string: only the empty string is falsy. *)
Definition truthy (s : string) : bool :=
  match s with
  | EmptyString => false
  | String _ _ => true
  end.

(** [s.startsWith(p)]. *)
Definition startsWith (s p : string) : bool := String.prefix p s.

(** [s.slice(n)] for [0 <= n]: the code units from position [n] on. *)
Fixpoint slice (s : string) (n : nat) : string :=
  match n, s with
  | O, _ => s
  | S _, EmptyString => EmptyString
  | S n', String _ s' => slice s' n'
  end.

(** [s.endsWith(p)]: some suffix of [s] is [p]. *)
Fixpoint endsWith (s p : string) : bool :=
  String.eqb s p ||
  match s with
  | EmptyString => false
  | String _ s' => endsWith s' p
  end.

(** [s.includes(p)]: [p] starts at some position of [s]. *)
Fixpoint includes (s p : string) : bool :=
  String.prefix p s ||
  match s with
  | EmptyString => false
  | String _ s' => includes s' p
  end.

(** White space and line terminators of ECMAScript that fit in one
    Latin-1 code unit: TAB, LF, VT, FF, CR, SP and NBSP. *)
Definition isWhiteSpace (c : ascii) : bool :=
  match nat_of_ascii c with
  | 9 | 10 | 11 | 12 | 13 | 32 | 160 => true
  | _ => false
  end.

Fixpoint trimStart (s : string) : string :=
  match s with
  | EmptyString => EmptyString
  | String c s' => if isWhiteSpace c then trimStart s' else s
  end.

Fixpoint trimEnd (s : string) : string :=
  match s with
  | EmptyString => EmptyString
  | String c s' =>
      match trimEnd s' with
      | EmptyString => if isWhiteSpace c then EmptyString else String c EmptyString
      | r => String c r
      end
  end.

(** [s.trim()]. *)
Definition trim (s : string) : string := trimEnd (trimStart s).

(** A thrown value: the two fields of an [Error] the sources inspect. *)
Record Error := mkError { name : string; message : string }.

(** [new Error(msg)]. *)
Definition newError (msg : string) : Error :=
  {| name := "Error"; message := msg |}.

(** What evaluating a statement that may throw yields. *)
Inductive Completion (A : Type) : Type :=
| Normal (a : A)
| Throw (e : Error).
Arguments Normal {A} a.
Arguments Throw {A} e.

End JS.

Import JS.


(** ** A state and exception monad for the bodies of the handlers

    [try { body } catch (error) { handler }] keeps the writes the body made
    before it threw, which is what [try_catch] does. *)

Module Eff.

Definition M (S A : Type) : Type := S -> Completion A * S.

Definition ret {S A : Type} (a : A) : M S A := fun s => (Normal a, s).

Definition bind {S A B : Type} (m : M S A) (k : A -> M S B) : M S B :=
  fun s =>
    match m s with
    | (Normal a, s') => k a s'
    | (Throw e, s') => (Throw e, s')
    end.

Definition throw {S A : Type} (e : Error) : M S A := fun s => (Throw e, s).

Definition try_catch {S A : Type} (body : M S A) (handler : Error -> M S A) : M S A :=
  fun s =>
    match body s with
    | (Normal a, s') => (Normal a, s')
    | (Throw e, s') => handler e s'
    end.

Definition gets {S A : Type} (f : S -> A) : M S A := fun s => (Normal (f s), s).

Definition modify {S : Type} (f : S -> S) : M S unit := fun s => (Normal tt, f s).

(** Evaluating an expression of the host whose completion is given. *)
Definition lift {S A : Type} (c : Completion A) : M S A := fun s => (c, s).

Definition exec {S A : Type} (m : M S A) (s : S) : S := snd (m s).

Definition completion {S A : Type} (m : M S A) (s : S) : Completion A := fst (m s).

Definition throws {S A : Type} (m : M S A) (s : S) : bool :=
  match fst (m s) with
  | Normal _ => false
  | Throw _ => true
  end.

End Eff.

Import Eff.

Declare Scope eff_scope.
Delimit Scope eff_scope with eff.
Notation "x <- c ;; k" := (bind c (fun x => k))
  (at level 100, c at next level, k at level 200, right associativity) : eff_scope.
Notation "c ;; k" := (bind c (fun _ => k))
  (at level 100, k at level 200, right associativity) : eff_scope.
Local Open Scope eff_scope.

(** One invocation of [onTranscription(text, isFinal)]. *)
Definition Segment : Type := (string * bool)%type.

(** ** Web platform values the backends receive *)

(** A [Blob]: its bytes and its declared MIME type. *)
Record Blob := mkBlob { data : list Byte.byte; type : string }.

(** [blob.size]. *)
Definition blobSize (b : Blob) : N := N.of_nat (length (data b)).

(** A [Response] of [fetch]. *)
Record Response := mkResponse { status : nat; body : string }.

(** [response.ok]: the status is in the range 200-299. *)
Definition ok (r : Response) : bool := (200 <=? status r) && (status r <=? 299).

(** How a [fetch] settles: the promise rejects or resolves to a response. *)
Definition FetchResult : Type := Completion Response.

(** ** The chunked cloud recognizer ([OpenAIVoiceInputService]) *)

Module OpenAI.

Definition OPENAI_LANGUAGE_MAP : gmap string string :=
  list_to_map
    [ ("en-US", "en"); ("en-GB", "en"); ("es", "es"); ("fr", "fr");
      ("de", "de"); ("it", "it"); ("pt", "pt"); ("ru", "ru");
      ("ja", "ja"); ("ko", "ko"); ("zh", "zh"); ("zh-TW", "zh");
      ("nl", "nl"); ("pl", "pl"); ("hi", "hi"); ("ro", "ro") ].

(** The multipart form posted to the transcription endpoint. *)
Record Request := mkRequest {
  file : Blob;
  filename : string;
  model : string;
  languageParam : option string;
  response_format : string;
  bearer : string
}.

(** The fields of the class that its methods read or write, and two logs
    of what leaves the object: the forms it posts and the calls it makes
    to [onTranscriptionCallback].  The recorder, the stream and the audio
    graph are capture resources and are not part of the state; the
    debounce timer and [lastTranscriptionTime] are never written. *)
Record Service := mkService {
  isCurrentlyRecording : bool;
  onTranscriptionCallback : bool;   (* false: null *)
  finalTranscription : string;
  processedTranscriptions : gset string;
  language : string;
  chunkCounter : nat;
  apiKey : string;
  requests : list Request;
  emitted : list Segment
}.

Definition set_isCurrentlyRecording (v : bool) (s : Service) : Service :=
  mkService v (onTranscriptionCallback s) (finalTranscription s)
    (processedTranscriptions s) (language s) (chunkCounter s) (apiKey s)
    (requests s) (emitted s).
Definition set_onTranscriptionCallback (v : bool) (s : Service) : Service :=
  mkService (isCurrentlyRecording s) v (finalTranscription s)
    (processedTranscriptions s) (language s) (chunkCounter s) (apiKey s)
    (requests s) (emitted s).
Definition set_finalTranscription (v : string) (s : Service) : Service :=
  mkService (isCurrentlyRecording s) (onTranscriptionCallback s) v
    (processedTranscriptions s) (language s) (chunkCounter s) (apiKey s)
    (requests s) (emitted s).
Definition set_processedTranscriptions (v : gset string) (s : Service) : Service :=
  mkService (isCurrentlyRecording s) (onTranscriptionCallback s)
    (finalTranscription s) v (language s) (chunkCounter s) (apiKey s)
    (requests s) (emitted s).
Definition set_language (v : string) (s : Service) : Service :=
  mkService (isCurrentlyRecording s) (onTranscriptionCallback s)
    (finalTranscription s) (processedTranscriptions s) v (chunkCounter s)
    (apiKey s) (requests s) (emitted s).
Definition set_chunkCounter (v : nat) (s : Service) : Service :=
  mkService (isCurrentlyRecording s) (onTranscriptionCallback s)
    (finalTranscription s) (processedTranscriptions s) (language s) v
    (apiKey s) (requests s) (emitted s).
Definition set_requests (v : list Request) (s : Service) : Service :=
  mkService (isCurrentlyRecording s) (onTranscriptionCallback s)
    (finalTranscription s) (processedTranscriptions s) (language s)
    (chunkCounter s) (apiKey s) v (emitted s).
Definition set_emitted (v : list Segment) (s : Service) : Service :=
  mkService (isCurrentlyRecording s) (onTranscriptionCallback s)
    (finalTranscription s) (processedTranscriptions s) (language s)
    (chunkCounter s) (apiKey s) (requests s) v.

(** [new OpenAIVoiceInputService(apiKey)]: the field initialisers. *)
Definition new (key : string) : Service :=
  {| isCurrentlyRecording := false;
     onTranscriptionCallback := false;
     finalTranscription := "";
     processedTranscriptions := ∅;
     language := "auto";
     chunkCounter := 0;
     apiKey := key;
     requests := [];
     emitted := [] |}.

Definition setLanguage (lang : string) : M Service unit :=
  modify (set_language lang).

Definition getLanguage (s : Service) : string := language s.

(** [OPENAI_LANGUAGE_MAP[this.language] || undefined]: [None] is
    [undefined]; an empty code is falsy as well. *)
Definition getOpenAILanguageCode (s : Service) : option string :=
  if String.eqb (language s) "auto" then None
  else match OPENAI_LANGUAGE_MAP !! language s with
       | Some code => if truthy code then Some code else None
       | None => None
       end.

(** [this.onTranscriptionCallback?.(text, isFinal)]. *)
Definition callOnTranscription (text : string) (isFinal : bool) : M Service unit :=
  modify (fun s =>
    if onTranscriptionCallback s
    then set_emitted (emitted s ++ [(text, isFinal)]) s
    else s).

(** [await fetch(url, { method: 'POST', headers, body: formData })]: the
    form is posted, then the promise settles as [net] says. *)
Definition fetch (form : Request) (net : FetchResult) : M Service Response :=
  modify (fun s => set_requests (requests s ++ [form]) s) ;;
  lift net.

(** [startRecording(onTranscription)].  [media] is the completion of the
    body of its [try] block: [getUserMedia], the audio graph, the
    [MediaRecorder] and its [start(3000)]. *)
Definition startRecording (media : Completion unit) : M Service unit :=
  modify (set_onTranscriptionCallback true) ;;
  modify (set_finalTranscription "") ;;
  modify (set_processedTranscriptions ∅) ;;
  modify (set_chunkCounter 0) ;;
  try_catch
    (lift media ;;
     modify (set_isCurrentlyRecording true))
    (fun _ => throw (newError "Failed to access microphone")).

(** The extension of the uploaded file, from the MIME type. *)
Definition extensionOf (audioBlob : Blob) : string :=
  if includes (type audioBlob) "mp4" then "mp4"
  else if includes (type audioBlob) "wav" then "wav"
  else "webm".

(** [tryOpenAITranscription(audioBlob)], with [net] the way the request
    settles. *)
Definition tryOpenAITranscription (audioBlob : Blob) (net : FetchResult)
  : M Service unit :=
  try_catch
    (let extension := extensionOf audioBlob in
     languageCode <- gets getOpenAILanguageCode ;;
     key <- gets apiKey ;;
     response <- fetch
       {| file := audioBlob;
          filename := "audio." +:+ extension;
          model := "whisper-1";
          languageParam := languageCode;
          response_format := "text";
          bearer := key |} net ;;
     if negb (ok response) then ret tt
     else
       let transcript := body response in
       if truthy transcript && truthy (trim transcript) then
         processed <- gets processedTranscriptions ;;
         if decide (transcript ∈ processed) then ret tt
         else
           modify (set_processedTranscriptions ({[transcript]} ∪ processed)) ;;
           callOnTranscription transcript false ;;
           modify (set_finalTranscription transcript)
       else ret tt)
    (fun _ => ret tt).

(** The MIME test of [transcribeAudio]: the type is missing or names
    none of the three containers. *)
Definition badMimeType (audioBlob : Blob) : bool :=
  negb (truthy (type audioBlob))
  || (negb (includes (type audioBlob) "webm")
      && negb (includes (type audioBlob) "mp4")
      && negb (includes (type audioBlob) "wav")).

(** [transcribeAudio(audioBlob)]. *)
Definition transcribeAudio (audioBlob : Blob) (net : FetchResult)
  : M Service unit :=
  modify (fun s => set_chunkCounter (S (chunkCounter s)) s) ;;
  try_catch
    (if (blobSize audioBlob <? 10000)%N then ret tt
     else if badMimeType audioBlob then ret tt
     else
       counter <- gets chunkCounter ;;
       if counter =? 1 then tryOpenAITranscription audioBlob net
       else ret tt)
    (fun _ => ret tt).

(** The signature test inside [validateAudioBlob]: the WebM magic number
    at offset 0 or ['ftyp'] at offset 4. *)
Definition hasContainerSignature (bs : list Byte.byte) : bool :=
  (4 <=? length bs)
  && (match bs with
      | Byte.x1a :: Byte.x45 :: Byte.xdf :: Byte.xa3 :: _ => true
      | _ => false
      end
      || match take 4 (drop 4 bs) with
         | [Byte.x66; Byte.x74; Byte.x79; Byte.x70] => true
         | _ => false
         end).

(** [validateAudioBlob(audioBlob)].  No method of the class calls it. *)
Definition validateAudioBlob (audioBlob : Blob) : bool :=
  if (blobSize audioBlob <? 1000)%N then false
  else
    let bs := take 32 (data audioBlob) in
    if hasContainerSignature bs then true
    else (8000 <? blobSize audioBlob)%N.

(** [sendAudioChunk(audioBlob)]. *)
Definition sendAudioChunk (audioBlob : Blob) (net : FetchResult)
  : M Service unit :=
  transcribeAudio audioBlob net.

(** [mediaRecorder.ondataavailable]. *)
Definition ondataavailable (eventData : Blob) (net : FetchResult)
  : M Service unit :=
  if (0 <? blobSize eventData)%N then sendAudioChunk eventData net else ret tt.

(** [stopRecording(cancelled)]: every release of a resource sits in its
    own [try]/[catch], so nothing is thrown. *)
Definition stopRecording (cancelled : bool) : M Service string :=
  modify (set_isCurrentlyRecording false) ;;
  final <- gets finalTranscription ;;
  ret (if truthy final then final else "Voice input completed").

Definition isRecording (s : Service) : bool := isCurrentlyRecording s.

(** [reset()]. *)
Definition reset : M Service unit :=
  modify (set_isCurrentlyRecording false) ;;
  modify (set_finalTranscription "") ;;
  modify (set_processedTranscriptions ∅).

(** What reaches the recorder's handler during one session: a chunk and
    the way its request would settle if it were posted. *)
Definition Chunk : Type := (Blob * FetchResult)%type.

(** The session's chunks, handled in the order the recorder emits them. *)
Definition feed (handler : Blob -> FetchResult -> M Service unit)
  (chunks : list Chunk) (s : Service) : Service :=
  fold_left (fun (acc : Service) (c : Chunk) => exec (handler (fst c) (snd c)) acc)
    chunks s.

(** Whether some handler of the list throws to its caller. *)
Fixpoint feedThrows (handler : Blob -> FetchResult -> M Service unit)
  (chunks : list Chunk) (s : Service) : bool :=
  match chunks with
  | [] => false
  | c :: rest =>
      throws (handler (fst c) (snd c)) s
      || feedThrows handler rest (exec (handler (fst c) (snd c)) s)
  end.

End OpenAI.

(** ** The on-device continuous recognizer ([BrowserVoiceInputService]) *)

(** The two properties of [window] the sources test with [in]. *)
Record Window := mkWindow {
  webkitSpeechRecognition : bool;
  SpeechRecognition : bool
}.

Module Browser.

(** [private maxRestarts = 10]; no method assigns it. *)
Definition maxRestarts : nat := 10.

(** A [result] event: [event.resultIndex] and, for each entry of
    [event.results], its first alternative's transcript and [isFinal]. *)
Record SpeechRecognitionEvent := mkEvent {
  resultIndex : nat;
  results : list (string * bool)
}.

(** The fields the methods read or write ([recognition.lang] is written
    by [updateRecognitionLanguage] and read by no code, so it is left
    out, like the audio graph), the host's [window], and logs:
    [pendingRestarts] counts the restart timers set and not yet fired,
    [restartAttempts] the restart timers ever set, [freshRecognitions]
    the calls of [createFreshRecognition], [emitted] the calls of
    [onTranscription]. *)
Record Service := mkService {
  window : Window;
  recognition : bool;               (* false: null *)
  isCurrentlyRecording : bool;
  fullTranscript : string;
  restartCount : nat;
  language : string;
  pendingRestarts : nat;
  restartAttempts : nat;
  freshRecognitions : nat;
  emitted : list Segment
}.

Definition set_recognition (v : bool) (s : Service) : Service :=
  mkService (window s) v (isCurrentlyRecording s) (fullTranscript s)
    (restartCount s) (language s) (pendingRestarts s) (restartAttempts s)
    (freshRecognitions s) (emitted s).
Definition set_isCurrentlyRecording (v : bool) (s : Service) : Service :=
  mkService (window s) (recognition s) v (fullTranscript s)
    (restartCount s) (language s) (pendingRestarts s) (restartAttempts s)
    (freshRecognitions s) (emitted s).
Definition set_fullTranscript (v : string) (s : Service) : Service :=
  mkService (window s) (recognition s) (isCurrentlyRecording s) v
    (restartCount s) (language s) (pendingRestarts s) (restartAttempts s)
    (freshRecognitions s) (emitted s).
Definition set_restartCount (v : nat) (s : Service) : Service :=
  mkService (window s) (recognition s) (isCurrentlyRecording s)
    (fullTranscript s) v (language s) (pendingRestarts s)
    (restartAttempts s) (freshRecognitions s) (emitted s).
Definition set_language (v : string) (s : Service) : Service :=
  mkService (window s) (recognition s) (isCurrentlyRecording s)
    (fullTranscript s) (restartCount s) v (pendingRestarts s)
    (restartAttempts s) (freshRecognitions s) (emitted s).
Definition set_pendingRestarts (v : nat) (s : Service) : Service :=
  mkService (window s) (recognition s) (isCurrentlyRecording s)
    (fullTranscript s) (restartCount s) (language s) v
    (restartAttempts s) (freshRecognitions s) (emitted s).
Definition set_restartAttempts (v : nat) (s : Service) : Service :=
  mkService (window s) (recognition s) (isCurrentlyRecording s)
    (fullTranscript s) (restartCount s) (language s) (pendingRestarts s)
    v (freshRecognitions s) (emitted s).
Definition set_freshRecognitions (v : nat) (s : Service) : Service :=
  mkService (window s) (recognition s) (isCurrentlyRecording s)
    (fullTranscript s) (restartCount s) (language s) (pendingRestarts s)
    (restartAttempts s) v (emitted s).
Definition set_emitted (v : list Segment) (s : Service) : Service :=
  mkService (window s) (recognition s) (isCurrentlyRecording s)
    (fullTranscript s) (restartCount s) (language s) (pendingRestarts s)
    (restartAttempts s) (freshRecognitions s) v.

(** [initializeRecognition()]: a recognizer object is built when the
    window has one of the two constructors; otherwise the field keeps
    its value. *)
Definition initializeRecognition : M Service unit :=
  w <- gets window ;;
  if webkitSpeechRecognition w then modify (set_recognition true)
  else if SpeechRecognition w then modify (set_recognition true)
  else ret tt.

(** [new BrowserVoiceInputService()] in a host with window [w]. *)
Definition new (w : Window) : Service :=
  exec initializeRecognition
    {| window := w;
       recognition := false;
       isCurrentlyRecording := false;
       fullTranscript := "";
       restartCount := 0;
       language := "auto";
       pendingRestarts := 0;
       restartAttempts := 0;
       freshRecognitions := 0;
       emitted := [] |}.

Definition setLanguage (lang : string) : M Service unit :=
  modify (set_language lang).

Definition getLanguage (s : Service) : string := language s.

(** [onTranscription(text, isFinal)]. *)
Definition onTranscription (text : string) (isFinal : bool) : M Service unit :=
  modify (fun s => set_emitted (emitted s ++ [(text, isFinal)]) s).

(** [setTimeout(() => { if (this.isCurrentlyRecording)
    this.createFreshRecognition(onTranscription) }, delay)]. *)
Definition setTimeout (delay : nat) : M Service unit :=
  modify (fun s => set_pendingRestarts (S (pendingRestarts s)) s) ;;
  modify (fun s => set_restartAttempts (S (restartAttempts s)) s).

(** The loop of [onresult]: the transcripts of the entries from
    [resultIndex] on, split into [(interimTranscript, finalTranscript)]. *)
Definition splitResults (event : SpeechRecognitionEvent) : string * string :=
  fold_left
    (fun (acc : string * string) (r : string * bool) =>
       if snd r then (fst acc, snd acc +:+ fst r)
       else (fst acc +:+ fst r, snd acc))
    (drop (resultIndex event) (results event))
    ("", "").

(** [recognition.onresult]. *)
Definition onresult (event : SpeechRecognitionEvent) : M Service unit :=
  let interimTranscript := fst (splitResults event) in
  let finalTranscript := snd (splitResults event) in
  (if truthy interimTranscript then
     full <- gets fullTranscript ;;
     onTranscription (full +:+ interimTranscript) false
   else ret tt) ;;
  (if truthy finalTranscript then
     modify (fun s => set_fullTranscript (fullTranscript s +:+ finalTranscript) s) ;;
     full <- gets fullTranscript ;;
     onTranscription full true
   else ret tt).

(** [recognition.onerror], on [event.error]. *)
Definition onerror (error : string) : M Service unit :=
  recording <- gets isCurrentlyRecording ;;
  count <- gets restartCount ;;
  if String.eqb error "no-speech" then
    if recording && (count <? maxRestarts) then
      modify (fun s => set_restartCount (S (restartCount s)) s) ;;
      setTimeout 100
    else ret tt
  else if String.eqb error "aborted" then ret tt
  else
    if recording && (count <? maxRestarts) then
      modify (fun s => set_restartCount (S (restartCount s)) s) ;;
      setTimeout 500
    else ret tt.

(** [recognition.onend]. *)
Definition onend : M Service unit :=
  recording <- gets isCurrentlyRecording ;;
  count <- gets restartCount ;;
  if recording && (count <? maxRestarts) then
    modify (fun s => set_restartCount (S (restartCount s)) s) ;;
    setTimeout 100
  else ret tt.

(** [createFreshRecognition(onTranscription)]; [started] is the
    completion of the new object's [recognition.start()].  Stopping the
    old object and starting the new one are both wrapped in [try]. *)
Definition createFreshRecognition (started : Completion unit) : M Service unit :=
  modify (fun s => set_freshRecognitions (S (freshRecognitions s)) s) ;;
  initializeRecognition ;;
  present <- gets recognition ;;
  if negb present then ret tt
  else try_catch (lift started) (fun _ => ret tt).

(** The body of a restart timer when it fires. *)
Definition onTimeout (started : Completion unit) : M Service unit :=
  pending <- gets pendingRestarts ;;
  match pending with
  | O => ret tt
  | S rest =>
      modify (set_pendingRestarts rest) ;;
      recording <- gets isCurrentlyRecording ;;
      if recording then createFreshRecognition started else ret tt
  end.

(** [startRecording(onTranscription)]; [media] is the completion of the
    [try] block that opens the microphone for the visualization, and
    [started] the completion of [recognition.start()]. *)
Definition startRecording (media started : Completion unit) : M Service unit :=
  present <- gets recognition ;;
  if negb present then
    throw (newError "Speech recognition not supported in this browser")
  else
    modify (set_fullTranscript "") ;;
    modify (set_isCurrentlyRecording true) ;;
    modify (set_restartCount 0) ;;
    try_catch (lift media) (fun _ => ret tt) ;;
    try_catch (lift started) (fun error => throw error).

(** [stopRecording(cancelled)]. *)
Definition stopRecording (cancelled : bool) : M Service string :=
  modify (set_isCurrentlyRecording false) ;;
  modify (set_restartCount 0) ;;
  gets fullTranscript.

(** [reset()]. *)
Definition reset : M Service unit :=
  modify (set_isCurrentlyRecording false) ;;
  modify (set_restartCount 0) ;;
  modify (set_fullTranscript "").

Definition isRecording (s : Service) : bool := isCurrentlyRecording s.

(** What can happen to the object between two calls of
    [startRecording]: the recognizer's three events, a restart timer
    firing, and the two calls that end the session. *)
Inductive Event :=
| Result (event : SpeechRecognitionEvent)
| Failure (error : string)
| Ended
| Timeout (started : Completion unit)
| Stop (cancelled : bool)
| Reset.

Definition handle (e : Event) : M Service unit :=
  match e with
  | Result event => onresult event
  | Failure error => onerror error
  | Ended => onend
  | Timeout started => onTimeout started
  | Stop cancelled => stopRecording cancelled ;; ret tt
  | Reset => reset
  end.

Definition run (events : list Event) (s : Service) : Service :=
  fold_left (fun (acc : Service) (e : Event) => exec (handle e) acc) events s.

End Browser.

(** ** Backend selection ([createVoiceInputService]) *)

(** The host: [window] and [import.meta.env.VITE_OPENAI_API_KEY]
    ([None]: undefined). *)
Record Host := mkHost {
  hostWindow : Window;
  VITE_OPENAI_API_KEY : option string
}.

(** An object behind the [VoiceInputService] interface. *)
Inductive VoiceInputService :=
| BrowserVoiceInputService (s : Browser.Service)
| OpenAIVoiceInputService (s : OpenAI.Service).

(** The message of the error thrown when no backend is usable (the
    pictograph that starts it in the source is outside Latin-1 and is
    dropped). *)
Definition noRecognitionMessage : string :=
  "No speech recognition available: Browser does not support speech recognition and no OpenAI API key provided".

Definition createVoiceInputService (host : Host) (language : string)
  : Completion VoiceInputService :=
  if webkitSpeechRecognition (hostWindow host) || SpeechRecognition (hostWindow host) then
    let service := Browser.new (hostWindow host) in
    let service := exec (Browser.setLanguage language) service in
    Normal (BrowserVoiceInputService service)
  else
    match VITE_OPENAI_API_KEY host with
    | Some apiKey =>
        if truthy apiKey then
          let service := OpenAI.new apiKey in
          let service := exec (OpenAI.setLanguage language) service in
          Normal (OpenAIVoiceInputService service)
        else Throw (newError noRecognitionMessage)
    | None => Throw (newError noRecognitionMessage)
    end.

(** The methods of the interface, dispatched on the object's class. *)
Module VoiceInput.

(** How the host answers while a backend starts: [media] completes the
    microphone and audio set-up, [started] completes
    [recognition.start()] (on-device backend only). *)
Record StartIO := mkStartIO {
  media : Completion unit;
  started : Completion unit
}.

Definition getLanguage (v : VoiceInputService) : string :=
  match v with
  | BrowserVoiceInputService s => Browser.getLanguage s
  | OpenAIVoiceInputService s => OpenAI.getLanguage s
  end.

Definition isRecording (v : VoiceInputService) : bool :=
  match v with
  | BrowserVoiceInputService s => Browser.isRecording s
  | OpenAIVoiceInputService s => OpenAI.isRecording s
  end.

Definition startRecording (io : StartIO) : M VoiceInputService unit :=
  fun v =>
    match v with
    | BrowserVoiceInputService s =>
        let r := Browser.startRecording (media io) (started io) s in
        (fst r, BrowserVoiceInputService (snd r))
    | OpenAIVoiceInputService s =>
        let r := OpenAI.startRecording (media io) s in
        (fst r, OpenAIVoiceInputService (snd r))
    end.

Definition stopRecording (cancelled : bool) : M VoiceInputService string :=
  fun v =>
    match v with
    | BrowserVoiceInputService s =>
        let r := Browser.stopRecording cancelled s in
        (fst r, BrowserVoiceInputService (snd r))
    | OpenAIVoiceInputService s =>
        let r := OpenAI.stopRecording cancelled s in
        (fst r, OpenAIVoiceInputService (snd r))
    end.

Definition reset : M VoiceInputService unit :=
  fun v =>
    match v with
    | BrowserVoiceInputService s =>
        let r := Browser.reset s in
        (fst r, BrowserVoiceInputService (snd r))
    | OpenAIVoiceInputService s =>
        let r := OpenAI.reset s in
        (fst r, OpenAIVoiceInputService (snd r))
    end.

End VoiceInput.

(** ** The reconciler ([useVoiceTranscription]) *)

Module Hook.

(** The two copies of the hook in the repository.  In [Accumulated]
    ([src/useVoiceTranscription.ts]) the text of a segment event is the
    whole transcript so far; in [Segmented] ([src/unnamed/part_001]) it
    is one segment and the hook keeps the history itself. *)
Inductive Revision := Accumulated | Segmented.

(** [options.emitMode]. *)
Inductive EmitMode := full | delta | segment.

(** The options the hook reads.  [getBaselineText] is the string the
    accessor returns, [None] when the consumer gave none (or it returns
    nothing).  The consumer's callbacks are taken as supplied; their
    invocations are logged in the state. *)
Record Options := mkOptions {
  optLanguage : option string;
  emitMode : option EmitMode;
  getBaselineText : option string
}.

(** [options.emitMode ?? 'full']. *)
Definition emitModeOf (o : Options) : EmitMode :=
  match emitMode o with
  | Some m => m
  | None => full
  end.

Definition isDelta (m : EmitMode) : bool :=
  match m with delta => true | _ => false end.

Definition isSegment (m : EmitMode) : bool :=
  match m with segment => true | _ => false end.

(** The hook's React state and refs ([transcriptionHistoryRef] exists in
    [Segmented] only), with the logs of the calls of
    [options.onTranscriptionUpdate] and [options.onError].  A state
    setter is taken to act at once; the animation-frame loop of the
    visualization is left out. *)
Record State := mkState {
  isRecording : bool;
  transcription : string;
  interimTranscription : string;
  error : option string;
  permissionDenied : bool;
  language : string;
  voiceServiceRef : option VoiceInputService;
  isCancelledRef : bool;
  processedRef : string;
  transcriptionHistoryRef : string;
  updates : list Segment;
  errors : list string
}.

Definition setIsRecording (v : bool) (h : State) : State :=
  mkState v (transcription h) (interimTranscription h) (error h)
    (permissionDenied h) (language h) (voiceServiceRef h) (isCancelledRef h)
    (processedRef h) (transcriptionHistoryRef h) (updates h) (errors h).
Definition setTranscription (v : string) (h : State) : State :=
  mkState (isRecording h) v (interimTranscription h) (error h)
    (permissionDenied h) (language h) (voiceServiceRef h) (isCancelledRef h)
    (processedRef h) (transcriptionHistoryRef h) (updates h) (errors h).
Definition setInterimTranscription (v : string) (h : State) : State :=
  mkState (isRecording h) (transcription h) v (error h)
    (permissionDenied h) (language h) (voiceServiceRef h) (isCancelledRef h)
    (processedRef h) (transcriptionHistoryRef h) (updates h) (errors h).
Definition setError (v : option string) (h : State) : State :=
  mkState (isRecording h) (transcription h) (interimTranscription h) v
    (permissionDenied h) (language h) (voiceServiceRef h) (isCancelledRef h)
    (processedRef h) (transcriptionHistoryRef h) (updates h) (errors h).
Definition setPermissionDenied (v : bool) (h : State) : State :=
  mkState (isRecording h) (transcription h) (interimTranscription h) (error h)
    v (language h) (voiceServiceRef h) (isCancelledRef h)
    (processedRef h) (transcriptionHistoryRef h) (updates h) (errors h).
Definition setLanguageState (v : string) (h : State) : State :=
  mkState (isRecording h) (transcription h) (interimTranscription h) (error h)
    (permissionDenied h) v (voiceServiceRef h) (isCancelledRef h)
    (processedRef h) (transcriptionHistoryRef h) (updates h) (errors h).
Definition set_voiceServiceRef (v : option VoiceInputService) (h : State) : State :=
  mkState (isRecording h) (transcription h) (interimTranscription h) (error h)
    (permissionDenied h) (language h) v (isCancelledRef h)
    (processedRef h) (transcriptionHistoryRef h) (updates h) (errors h).
Definition set_isCancelledRef (v : bool) (h : State) : State :=
  mkState (isRecording h) (transcription h) (interimTranscription h) (error h)
    (permissionDenied h) (language h) (voiceServiceRef h) v
    (processedRef h) (transcriptionHistoryRef h) (updates h) (errors h).
Definition set_processedRef (v : string) (h : State) : State :=
  mkState (isRecording h) (transcription h) (interimTranscription h) (error h)
    (permissionDenied h) (language h) (voiceServiceRef h) (isCancelledRef h)
    v (transcriptionHistoryRef h) (updates h) (errors h).
Definition set_transcriptionHistoryRef (v : string) (h : State) : State :=
  mkState (isRecording h) (transcription h) (interimTranscription h) (error h)
    (permissionDenied h) (language h) (voiceServiceRef h) (isCancelledRef h)
    (processedRef h) v (updates h) (errors h).

(** [options.onTranscriptionUpdate?.(text, isFinal)]. *)
Definition onTranscriptionUpdate (text : string) (isFinal : bool) (h : State) : State :=
  mkState (isRecording h) (transcription h) (interimTranscription h) (error h)
    (permissionDenied h) (language h) (voiceServiceRef h) (isCancelledRef h)
    (processedRef h) (transcriptionHistoryRef h)
    (updates h ++ [(text, isFinal)]) (errors h).

(** [options.onError?.(message)]. *)
Definition onError (msg : string) (h : State) : State :=
  mkState (isRecording h) (transcription h) (interimTranscription h) (error h)
    (permissionDenied h) (language h) (voiceServiceRef h) (isCancelledRef h)
    (processedRef h) (transcriptionHistoryRef h) (updates h)
    (errors h ++ [msg]).

(** The state of the first render: [useState] and [useRef] initial
    values, with [language] from [options.language || 'auto']. *)
Definition initial (o : Options) : State :=
  {| isRecording := false;
     transcription := "";
     interimTranscription := "";
     error := None;
     permissionDenied := false;
     language := match optLanguage o with
                 | Some l => if truthy l then l else "auto"
                 | None => "auto"
                 end;
     voiceServiceRef := None;
     isCancelledRef := false;
     processedRef := "";
     transcriptionHistoryRef := "";
     updates := [];
     errors := [] |}.

(** The callback handed to the backend in
    [src/useVoiceTranscription.ts]. *)
Definition onTranscription_accumulated (o : Options)
  (text : string) (isFinal : bool) (h : State) : State :=
  if isCancelledRef h then h
  else
    let newText := text in
    let prev := processedRef h in
    let mode := emitModeOf o in
    let delta_ :=
      if isDelta mode
      then (if startsWith newText prev then slice newText (String.length prev) else newText)
      else newText in
    if isFinal then
      let h := setTranscription newText h in
      let h := setInterimTranscription "" h in
      let h := if truthy delta_ then onTranscriptionUpdate delta_ true h else h in
      set_processedRef (if isDelta mode then newText else processedRef h) h
    else
      let h := setInterimTranscription newText h in
      let h := if truthy delta_ then onTranscriptionUpdate delta_ false h else h in
      if isDelta mode then set_processedRef newText h else h.

(** The joining separator of [src/unnamed/part_001]. *)
Definition separatorFor (currentFullText text : string) : string :=
  if (0 <? String.length currentFullText)
     && negb (endsWith currentFullText " ")
     && negb (startsWith text " ")
  then " " else "".

(** The callback handed to the backend in [src/unnamed/part_001]. *)
Definition onTranscription_segmented (o : Options)
  (text : string) (isFinal : bool) (h : State) : State :=
  if isCancelledRef h then h
  else
    let currentFullText := transcriptionHistoryRef h in
    let separator := separatorFor currentFullText text in
    let effectiveFullText := currentFullText +:+ separator +:+ text in
    let mode := emitModeOf o in
    let textToEmit :=
      if isSegment mode then separator +:+ text else effectiveFullText in
    let prev := processedRef h in
    let delta_ :=
      if isDelta mode
      then (if startsWith textToEmit prev
            then slice textToEmit (String.length prev) else textToEmit)
      else textToEmit in
    if isFinal then
      let h := set_transcriptionHistoryRef
                 (transcriptionHistoryRef h +:+ separator +:+ text) h in
      let h := setTranscription (transcriptionHistoryRef h) h in
      let h := setInterimTranscription "" h in
      let h :=
        if isSegment mode then onTranscriptionUpdate textToEmit true h
        else if truthy delta_ then onTranscriptionUpdate delta_ true h
        else h in
      if isDelta mode then set_processedRef textToEmit h
      else if isSegment mode then set_processedRef "" h
      else set_processedRef textToEmit h
    else
      let h := setInterimTranscription text h in
      let h :=
        if isSegment mode then onTranscriptionUpdate textToEmit false h
        else if truthy delta_ then onTranscriptionUpdate delta_ false h
        else h in
      if isDelta mode then set_processedRef textToEmit h else h.

Definition onTranscription (rev : Revision) (o : Options)
  (text : string) (isFinal : bool) (h : State) : State :=
  match rev with
  | Accumulated => onTranscription_accumulated o text isFinal h
  | Segmented => onTranscription_segmented o text isFinal h
  end.

(** The backend's calls of the callback, in the order it makes them. *)
Definition deliver (rev : Revision) (o : Options)
  (events : list Segment) (h : State) : State :=
  fold_left
    (fun (acc : State) (e : Segment) => onTranscription rev o (fst e) (snd e) acc)
    events h.

(** A method call on [voiceServiceRef.current]; the object keeps what
    the method wrote, also when it throws. *)
Definition callService {A : Type} (method : M VoiceInputService A)
  (v : VoiceInputService) : M State A :=
  fun h => (fst (method v), set_voiceServiceRef (Some (snd (method v))) h).

(** [startRecording()] of the hook, in a host [host] that answers the
    backend's start as [io] says.  Its [try] block is given in two parts:
    the statements up to the teardown of the previous backend, which
    throw nothing, and the creation and start of the new backend. *)
Definition startRecording_prepare (rev : Revision) (o : Options) : M State unit :=
  modify (setError None) ;;
  modify (setPermissionDenied false) ;;
  modify (setTranscription "") ;;
  modify (setInterimTranscription "") ;;
  (match rev with
   | Accumulated => ret tt
   | Segmented => modify (set_transcriptionHistoryRef "")
   end) ;;
  modify (set_isCancelledRef false) ;;
  (match emitMode o, getBaselineText o with
   | Some delta, Some text =>
       let baseline := trim text in
       if truthy baseline then modify (set_processedRef baseline) else ret tt
   | _, _ => ret tt
   end) ;;
  current <- gets voiceServiceRef ;;
  match current with
  | Some v =>
      try_catch
        (callService (VoiceInput.stopRecording true) v ;; ret tt)
        (fun _ => ret tt)
  | None => ret tt
  end.

Definition startRecording_launch (host : Host) (io : VoiceInput.StartIO)
  : M State unit :=
  lang <- gets language ;;
  service <- lift (createVoiceInputService host lang) ;;
  modify (set_voiceServiceRef (Some service)) ;;
  callService (VoiceInput.startRecording io) service ;;
  modify (setIsRecording true).

(** The [catch] block of [startRecording]. *)
Definition startRecording_catch (error : Error) : M State unit :=
  if String.eqb (name error) "NotAllowedError"
     || includes (message error) "microphone"
  then
    modify (setPermissionDenied true) ;;
    let errorMsg := "Microphone permission denied" in
    modify (setError (Some errorMsg)) ;;
    modify (onError errorMsg)
  else
    let errorMsg := "Failed to start recording" in
    modify (setError (Some errorMsg)) ;;
    modify (onError errorMsg).

Definition startRecording_try (rev : Revision) (o : Options)
  (host : Host) (io : VoiceInput.StartIO) : M State unit :=
  startRecording_prepare rev o ;;
  startRecording_launch host io.

Definition startRecording (rev : Revision) (o : Options)
  (host : Host) (io : VoiceInput.StartIO) : M State unit :=
  try_catch (startRecording_try rev o host io) startRecording_catch.

(** [stopRecording(cancelled)] of the hook. *)
Definition stopRecording (cancelled : bool) : M State unit :=
  current <- gets voiceServiceRef ;;
  recording <- gets isRecording ;;
  match current with
  | None => ret tt
  | Some v =>
      if negb recording then ret tt
      else
        modify (set_isCancelledRef cancelled) ;;
        try_catch
          (callService (VoiceInput.stopRecording cancelled) v ;;
           modify (setIsRecording false) ;;
           current <- gets voiceServiceRef ;;
           match current with
           | Some v => callService VoiceInput.reset v
           | None => ret tt
           end)
          (fun _ =>
             let errorMsg := "Failed to stop recording" in
             modify (setError (Some errorMsg)) ;;
             modify (onError errorMsg) ;;
             current <- gets voiceServiceRef ;;
             match current with
             | Some v => callService VoiceInput.reset v
             | None => ret tt
             end)
  end.

End Hook.

(** ** The language catalogue ([voiceLanguages.ts], [src/unnamed/part_003])

    A flag glyph lies outside Latin-1; it is kept as the bytes of its
    UTF-8 encoding, which the functions below only copy. *)

Module Languages.

Record VoiceLanguage := mkLanguage { code : string; name : string; flag : string }.

Definition VOICE_LANGUAGES : list VoiceLanguage :=
  [ mkLanguage "auto" "Auto-detect" "🌐";
    mkLanguage "de" "German" "🇩🇪";
    mkLanguage "en-GB" "English (UK)" "🇬🇧";
    mkLanguage "en-US" "English (US)" "🇺🇸";
    mkLanguage "es" "Spanish" "🇪🇸";
    mkLanguage "fr" "French" "🇫🇷";
    mkLanguage "hi" "Hindi" "🇮🇳";
    mkLanguage "it" "Italian" "🇮🇹";
    mkLanguage "ja" "Japanese" "🇯🇵";
    mkLanguage "ko" "Korean" "🇰🇷";
    mkLanguage "nl" "Dutch" "🇳🇱";
    mkLanguage "pl" "Polish" "🇵🇱";
    mkLanguage "pt" "Portuguese" "🇵🇹";
    mkLanguage "ro" "Romanian" "🇷🇴";
    mkLanguage "ru" "Russian" "🇷🇺";
    mkLanguage "zh" "Chinese" "🇨🇳";
    mkLanguage "zh-TW" "Chinese (TW)" "🇹🇼" ].

(** [VOICE_LANGUAGES.find(l => l.code === languageCode)]. *)
Definition find (languageCode : string) : option VoiceLanguage :=
  List.find (fun l : VoiceLanguage => String.eqb (code l) languageCode) VOICE_LANGUAGES.

Definition getLanguageDisplay (languageCode : string) : string :=
  match find languageCode with
  | Some lang => flag lang +:+ " " +:+ name lang
  | None => "🌐 Auto-detect"
  end.

Definition getLanguageFlag (languageCode : string) : string :=
  match find languageCode with
  | Some lang => flag lang
  | None => "🌐"
  end.

End Languages.

(** ** The language tag of the on-device recognizer *)

Module BrowserLanguage.

Definition BROWSER_LANGUAGE_MAP : gmap string string :=
  list_to_map
    [ ("en-US", "en-US"); ("en-GB", "en-GB"); ("es", "es-ES"); ("fr", "fr-FR");
      ("de", "de-DE"); ("it", "it-IT"); ("pt", "pt-BR"); ("ru", "ru-RU");
      ("ja", "ja-JP"); ("ko", "ko-KR"); ("zh", "zh-CN"); ("zh-TW", "zh-TW");
      ("nl", "nl-NL"); ("pl", "pl-PL"); ("hi", "hi-IN"); ("ro", "ro-RO") ].

(** [updateRecognitionLanguage()]: the value it assigns to
    [recognition.lang], [None] when it returns without assigning;
    [navigatorLanguage] is [navigator.language].  The map is looked up
    by its own keys; a language named like a member of
    [Object.prototype] is outside this model. *)
Definition updateRecognitionLanguage (navigatorLanguage : string)
  (s : Browser.Service) : option string :=
  if negb (Browser.recognition s) then None
  else if String.eqb (Browser.language s) "auto" then
    let detectedLang :=
      if truthy navigatorLanguage then navigatorLanguage else "en-US" in
    Some detectedLang
  else
    let browserLangCode :=
      match BROWSER_LANGUAGE_MAP !! Browser.language s with
      | Some tag => if truthy tag then tag else Browser.language s +:+ "-US"
      | None => Browser.language s +:+ "-US"
      end in
    Some browserLangCode.

End BrowserLanguage.

(** ** The rest of the hook: language, disposal, and runs of calls *)

Module Lifecycle.

(** [service.setLanguage(language)], dispatched on the object's class. *)
Definition serviceSetLanguage (lang : string) : M VoiceInputService unit :=
  fun v =>
    match v with
    | BrowserVoiceInputService s =>
        let r := Browser.setLanguage lang s in
        (fst r, BrowserVoiceInputService (snd r))
    | OpenAIVoiceInputService s =>
        let r := OpenAI.setLanguage lang s in
        (fst r, OpenAIVoiceInputService (snd r))
    end.

(** The effect on [language]: [if (voiceServiceRef.current)
    voiceServiceRef.current.setLanguage(language)]. *)
Definition languageEffect : M Hook.State unit :=
  current <- gets Hook.voiceServiceRef ;;
  lang <- gets Hook.language ;;
  match current with
  | Some v => Hook.callService (serviceSetLanguage lang) v
  | None => ret tt
  end.

(** [setLanguage(newLanguage)]: the state is set, and when its value has
    changed the component renders again and the effect runs. *)
Definition setLanguage (newLanguage : string) : M Hook.State unit :=
  old <- gets Hook.language ;;
  modify (Hook.setLanguageState newLanguage) ;;
  if String.eqb old newLanguage then ret tt else languageEffect.

(** [getLanguage()]: [voiceServiceRef.current?.getLanguage() || language]. *)
Definition getLanguage (h : Hook.State) : string :=
  match Hook.voiceServiceRef h with
  | Some v =>
      if truthy (VoiceInput.getLanguage v) then VoiceInput.getLanguage v
      else Hook.language h
  | None => Hook.language h
  end.

(** The cleanup of the unmount effect: the backend is stopped with
    [cancelled = true] inside a [try], then reset. *)
Definition cleanup : M Hook.State unit :=
  current <- gets Hook.voiceServiceRef ;;
  match current with
  | Some v =>
      try_catch
        (Hook.callService (VoiceInput.stopRecording true) v ;; ret tt)
        (fun _ => ret tt) ;;
      current <- gets Hook.voiceServiceRef ;;
      match current with
      | Some v => Hook.callService VoiceInput.reset v
      | None => ret tt
      end
  | None => ret tt
  end.

(** What can happen to a mounted hook: the calls of its three functions
    and a segment event of the backend. *)
Inductive Action :=
| Start (host : Host) (io : VoiceInput.StartIO)
| Stop (cancelled : bool)
| SetLanguage (newLanguage : string)
| SegmentEvent (text : string) (isFinal : bool).

Definition step (rev : Hook.Revision) (o : Hook.Options) (a : Action)
  (h : Hook.State) : Hook.State :=
  match a with
  | Start host io => exec (Hook.startRecording rev o host io) h
  | Stop cancelled => exec (Hook.stopRecording cancelled) h
  | SetLanguage newLanguage => exec (setLanguage newLanguage) h
  | SegmentEvent text isFinal => Hook.onTranscription rev o text isFinal h
  end.

Definition run (rev : Hook.Revision) (o : Hook.Options) (actions : list Action)
  (h : Hook.State) : Hook.State :=
  fold_left (fun (acc : Hook.State) (a : Action) => step rev o a acc) actions h.

End Lifecycle.

(** ** The presentation shell ([TextareaWithVoice], two copies in
    [src/unnamed/part_004]) *)

(** The first copy: its [onTranscriptionUpdate] handed to the hook.  The
    result is the argument of the call of [onChange], [None] when it makes
    none; [value] is the prop the closure holds. *)
Module ShellBasic.

Definition onTranscriptionUpdate (value : string) (text : string) (isFinal : bool)
  : option string :=
  if isFinal && truthy (trim text) then
    Some (if truthy value then value +:+ " " +:+ trim text else trim text)
  else None.

End ShellBasic.

(** The second copy, which tracks the interim text it has inserted. *)
Module Shell.

(** What the callback reads from the textarea element. *)
Record Textarea := mkTextarea {
  value : string;
  selectionStart : nat;
  selectionEnd : nat
}.

(** The [transcriptionMode] prop. *)
Inductive TranscriptionMode := replace | append.

(** The refs of the component, the restart timers that are armed (by
    identifier), the next identifier [setTimeout] returns, and the log of
    the calls of [onChange].  A timer identifier is a positive integer,
    so [if (restartTimeoutRef.current)] tests the ref against [null]. *)
Record State := mkState {
  lastTranscriptRef : string;
  interimTextRef : string;
  interimStartRef : option nat;
  restartTimeoutRef : option positive;
  armed : list positive;
  nextTimer : positive;
  changes : list string
}.

Definition initial : State :=
  {| lastTranscriptRef := "";
     interimTextRef := "";
     interimStartRef := None;
     restartTimeoutRef := None;
     armed := [];
     nextTimer := 1%positive;
     changes := [] |}.

(** [s.slice(0, n)]. *)
Fixpoint sliceTo (s : string) (n : nat) : string :=
  match n, s with
  | O, _ => EmptyString
  | S _, EmptyString => EmptyString
  | S n', String c s' => String c (sliceTo s' n')
  end.

Definition resetInterim (st : State) : State :=
  mkState (lastTranscriptRef st) "" None (restartTimeoutRef st) (armed st)
    (nextTimer st) (changes st).

Definition onChange (nextValue : string) (st : State) : State :=
  mkState (lastTranscriptRef st) (interimTextRef st) (interimStartRef st)
    (restartTimeoutRef st) (armed st) (nextTimer st) (changes st ++ [nextValue]).

(** [clearTimeout(id)]. *)
Definition clearTimeout (id : positive) (st : State) : State :=
  mkState (lastTranscriptRef st) (interimTextRef st) (interimStartRef st)
    (restartTimeoutRef st) (List.filter (fun t : positive => negb (Pos.eqb t id)) (armed st))
    (nextTimer st) (changes st).

(** [restartTimeoutRef.current = setTimeout(..., 500)]. *)
Definition setRestartTimeout (st : State) : State :=
  mkState (lastTranscriptRef st) (interimTextRef st) (interimStartRef st)
    (Some (nextTimer st)) (armed st ++ [nextTimer st])
    (Pos.succ (nextTimer st)) (changes st).

(** The text the callback works on once the interim text it inserted
    earlier is cut out of the current value. *)
Definition baseValueOf (currentValueOriginal : string) (st : State) : string :=
  match interimStartRef st with
  | Some start =>
      if truthy (interimTextRef st) then
        let stop := start + String.length (interimTextRef st) in
        sliceTo currentValueOriginal start +:+ slice currentValueOriginal stop
      else currentValueOriginal
  | None => currentValueOriginal
  end.

(** The delta against the last final transcript. *)
Definition deltaOf (raw : string) (st : State) : string :=
  let prior := lastTranscriptRef st in
  if truthy prior && startsWith raw prior
  then trimStart (slice raw (String.length prior))
  else raw.

(** [onTranscriptionUpdate(text, isFinal)] of the second copy; [textarea]
    is [textareaRef.current] ([None]: null), [valueProp] and
    [isVoiceTranscribing] the values the closure holds. *)
Definition onTranscriptionUpdate (transcriptionMode : TranscriptionMode)
  (isVoiceTranscribing : bool) (valueProp : string) (textarea : option Textarea)
  (text : string) (isFinal : bool) (st : State) : State :=
  let raw := trim text in
  if negb (truthy raw) then st
  else
    let currentValueOriginal :=
      match textarea with Some t => value t | None => valueProp end in
    let baseValue := baseValueOf currentValueOriginal st in
    let selStart :=
      match textarea with Some t => selectionStart t | None => String.length baseValue end in
    let selEnd :=
      match textarea with Some t => selectionEnd t | None => String.length baseValue end in
    let delta_ := deltaOf raw st in
    if negb (truthy delta_) then resetInterim st
    else
      let insertStart := selStart in
      let insertEnd := if selStart <? selEnd then selEnd else insertStart in
      let before := sliceTo baseValue insertStart in
      let after := slice baseValue insertEnd in
      let nextValue :=
        match transcriptionMode with
        | append => if truthy baseValue then baseValue +:+ " " +:+ delta_ else delta_
        | replace => before +:+ delta_ +:+ after
        end in
      let st := onChange nextValue st in
      if isFinal then
        let st := mkState raw (interimTextRef st) (interimStartRef st)
                    (restartTimeoutRef st) (armed st) (nextTimer st) (changes st) in
        let st := resetInterim st in
        let st := match restartTimeoutRef st with
                  | Some id => clearTimeout id st
                  | None => st
                  end in
        if isVoiceTranscribing then setRestartTimeout st else st
      else
        mkState (lastTranscriptRef st) delta_ (Some insertStart)
          (restartTimeoutRef st) (armed st) (nextTimer st) (changes st).

(** [handleStartTranscription]: the shell's part of it. *)
Definition handleStartTranscription (st : State) : State := resetInterim st.

(** [handleStopTranscription]: the shell's part of it. *)
Definition handleStopTranscription (st : State) : State :=
  let st := resetInterim st in
  match restartTimeoutRef st with
  | Some id =>
      let st := clearTimeout id st in
      mkState (lastTranscriptRef st) (interimTextRef st) (interimStartRef st)
        None (armed st) (nextTimer st) (changes st)
  | None => st
  end.

(** A restart timer fires: it leaves the armed ones, and between the
    hook's stop and start the interim span is reset. *)
Definition onRestartTimeout (id : positive) (st : State) : State :=
  if existsb (fun t : positive => Pos.eqb t id) (armed st) then
    let st := mkState (lastTranscriptRef st) (interimTextRef st) (interimStartRef st)
                (restartTimeoutRef st)
                (List.filter (fun t : positive => negb (Pos.eqb t id)) (armed st))
                (nextTimer st) (changes st) in
    resetInterim st
  else st.

(** What can happen to the shell. *)
Inductive Action :=
| Update (transcriptionMode : TranscriptionMode) (isVoiceTranscribing : bool)
    (valueProp : string) (textarea : option Textarea) (text : string) (isFinal : bool)
| StartClicked
| StopClicked
| TimerFired (id : positive).

Definition step (a : Action) (st : State) : State :=
  match a with
  | Update m transcribing v t text isFinal =>
      onTranscriptionUpdate m transcribing v t text isFinal st
  | StartClicked => handleStartTranscription st
  | StopClicked => handleStopTranscription st
  | TimerFired id => onRestartTimeout id st
  end.

Definition run (actions : list Action) (st : State) : State :=
  fold_left (fun (acc : State) (a : Action) => step a acc) actions st.

End Shell.

(** ** Vocabulary of the properties *)


(** The texts of the final events of a run, in order. *)
Definition finalized (events : list Segment) : list string :=
  map fst (List.filter (fun e : Segment => snd e) events).

(** The finalized segments joined from left to right, with the separator
    [Hook.separatorFor] gives between the text so far and the next one. *)
Definition joinSegments (segments : list string) : string :=
  fold_left
    (fun (acc t : string) => acc +:+ Hook.separatorFor acc t +:+ t)
    segments "".

(** The calls of [onTranscriptionUpdate] with [isFinal] set. *)
Definition finalUpdates (h : Hook.State) : list Segment :=
  List.filter (fun e : Segment => snd e) (Hook.updates h).

(** What a guarded report [if (text) onTranscriptionUpdate(text, isFinal)]
    adds to the log. *)
Definition report (text : string) (isFinal : bool) : list Segment :=
  if truthy text then [(text, isFinal)] else [].

(** The full text an event stands for: the event's own text in
    [Accumulated], the history extended by the segment in [Segmented]. *)
Definition newTextOf (rev : Hook.Revision) (text : string) (h : Hook.State) : string :=
  match rev with
  | Hook.Accumulated => text
  | Hook.Segmented =>
      Hook.transcriptionHistoryRef h
      +:+ Hook.separatorFor (Hook.transcriptionHistoryRef h) text +:+ text
  end.

(** The two tests a chunk passes before [transcribeAudio] looks at the
    chunk counter. *)
Definition passesValidation (b : Blob) : bool :=
  negb (blobSize b <? 10000)%N && negb (OpenAI.badMimeType b).

(** The files posted by the requests logged after the first [n]. *)
Definition postedSince (n : nat) (s : OpenAI.Service) : list Blob :=
  map OpenAI.file (drop n (OpenAI.requests s)).

(** The texts handed to the callback after the first [n] calls. *)
Definition emittedSince (n : nat) (s : OpenAI.Service) : list string :=
  map fst (drop n (OpenAI.emitted s)).

(** Whether no call in a log carries the empty string. *)
Definition noEmptyText (l : list Segment) : bool :=
  forallb (fun e : Segment => truthy (fst e)) l.

(** Options that only choose the emission mode. *)
Definition optionsWith (m : Hook.EmitMode) : Hook.Options :=
  {| Hook.optLanguage := None; Hook.emitMode := Some m; Hook.getBaselineText := None |}.

Definition deltaOptions : Hook.Options := optionsWith Hook.delta.

(** A host with the on-device recognizer, one with only a cloud
    credential, one with neither; and a start in which nothing fails. *)
Definition browserHost : Host :=
  {| hostWindow := mkWindow true false; VITE_OPENAI_API_KEY := None |}.

Definition cloudHost : Host :=
  {| hostWindow := mkWindow false false; VITE_OPENAI_API_KEY := Some "sk-test" |}.

Definition bareHost : Host :=
  {| hostWindow := mkWindow false false; VITE_OPENAI_API_KEY := None |}.

Definition quietStart : VoiceInput.StartIO :=
  {| VoiceInput.media := Normal tt; VoiceInput.started := Normal tt |}.

(** The restarts the on-device recognizer may still attempt before the
    next [startRecording]. *)
Definition budget (s : Browser.Service) : nat :=
  if Browser.isCurrentlyRecording s
  then Browser.maxRestarts - Browser.restartCount s
  else 0.

(** A chunk of 10000 zero bytes declared as WebM: it carries neither the
    WebM magic number nor an ['ftyp'] box. *)
Definition unsignedChunk : Blob :=
  {| data := repeat Byte.x00 (N.to_nat 10000); type := "audio/webm" |}.

(** A chunk that starts with the WebM magic number, is large enough, and
    declares no MIME type. *)
Definition untypedWebmChunk : Blob :=
  {| data := [Byte.x1a; Byte.x45; Byte.xdf; Byte.xa3] ++ repeat Byte.x00 (N.to_nat 12000);
     type := "" |}.

(** A response carrying the transcript [text]. *)
Definition transcriptOf (text : string) : FetchResult :=
  Normal {| status := 200; body := text |}.

(** The failures the cloud recognizer's transcribe path can meet: an
    undersized chunk, a chunk whose MIME type is not accepted, a request
    that is rejected, a response that is not a success. *)
Definition chunkFails (blob : Blob) (net : FetchResult) : Prop :=
  (blobSize blob < 10000)%N
  \/ OpenAI.badMimeType blob = true
  \/ (exists e, net = Throw e)
  \/ (exists r, net = Normal r /\ ok r = false).

(** The test of the [catch] block of the hook's [startRecording]. *)
Definition isPermissionError (e : Error) : bool :=
  String.eqb (name e) "NotAllowedError" || includes (message e) "microphone".

(** The rejection of [getUserMedia] when the user refuses the microphone. *)
Definition notAllowed : Error :=
  {| name := "NotAllowedError"; message := "Permission denied" |}.

(** A start in which the microphone is refused. *)
Definition deniedStart : VoiceInput.StartIO :=
  {| VoiceInput.media := Throw notAllowed; VoiceInput.started := Normal tt |}.

(** The finalized transcripts of a run of [result] events, concatenated
    as the on-device recognizer does (it inserts nothing between them). *)
Definition finalizedTranscript (events : list Browser.SpeechRecognitionEvent) : string :=
  fold_left
    (fun (acc : string) (e : Browser.SpeechRecognitionEvent) =>
       acc +:+ snd (Browser.splitResults e))
    events "".

(** The chunks of a run that carry data. *)
Definition carriesData (c : OpenAI.Chunk) : bool := (0 <? blobSize (fst c))%N.

(** Whether a run of calls contains no [startRecording]. *)
Definition noStart (actions : list Lifecycle.Action) : bool :=
  forallb
    (fun a : Lifecycle.Action =>
       match a with Lifecycle.Start _ _ => false | _ => true end)
    actions.

(** Whether a live backend carries the hook's language. *)
Definition languageInSync (h : Hook.State) : bool :=
  match Hook.voiceServiceRef h with
  | Some v => String.eqb (VoiceInput.getLanguage v) (Hook.language h)
  | None => true
  end.

(** A backend as [reset()] leaves it: not recording, its texts cleared. *)
Definition serviceIsReset (v : VoiceInputService) : bool :=
  match v with
  | BrowserVoiceInputService s =>
      negb (Browser.isCurrentlyRecording s)
      && String.eqb (Browser.fullTranscript s) ""
      && (Browser.restartCount s =? 0)
  | OpenAIVoiceInputService s =>
      negb (OpenAI.isCurrentlyRecording s)
      && String.eqb (OpenAI.finalTranscription s) ""
      && bool_decide (OpenAI.processedTranscriptions s = ∅)
  end.

(** The baseline [startRecording] seeds in [delta] mode: the trimmed value
    of the accessor when it is not blank. *)
Definition seededBaseline (o : Hook.Options) : option string :=
  match Hook.emitMode o, Hook.getBaselineText o with
  | Some Hook.delta, Some text => if truthy (trim text) then Some (trim text) else None
  | _, _ => None
  end.

(** Whether each text of a run extends the one before it, the first one
    extending [p]. *)
Fixpoint extendsChain (p : string) (texts : list string) : bool :=
  match texts with
  | [] => true
  | t :: rest => startsWith t p && extendsChain t rest
  end.

(** The texts of a list, one after the other. *)
Definition joinTexts (texts : list string) : string :=
  fold_right String.append "" texts.

(** The texts the hook reported after the first [n] calls of
    [onTranscriptionUpdate]. *)
Definition reportedSince (n : nat) (h : Hook.State) : list Segment :=
  drop n (Hook.updates h).

(** Whether a run of recognizer events contains no [reset()]. *)
Definition noReset (events : list Browser.Event) : bool :=
  forallb
    (fun e : Browser.Event => match e with Browser.Reset => false | _ => true end)
    events.

(** The [result] events of a run, in order. *)
Definition resultsOf (events : list Browser.Event)
  : list Browser.SpeechRecognitionEvent :=
  flat_map
    (fun e : Browser.Event => match e with Browser.Result ev => [ev] | _ => [] end)
    events.

(** The transcript a settled request carries, if any: the body of a
    success response that is not blank. *)
Definition transcriptIn (net : FetchResult) : option string :=
  match net with
  | Normal r => if ok r && truthy (trim (body r)) then Some (body r) else None
  | Throw _ => None
  end.

(** The transcript of a session of the cloud recognizer whose recorder
    emitted [chunks]. *)
Definition cloudTranscript (chunks : list OpenAI.Chunk) : option string :=
  match List.filter carriesData chunks with
  | first :: _ => if passesValidation (fst first) then transcriptIn (snd first) else None
  | [] => None
  end.

(** What a form posted to the transcription endpoint looks like, for a
    service with credential [key] and language code [code]: the fixed
    fields, a file of at least 10000 bytes, and a file name whose
    extension is a container that the file's MIME type names. *)
Definition wellFormedRequest (key : string) (code : option string)
  (r : OpenAI.Request) : Prop :=
  OpenAI.model r = "whisper-1"
  /\ OpenAI.response_format r = "text"
  /\ OpenAI.bearer r = key
  /\ OpenAI.languageParam r = code
  /\ (10000 <= blobSize (OpenAI.file r))%N
  /\ exists extension,
       In extension ["webm"; "mp4"; "wav"]
       /\ OpenAI.filename r = "audio." +:+ extension
       /\ includes (type (OpenAI.file r)) extension = true.

(** The primary subtag of a language code: what precedes its first
    hyphen. *)
Fixpoint primarySubtag (code : string) : string :=
  match code with
  | EmptyString => EmptyString
  | String c rest =>
      if Ascii.eqb c "-" then EmptyString else String c (primarySubtag rest)
  end.

(** At most one restart timer is armed, and it is the one the ref holds. *)
Definition oneTimer (st : Shell.State) : Prop :=
  Shell.armed st = []
  \/ exists id, Shell.armed st = [id] /\ Shell.restartTimeoutRef st = Some id.

(** * Properties *)

(** ** JavaScript strings *)

Example slice_hello : slice "hello world" 5 = " world".
Proof. reflexivity. Qed.

Example includes_microphone :
  includes "Failed to access microphone" "microphone" = true.
Proof. reflexivity. Qed.

Example trim_padding : trim "  a b  " = "a b".
Proof. reflexivity. Qed.

Lemma append_cons (c : ascii) (s t : string) :
  String c s +:+ t = String c (s +:+ t).
Proof. reflexivity. Qed.

Lemma append_empty_r (s : string) : s +:+ "" = s.
Proof. induction s as [|c s IH]; [reflexivity|]. rewrite append_cons, IH. reflexivity. Qed.

Lemma append_assoc (s t u : string) : (s +:+ t) +:+ u = s +:+ (t +:+ u).
Proof.
  induction s as [|c s IH]; [reflexivity|].
  rewrite !append_cons, IH. reflexivity.
Qed.

Lemma prefix_cons (c d : ascii) (p s : string) :
  String.prefix (String c p) (String d s)
  = if ascii_dec c d then String.prefix p s else false.
Proof. reflexivity. Qed.

(** [startsWith] decides "extends as a prefix". *)
Lemma startsWith_app (p d : string) : startsWith (p +:+ d) p = true.
Proof.
  unfold startsWith. induction p as [|c p IH].
  - destruct d; reflexivity.
  - rewrite append_cons, prefix_cons. destruct (ascii_dec c c); [exact IH|congruence].
Qed.

Lemma startsWith_inv (s p : string) :
  startsWith s p = true -> exists d, s = p +:+ d.
Proof.
  unfold startsWith. revert s. induction p as [|c p IH]; intros s H.
  - exists s. reflexivity.
  - destruct s as [|d s]; [discriminate|].
    rewrite prefix_cons in H. destruct (ascii_dec c d) as [->|]; [|discriminate].
    destruct (IH s H) as [r ->]. exists r. reflexivity.
Qed.

Lemma startsWith_false (s p : string) :
  startsWith s p = false <-> ~ exists d, s = p +:+ d.
Proof.
  split.
  - intros H [d ->]. rewrite startsWith_app in H. discriminate.
  - intros H. destruct (startsWith s p) eqn:E; [|reflexivity].
    exfalso. apply H. apply startsWith_inv. exact E.
Qed.

Lemma slice_app (p d : string) : slice (p +:+ d) (String.length p) = d.
Proof.
  induction p as [|c p IH]; [destruct d; reflexivity|].
  rewrite append_cons. simpl. exact IH.
Qed.

Lemma truthy_app_r (s t : string) : truthy t = true -> truthy (s +:+ t) = true.
Proof. destruct s; [trivial|reflexivity]. Qed.

Lemma truthy_empty (s : string) : truthy s = false <-> s = "".
Proof. destruct s; split; intros H; try reflexivity; discriminate. Qed.

(** ** The reconciler's callback *)

Import Hook.

Lemma onTranscription_cancelled (rev : Revision) (o : Options)
  (text : string) (isFinal : bool) (h : State) :
  isCancelledRef h = true -> onTranscription rev o text isFinal h = h.
Proof.
  intros H. destruct rev; simpl;
    unfold onTranscription_accumulated, onTranscription_segmented;
    rewrite H; reflexivity.
Qed.


Lemma deliver_app (rev : Revision) (o : Options)
  (xs ys : list Segment) (h : State) :
  deliver rev o (xs ++ ys) h = deliver rev o ys (deliver rev o xs h).
Proof. unfold deliver. apply fold_left_app. Qed.

(** C7. In [delta] mode an event that is processed reports the part of the
    new full text beyond the last-reported text when the new text extends
    it (nothing when that part is empty), the whole new text when it does
    not, and the last-reported text becomes the new text, on interim and
    on final events alike. *)
Theorem C7_delta_prefix_comparison (rev : Revision) (o : Options)
  (text : string) (isFinal : bool) (h : State) :
  emitMode o = Some delta ->
  isCancelledRef h = false ->
  let prev := processedRef h in
  let newText := newTextOf rev text h in
  let h' := onTranscription rev o text isFinal h in
  (forall d, newText = prev +:+ d -> updates h' = updates h ++ report d isFinal)
  /\ ((~ exists d, newText = prev +:+ d) ->
      updates h' = updates h ++ report newText isFinal)
  /\ processedRef h' = newText.
Proof.
  intros Hmode Hlive prev newText h'.
  assert (Hcases :
    updates h' = updates h ++
      report (if startsWith newText prev
              then slice newText (String.length prev) else newText) isFinal
    /\ processedRef h' = newText).
  { subst h' newText prev. unfold report.
    destruct rev; simpl;
      unfold onTranscription_accumulated, onTranscription_segmented, emitModeOf;
      rewrite Hmode, Hlive; simpl;
      destruct isFinal; simpl;
      match goal with
      | |- context [truthy ?x] => destruct (truthy x)
      end; simpl; rewrite ?app_nil_r; split; reflexivity. }
  destruct Hcases as [Hup Hproc].
  split; [|split]; [| |exact Hproc].
  - intros d Hd. rewrite Hup, Hd, startsWith_app, slice_app. reflexivity.
  - intros Hno. apply startsWith_false in Hno. rewrite Hup, Hno. reflexivity.
Qed.

Lemma C7_delta_prefix_comparison_witness :
  let h := set_processedRef "hello" (initial deltaOptions) in
  let h' := onTranscription Accumulated deltaOptions "hello world" true h in
  updates h' = [(" world", true)] /\ processedRef h' = "hello world".
Proof.
  destruct (C7_delta_prefix_comparison Accumulated deltaOptions "hello world" true
              (set_processedRef "hello" (initial deltaOptions)) eq_refl eq_refl)
    as (Hext & _ & Hproc).
  split; [exact (Hext " world" eq_refl) | exact Hproc].
Defined.

(** A text that diverges from the last-reported one is reported whole. *)
Example delta_diverged :
  updates (onTranscription Accumulated deltaOptions "help" false
             (set_processedRef "hello" (initial deltaOptions)))
  = [("help", false)].
Proof. reflexivity. Qed.

(** ** No empty text in full and delta modes *)

Lemma noEmptyText_app (l1 l2 : list Segment) :
  noEmptyText (l1 ++ l2) = noEmptyText l1 && noEmptyText l2.
Proof. apply forallb_app. Qed.

Lemma noEmptyText_report (text : string) (isFinal : bool) :
  noEmptyText (report text isFinal) = true.
Proof. unfold report. destruct text; reflexivity. Qed.

(** One processed event adds either nothing or one guarded report,
    except in [segment] mode of the [Segmented] hook, where it adds the
    separator and the segment as they are. *)
Lemma onTranscription_updates (rev : Revision) (o : Options)
  (text : string) (isFinal : bool) (h : State) :
  exists added : list Segment,
    updates (onTranscription rev o text isFinal h) = updates h ++ added
    /\ (added = []
        \/ (exists shown, added = report shown isFinal)
        \/ (rev = Segmented /\ emitModeOf o = segment
            /\ added = [(separatorFor (transcriptionHistoryRef h) text +:+ text, isFinal)])).
Proof.
  destruct (isCancelledRef h) eqn:Hc.
  { exists []. rewrite onTranscription_cancelled by exact Hc.
    rewrite app_nil_r. auto. }
  destruct rev; simpl;
    unfold onTranscription_accumulated, onTranscription_segmented; rewrite Hc.
  - destruct (isDelta (emitModeOf o)).
    + set (d := if startsWith _ _ then _ else _).
      exists (report d isFinal). split; [|right; left; eauto].
      unfold report. destruct isFinal; destruct (truthy d);
        simpl; rewrite ?app_nil_r; reflexivity.
    + exists (report text isFinal). split; [|right; left; eauto].
      unfold report. destruct isFinal; destruct (truthy text);
        simpl; rewrite ?app_nil_r; reflexivity.
  - destruct (emitModeOf o) eqn:Hm; simpl.
    + set (d := _ +:+ _ +:+ text).
      exists (report d isFinal). split; [|right; left; eauto].
      unfold report. destruct isFinal; simpl; destruct (truthy d); simpl;
        rewrite ?app_nil_r; reflexivity.
    + set (d := if startsWith _ _ then _ else _).
      exists (report d isFinal). split; [|right; left; eauto].
      unfold report. destruct isFinal; simpl; destruct (truthy d); simpl;
        rewrite ?app_nil_r; reflexivity.
    + eexists. split; [|right; right; split; [reflexivity|split; reflexivity]].
      destruct isFinal; reflexivity.
Qed.

Lemma onTranscription_noEmptyText (rev : Revision) (o : Options)
  (text : string) (isFinal : bool) (h : State) :
  rev = Accumulated \/ emitModeOf o <> segment \/ truthy text = true ->
  noEmptyText (updates h) = true ->
  noEmptyText (updates (onTranscription rev o text isFinal h)) = true.
Proof.
  intros Hcond Hlog.
  destruct (onTranscription_updates rev o text isFinal h)
    as (added & -> & [-> | [[shown ->] | (Hrev & Hmode & ->)]]);
    rewrite noEmptyText_app, Hlog; simpl.
  - reflexivity.
  - apply noEmptyText_report.
  - destruct Hcond as [Hacc | [Hneq | Htext]].
    + congruence.
    + congruence.
    + rewrite truthy_app_r by exact Htext. reflexivity.
Qed.




(** ** Cancellation *)

(** Neither backend's [stopRecording] throws. *)
Lemma service_stop_normal (cancelled : bool) (v : VoiceInputService) :
  exists text, fst (VoiceInput.stopRecording cancelled v) = Normal text.
Proof. destruct v; simpl; eexists; reflexivity. Qed.

Lemma stopRecording_sets_flag (cancelled : bool) (h : State) (v : VoiceInputService) :
  isRecording h = true ->
  voiceServiceRef h = Some v ->
  isCancelledRef (exec (stopRecording cancelled) h) = cancelled
  /\ isRecording (exec (stopRecording cancelled) h) = false
  /\ updates (exec (stopRecording cancelled) h) = updates h
  /\ errors (exec (stopRecording cancelled) h) = errors h.
Proof.
  intros Hrec Hsvc.
  unfold stopRecording, exec, bind, gets, modify, try_catch, callService, ret.
  simpl. rewrite Hsvc, Hrec. simpl.
  destruct v; simpl; repeat split; reflexivity.
Qed.



(** The flag belongs to the hook, not to the session: the next
    [startRecording] clears it, and a late event of the old backend is
    then processed like any other. *)
Example restart_clears_flag :
  let o := optionsWith full in
  let h := exec (startRecording Accumulated o browserHost quietStart) (initial o) in
  let h := exec (stopRecording true) h in
  let h := exec (startRecording Accumulated o browserHost quietStart) h in
  updates (deliver Accumulated o [("late", true)] h) = [("late", true)].
Proof. reflexivity. Qed.

(** ** Full mode *)

(** The first part of the [try] block throws nothing; it resets the
    texts and the cancellation flag and leaves the logs alone. *)
Lemma startRecording_prepare_spec (rev : Revision) (o : Options) (h : State) :
  exists h1,
    startRecording_prepare rev o h = (Normal tt, h1)
    /\ isCancelledRef h1 = false
    /\ transcription h1 = ""
    /\ interimTranscription h1 = ""
    /\ (rev = Segmented -> transcriptionHistoryRef h1 = "")
    /\ error h1 = None
    /\ permissionDenied h1 = false
    /\ isRecording h1 = isRecording h
    /\ language h1 = language h
    /\ updates h1 = updates h
    /\ errors h1 = errors h.
Proof.
  unfold startRecording_prepare. destruct h.
  cbv beta iota delta [bind modify gets ret try_catch callService].
  destruct rev; cbn;
    (destruct (emitMode o) as [[]|]; cbn;
     try (destruct (getBaselineText o) as [b|]; cbn; try destruct (truthy (trim b)); cbn));
    (match goal with
     | |- context [match ?v with Some _ => _ | None => _ end] => destruct v as [[sb|so]|]
     end; cbn);
    eexists; (split; [reflexivity|]); cbn; repeat split; try reflexivity; discriminate.
Qed.

(** What [startRecording] does, by the way the creation and the start of
    the backend complete. *)
Lemma startRecording_unfold (rev : Revision) (o : Options)
  (host : Host) (io : VoiceInput.StartIO) (h : State) :
  let h1 := exec (startRecording_prepare rev o) h in
  startRecording rev o host io h
  = match createVoiceInputService host (language h1) with
    | Throw e => startRecording_catch e h1
    | Normal service =>
        let launched := set_voiceServiceRef
                          (Some (snd (VoiceInput.startRecording io service))) h1 in
        match fst (VoiceInput.startRecording io service) with
        | Normal _ => (Normal tt, setIsRecording true launched)
        | Throw e => startRecording_catch e launched
        end
    end.
Proof.
  destruct (startRecording_prepare_spec rev o h) as (h1 & Hprep & _).
  unfold exec, startRecording, startRecording_try, startRecording_launch.
  cbv beta iota delta [bind try_catch gets lift modify callService].
  rewrite Hprep. cbn [fst snd].
  destruct (createVoiceInputService host (language h1)) as [service|e]; [|reflexivity].
  destruct (VoiceInput.startRecording io service) as [[[]|e] v]; reflexivity.
Qed.

Lemma startRecording_catch_spec (e : Error) (h : State) :
  let h' := exec (startRecording_catch e) h in
  isCancelledRef h' = isCancelledRef h
  /\ transcription h' = transcription h
  /\ interimTranscription h' = interimTranscription h
  /\ transcriptionHistoryRef h' = transcriptionHistoryRef h
  /\ isRecording h' = isRecording h
  /\ updates h' = updates h
  /\ voiceServiceRef h' = voiceServiceRef h.
Proof.
  unfold startRecording_catch, exec.
  destruct (_ || _); cbn; repeat split; reflexivity.
Qed.

Lemma startRecording_resets (rev : Revision) (o : Options)
  (host : Host) (io : VoiceInput.StartIO) (h : State) :
  let session := exec (startRecording rev o host io) h in
  isCancelledRef session = false
  /\ transcription session = ""
  /\ interimTranscription session = ""
  /\ (rev = Segmented -> transcriptionHistoryRef session = "")
  /\ updates session = updates h.
Proof.
  intros session. subst session. unfold exec. rewrite startRecording_unfold.
  destruct (startRecording_prepare_spec rev o h)
    as (h1 & Hprep & Hc & Ht & Hi & Hh & _ & _ & _ & _ & Hu & _).
  unfold exec. rewrite Hprep. cbn [snd].
  destruct (createVoiceInputService host (language h1)) as [service|e].
  - destruct (fst (VoiceInput.startRecording io service)) as [[]|e].
    + cbn. auto.
    + pose proof (startRecording_catch_spec e
        (set_voiceServiceRef (Some (snd (VoiceInput.startRecording io service))) h1))
        as (Hc' & Ht' & Hi' & Hh' & _ & Hu' & _).
      unfold exec in *. rewrite Hc', Ht', Hi', Hh', Hu'. cbn. auto.
  - pose proof (startRecording_catch_spec e h1) as (Hc' & Ht' & Hi' & Hh' & _ & Hu' & _).
    unfold exec in *. rewrite Hc', Ht', Hi', Hh', Hu'. auto.
Qed.

Section FullMode.

Variable o : Options.
Hypothesis Hmode : emitModeOf o = full.

(** What one processed event does in [full] mode. *)
Lemma onTranscription_full (rev : Revision)
  (text : string) (isFinal : bool) (h : State) :
  isCancelledRef h = false ->
  let h' := onTranscription rev o text isFinal h in
  let newText := newTextOf rev text h in
  isCancelledRef h' = false
  /\ updates h' = updates h ++ report newText isFinal
  /\ transcription h' = (if isFinal then newText else transcription h)
  /\ interimTranscription h' = (if isFinal then "" else text)
  /\ transcriptionHistoryRef h'
     = match rev with
       | Accumulated => transcriptionHistoryRef h
       | Segmented => if isFinal then newText else transcriptionHistoryRef h
       end.
Proof.
  intros Hlive. unfold report.
  destruct rev; simpl;
    unfold onTranscription_accumulated, onTranscription_segmented;
    rewrite Hmode, Hlive; simpl;
    destruct isFinal; simpl;
    match goal with
    | |- context [truthy ?x] => destruct (truthy x) eqn:E
    end; simpl; rewrite ?app_nil_r, ?Hlive; repeat split; reflexivity.
Qed.




Lemma deliver_live_full (rev : Revision) (events : list Segment) (h : State) :
  isCancelledRef h = false ->
  isCancelledRef (deliver rev o events h) = false.
Proof.
  revert h. unfold deliver.
  induction events as [|[t f] events IH]; intros h Hlive; simpl; [exact Hlive|].
  apply IH. apply (onTranscription_full rev t f h Hlive).
Qed.

End FullMode.



(** Two finalized segments, the second after two interim updates. *)
Example scenario_two_segments :
  let o := optionsWith full in
  let session := exec (startRecording Segmented o browserHost quietStart) (initial o) in
  let h' := deliver Segmented o
              [("hello", true); ("wor", false); ("worl", false); ("world", true)] session in
  transcription h' = "hello world"
  /\ finalUpdates h' = [("hello", true); ("hello world", true)].
Proof. split; reflexivity. Qed.

(** The scenario of the specification: interim "hello", then final
    "hello world". *)
Example scenario_hello_world :
  let o := optionsWith full in
  let session := exec (startRecording Accumulated o browserHost quietStart) (initial o) in
  let h' := deliver Accumulated o [("hello", false); ("hello world", true)] session in
  updates h' = [("hello", false); ("hello world", true)]
  /\ transcription h' = "hello world".
Proof. split; reflexivity. Qed.

(** ** The restart cap of the on-device recognizer *)

Ltac run_handler :=
  cbv beta iota zeta delta
    [Browser.handle Browser.onresult Browser.onerror Browser.onend
     Browser.onTimeout Browser.createFreshRecognition
     Browser.initializeRecognition Browser.stopRecording Browser.reset
     Browser.setTimeout Browser.onTranscription
     exec bind gets modify ret try_catch lift throw].

Ltac split_ifs :=
  repeat (match goal with
          | |- context [if ?c then _ else _] => destruct c eqn:?
          end; run_handler).

Ltac bool_facts :=
  repeat match goal with
         | H : (_ <? _) = true |- _ => apply Nat.ltb_lt in H
         | H : (_ <? _) = false |- _ => apply Nat.ltb_ge in H
         | H : (_ && _) = true |- _ => apply andb_prop in H; destruct H
         | H : (_ && _) = false |- _ => apply andb_false_iff in H
         end.

Ltac handler_cases e s :=
  destruct s as [w r rec full count lang pend att fresh em];
  destruct e as [event|error| |started|cancelled|]; run_handler; cbn [fst snd];
  cbn [Browser.isCurrentlyRecording Browser.restartCount Browser.pendingRestarts
       Browser.recognition Browser.window];
  [ split_ifs
  | split_ifs
  | split_ifs
  | destruct pend as [|pend]; run_handler; [|split_ifs; try destruct started; run_handler]
  | idtac
  | idtac ];
  unfold budget, Browser.maxRestarts in *; cbn; bool_facts.

(** No event of a session gives back budget: an attempt is paid for by
    the restart counter. *)
Lemma handle_budget (e : Browser.Event) (s : Browser.Service) :
  Browser.restartAttempts s <= Browser.restartAttempts (exec (Browser.handle e) s)
  /\ Browser.restartAttempts (exec (Browser.handle e) s) + budget (exec (Browser.handle e) s)
     <= Browser.restartAttempts s + budget s.
Proof. handler_cases e s; subst; try destruct rec; lia. Qed.

(** A fresh recognizer is only built by a timer that an attempt set. *)
Lemma handle_fresh (e : Browser.Event) (s : Browser.Service) :
  Browser.freshRecognitions (exec (Browser.handle e) s)
  + Browser.pendingRestarts (exec (Browser.handle e) s)
  + Browser.restartAttempts s
  <= Browser.freshRecognitions s + Browser.pendingRestarts s
     + Browser.restartAttempts (exec (Browser.handle e) s).
Proof. handler_cases e s; lia. Qed.

Lemma run_budget (events : list Browser.Event) (s : Browser.Service) :
  Browser.restartAttempts s <= Browser.restartAttempts (Browser.run events s)
  /\ Browser.restartAttempts (Browser.run events s) + budget (Browser.run events s)
     <= Browser.restartAttempts s + budget s.
Proof.
  revert s. unfold Browser.run.
  induction events as [|e events IH]; intros s; simpl; [lia|].
  specialize (IH (exec (Browser.handle e) s)).
  pose proof (handle_budget e s). lia.
Qed.

Lemma run_fresh (events : list Browser.Event) (s : Browser.Service) :
  Browser.freshRecognitions (Browser.run events s)
  + Browser.pendingRestarts (Browser.run events s)
  + Browser.restartAttempts s
  <= Browser.freshRecognitions s + Browser.pendingRestarts s
     + Browser.restartAttempts (Browser.run events s).
Proof.
  revert s. unfold Browser.run.
  induction events as [|e events IH]; intros s; simpl; [lia|].
  specialize (IH (exec (Browser.handle e) s)).
  pose proof (handle_fresh e s). lia.
Qed.

Lemma budget_bound (s : Browser.Service) : budget s <= 10.
Proof. unfold budget, Browser.maxRestarts. destruct (Browser.isCurrentlyRecording s); lia. Qed.

Lemma budget_spent (s : Browser.Service) :
  Browser.restartCount s = 10 -> budget s = 0.
Proof.
  unfold budget, Browser.maxRestarts. intros ->.
  destruct (Browser.isCurrentlyRecording s); reflexivity.
Qed.

(** Below the cap a transient event does attempt a restart; an abort
    never does. *)
Lemma transient_event_restarts (e : Browser.Event) (s : Browser.Service) :
  Browser.isCurrentlyRecording s = true ->
  Browser.restartCount s < 10 ->
  e = Browser.Ended
  \/ (exists error, e = Browser.Failure error /\ error <> "aborted") ->
  Browser.restartAttempts (exec (Browser.handle e) s) = S (Browser.restartAttempts s)
  /\ Browser.restartCount (exec (Browser.handle e) s) = S (Browser.restartCount s).
Proof.
  intros Hrec Hlt He. apply Nat.ltb_lt in Hlt.
  destruct He as [-> | (error & -> & Hne)]; run_handler; rewrite Hrec;
    change Browser.maxRestarts with 10; rewrite Hlt; cbn [andb].
  - split; reflexivity.
  - destruct (String.eqb error "no-speech"); [split; reflexivity|].
    destruct (String.eqb_spec error "aborted"); [contradiction|].
    split; reflexivity.
Qed.

Example aborted_never_restarts (s : Browser.Service) :
  exec (Browser.handle (Browser.Failure "aborted")) s = s.
Proof. reflexivity. Qed.

(** C2. Between two calls of [startRecording] the on-device recognizer
    sets at most 10 restart timers, whatever events arrive; once the
    restart counter is 10 no event of the session sets another one; and in
    the session of a newly built service at most 10 fresh recognizers are
    created. *)
Theorem C2_restart_cap (events : list Browser.Event) (s : Browser.Service)
  (w : Window) (media started : Completion unit) :
  Browser.restartAttempts (Browser.run events s) <= Browser.restartAttempts s + 10
  /\ (Browser.restartCount s = 10 ->
      Browser.restartAttempts (Browser.run events s) = Browser.restartAttempts s)
  /\ (let session := exec (Browser.startRecording media started) (Browser.new w) in
      Browser.freshRecognitions (Browser.run events session)
      <= Browser.restartAttempts (Browser.run events session)
      /\ Browser.restartAttempts (Browser.run events session) <= 10).
Proof.
  pose proof (run_budget events s) as [Hmono Hbudget].
  pose proof (budget_bound s) as Hb.
  split; [lia|]. split.
  - intros Hcap. rewrite (budget_spent s Hcap) in Hbudget. lia.
  - intros session.
    pose proof (run_budget events session) as [_ Hsession].
    pose proof (run_fresh events session) as Hfresh.
    pose proof (budget_bound session) as Hb'.
    assert (Hzero : Browser.freshRecognitions session = 0
                    /\ Browser.pendingRestarts session = 0
                    /\ Browser.restartAttempts session = 0).
    { subst session. unfold Browser.new, Browser.startRecording.
      run_handler. cbn.
      destruct (webkitSpeechRecognition w); cbn;
        [|destruct (SpeechRecognition w); cbn];
        destruct media; destruct started; cbn; auto. }
    destruct Hzero as (Hf & Hp & Ha). lia.
Qed.

Lemma C2_restart_cap_witness :
  let session := exec (Browser.startRecording (Normal tt) (Normal tt))
                   (Browser.new (mkWindow true false)) in
  let capped := Browser.run (repeat Browser.Ended 10) session in
  Browser.restartCount capped = 10
  /\ Browser.restartAttempts capped = 10
  /\ Browser.restartAttempts
       (Browser.run [Browser.Ended; Browser.Failure "no-speech"; Browser.Failure "network"]
          capped)
     = Browser.restartAttempts capped.
Proof.
  split; [reflexivity|]. split; [reflexivity|].
  apply (proj1 (proj2 (C2_restart_cap
    [Browser.Ended; Browser.Failure "no-speech"; Browser.Failure "network"]
    (Browser.run (repeat Browser.Ended 10)
       (exec (Browser.startRecording (Normal tt) (Normal tt))
          (Browser.new (mkWindow true false))))
    (mkWindow true false) (Normal tt) (Normal tt)))).
  reflexivity.
Defined.

(** ** The cloud recognizer *)

Ltac run_cloud :=
  cbv beta iota delta
    [OpenAI.transcribeAudio OpenAI.tryOpenAITranscription OpenAI.fetch
     OpenAI.callOnTranscription OpenAI.sendAudioChunk OpenAI.ondataavailable
     OpenAI.startRecording OpenAI.stopRecording OpenAI.reset
     exec completion throws bind gets modify ret try_catch lift throw].

Ltac cloud_ifs :=
  repeat (match goal with
          | |- context [if ?c then _ else _] => destruct c eqn:?
          | |- context [match ?c with Normal _ => _ | Throw _ => _ end] =>
              destruct c eqn:?
          end; run_cloud; cbn [fst snd]).

(** What handling one transcription request does to the log of calls
    and to the set of processed transcripts. *)
Lemma tryOpenAITranscription_spec (blob : Blob) (net : FetchResult) (s : OpenAI.Service) :
  let s' := exec (OpenAI.tryOpenAITranscription blob net) s in
  completion (OpenAI.tryOpenAITranscription blob net) s = Normal tt
  /\ OpenAI.chunkCounter s' = OpenAI.chunkCounter s
  /\ OpenAI.isCurrentlyRecording s' = OpenAI.isCurrentlyRecording s
  /\ (exists form, OpenAI.requests s' = OpenAI.requests s ++ [form]
                   /\ OpenAI.file form = blob)
  /\ ((OpenAI.emitted s' = OpenAI.emitted s
       /\ (OpenAI.processedTranscriptions s' = OpenAI.processedTranscriptions s
           \/ (exists t, (t ∉ OpenAI.processedTranscriptions s)
                /\ OpenAI.processedTranscriptions s'
                   = {[t]} ∪ OpenAI.processedTranscriptions s)))
      \/ (exists r, net = Normal r /\ ok r = true
            /\ truthy (trim (body r)) = true
            /\ (body r ∉ OpenAI.processedTranscriptions s)
            /\ OpenAI.emitted s' = OpenAI.emitted s ++ [(body r, false)]
            /\ OpenAI.finalTranscription s' = body r
            /\ OpenAI.processedTranscriptions s'
               = {[body r]} ∪ OpenAI.processedTranscriptions s)).
Proof.
  destruct s as [rec cb final processed lang counter key reqs em].
  run_cloud; cbn [fst snd].
  destruct net as [r|e]; run_cloud; cbn [fst snd];
    cbn [OpenAI.processedTranscriptions OpenAI.onTranscriptionCallback
         OpenAI.set_requests OpenAI.set_processedTranscriptions];
    cloud_ifs; cbn;
    repeat match goal with
           | H : negb _ = false |- _ => apply negb_false_iff in H
           | H : (_ && _) = true |- _ => apply andb_prop in H; destruct H
           end;
    (split; [reflexivity|]); (split; [reflexivity|]); (split; [reflexivity|]);
    (split; [eexists; split; reflexivity|]);
    first [ left; split; [reflexivity|left; reflexivity]
          | left; split; [reflexivity|right; eexists; split; [eassumption|reflexivity]]
          | right; eexists; repeat split; eauto ].
Qed.

(** [transcribeAudio] counts the chunk, and hands it to
    [tryOpenAITranscription] exactly when it passes the two tests and is
    the first one counted. *)
Lemma transcribeAudio_unfold (blob : Blob) (net : FetchResult) (s : OpenAI.Service) :
  let counted := OpenAI.set_chunkCounter (S (OpenAI.chunkCounter s)) s in
  OpenAI.transcribeAudio blob net s
  = if passesValidation blob && (OpenAI.chunkCounter s =? 0)
    then (Normal tt, exec (OpenAI.tryOpenAITranscription blob net) counted)
    else (Normal tt, counted).
Proof.
  pose proof (tryOpenAITranscription_spec blob net
                (OpenAI.set_chunkCounter (S (OpenAI.chunkCounter s)) s)) as (Hn & _).
  unfold completion in Hn. unfold passesValidation.
  cbv beta iota delta [OpenAI.transcribeAudio exec bind gets modify ret try_catch fst snd].
  destruct (blobSize blob <? 10000)%N; cbn [negb andb]; [reflexivity|].
  destruct (OpenAI.badMimeType blob); cbn [negb andb]; [reflexivity|].
  change (OpenAI.chunkCounter (OpenAI.set_chunkCounter (S (OpenAI.chunkCounter s)) s))
    with (S (OpenAI.chunkCounter s)).
  change (S (OpenAI.chunkCounter s) =? 1) with (OpenAI.chunkCounter s =? 0).
  destruct (OpenAI.chunkCounter s =? 0); [|reflexivity].
  destruct (OpenAI.tryOpenAITranscription blob net _) as [c s'].
  simpl in Hn. subst c. reflexivity.
Qed.

Lemma transcribeAudio_spec (blob : Blob) (net : FetchResult) (s : OpenAI.Service) :
  let s' := exec (OpenAI.transcribeAudio blob net) s in
  completion (OpenAI.transcribeAudio blob net) s = Normal tt
  /\ OpenAI.chunkCounter s' = S (OpenAI.chunkCounter s)
  /\ OpenAI.isCurrentlyRecording s' = OpenAI.isCurrentlyRecording s
  /\ exists extra,
       OpenAI.requests s' = OpenAI.requests s ++ extra
       /\ map OpenAI.file extra
          = if passesValidation blob && (OpenAI.chunkCounter s =? 0) then [blob] else [].
Proof.
  unfold exec, completion. rewrite transcribeAudio_unfold.
  destruct (passesValidation blob && (OpenAI.chunkCounter s =? 0)); cbn [fst snd].
  - destruct (tryOpenAITranscription_spec blob net
                (OpenAI.set_chunkCounter (S (OpenAI.chunkCounter s)) s))
      as (_ & Hc & Hr & (form & Hreq & Hfile) & _).
    split; [reflexivity|]. split; [exact Hc|]. split; [exact Hr|].
    exists [form]. split; [exact Hreq|]. simpl. rewrite Hfile. reflexivity.
  - split; [reflexivity|]. split; [reflexivity|]. split; [reflexivity|].
    exists []. split; [symmetry; apply app_nil_r|reflexivity].
Qed.

Lemma sendAudioChunk_is_transcribeAudio :
  OpenAI.sendAudioChunk = OpenAI.transcribeAudio.
Proof. reflexivity. Qed.

(** Once a chunk has been counted, no later chunk is posted. *)
Lemma feed_counted (chunks : list OpenAI.Chunk) (s : OpenAI.Service) :
  0 < OpenAI.chunkCounter s ->
  let s' := OpenAI.feed OpenAI.sendAudioChunk chunks s in
  OpenAI.requests s' = OpenAI.requests s
  /\ OpenAI.isCurrentlyRecording s' = OpenAI.isCurrentlyRecording s
  /\ OpenAI.feedThrows OpenAI.sendAudioChunk chunks s = false.
Proof.
  rewrite sendAudioChunk_is_transcribeAudio.
  revert s. unfold OpenAI.feed.
  induction chunks as [|[blob net] chunks IH]; intros s Hpos; simpl; [auto|].
  destruct (transcribeAudio_spec blob net s) as (Hn & Hc & Hr & extra & Hreq & Hfile).
  destruct (OpenAI.chunkCounter s) as [|n] eqn:Hn0; [lia|].
  rewrite andb_false_r in Hfile. destruct extra; [|discriminate].
  rewrite app_nil_r in Hreq.
  destruct (IH (exec (OpenAI.transcribeAudio blob net) s)) as (Hreq' & Hr' & Ht').
  { rewrite Hc. lia. }
  split; [congruence|]. split; [congruence|].
  unfold throws. unfold completion in Hn. rewrite Hn. simpl. exact Ht'.
Qed.

Lemma startRecording_cloud (media : Completion unit) (s : OpenAI.Service) :
  let session := exec (OpenAI.startRecording media) s in
  OpenAI.chunkCounter session = 0
  /\ OpenAI.processedTranscriptions session = ∅
  /\ OpenAI.requests session = OpenAI.requests s
  /\ OpenAI.emitted session = OpenAI.emitted s.
Proof.
  destruct s. run_cloud. destruct media; cbn; repeat split; reflexivity.
Qed.

(** C5. In a session of the cloud recognizer the only chunk that can be
    posted to the transcription API is the first one handed to
    [sendAudioChunk] (it is posted when it passes the size and MIME
    tests); no later chunk is posted, none of the calls throws, and the
    service stays in the recording state it was in. *)
Theorem C5_only_first_chunk_posted (s0 : OpenAI.Service)
  (media : Completion unit) (chunks : list OpenAI.Chunk) :
  let session := exec (OpenAI.startRecording media) s0 in
  let after := OpenAI.feed OpenAI.sendAudioChunk chunks session in
  postedSince (length (OpenAI.requests session)) after
  = match chunks with
    | [] => []
    | first :: _ => if passesValidation (fst first) then [fst first] else []
    end
  /\ OpenAI.feedThrows OpenAI.sendAudioChunk chunks session = false
  /\ OpenAI.isCurrentlyRecording after = OpenAI.isCurrentlyRecording session.
Proof.
  intros session after.
  destruct (startRecording_cloud media s0) as (Hzero & _).
  fold session in Hzero. subst after. unfold postedSince.
  destruct chunks as [|[blob net] chunks].
  - simpl. rewrite drop_all. auto.
  - destruct (transcribeAudio_spec blob net session)
      as (Hn & Hc & Hr & extra & Hreq & Hfile).
    destruct (feed_counted chunks (exec (OpenAI.transcribeAudio blob net) session))
      as (Hreq' & Hr' & Ht').
    { rewrite Hc. lia. }
    rewrite sendAudioChunk_is_transcribeAudio in *.
    unfold OpenAI.feed in *. simpl.
    rewrite Hreq', Hreq, drop_app_length, Hfile, Hzero, andb_true_r.
    split; [reflexivity|]. split; [|congruence].
    unfold throws. unfold completion in Hn. rewrite Hn. simpl. exact Ht'.
Qed.

(** The recorder's handler drops an empty blob before it is counted, so
    what [sendAudioChunk] counts are the chunks that carry data. *)
Lemma ondataavailable_empty (blob : Blob) (net : FetchResult) (s : OpenAI.Service) :
  blobSize blob = 0%N -> OpenAI.ondataavailable blob net s = (Normal tt, s).
Proof. intros H. unfold OpenAI.ondataavailable. rewrite H. reflexivity. Qed.

Lemma feed_ondataavailable (chunks : list OpenAI.Chunk) (s : OpenAI.Service) :
  OpenAI.feed OpenAI.ondataavailable chunks s
  = OpenAI.feed OpenAI.sendAudioChunk (List.filter carriesData chunks) s.
Proof.
  revert s. unfold OpenAI.feed.
  induction chunks as [|[blob net] chunks IH]; intros s; [reflexivity|].
  simpl. rewrite IH. unfold OpenAI.ondataavailable at 1.
  change (carriesData (blob, net)) with (0 <? blobSize blob)%N.
  destruct (0 <? blobSize blob)%N; reflexivity.
Qed.

(** ** Deduplication of transcripts *)

(** The transcripts handed to the callback while a run of requests is
    handled are pairwise distinct, were not processed before, and are
    processed afterwards. *)
Lemma feed_transcriptions (chunks : list OpenAI.Chunk) (s : OpenAI.Service) :
  let s' := OpenAI.feed OpenAI.tryOpenAITranscription chunks s in
  exists extra,
    OpenAI.emitted s' = OpenAI.emitted s ++ extra
    /\ NoDup (map fst extra)
    /\ (forall t, t ∈ map fst extra -> t ∉ OpenAI.processedTranscriptions s)
    /\ OpenAI.processedTranscriptions s ⊆ OpenAI.processedTranscriptions s'.
Proof.
  revert s. unfold OpenAI.feed.
  induction chunks as [|[blob net] chunks IH]; intros s; simpl.
  - exists []. rewrite app_nil_r. split; [reflexivity|]. split; [constructor|].
    split; [intros t Ht; inversion Ht|reflexivity].
  - destruct (tryOpenAITranscription_spec blob net s) as (_ & _ & _ & _ & Hstep).
    destruct (IH (exec (OpenAI.tryOpenAITranscription blob net) s))
      as (extra & Hem & Hnd & Hfresh & Hsub).
    destruct Hstep as [(Hsame & Hproc) | (r & _ & _ & _ & Hnew & Hadd & _ & Hproc)].
    + exists extra. rewrite Hem, Hsame. split; [reflexivity|]. split; [exact Hnd|].
      assert (Hle : OpenAI.processedTranscriptions s
                    ⊆ OpenAI.processedTranscriptions
                        (exec (OpenAI.tryOpenAITranscription blob net) s)).
      { destruct Hproc as [-> | (t & _ & ->)]; [reflexivity|apply union_subseteq_r]. }
      split; [|etrans; eassumption].
      intros t Ht Hin. apply (Hfresh t Ht). apply Hle. exact Hin.
    + exists ((body r, false) :: extra). rewrite Hem, Hadd, <- app_assoc.
      split; [reflexivity|]. rewrite Hproc in Hfresh, Hsub.
      split; [|split].
      * simpl. constructor; [|exact Hnd].
        intros Hin. apply (Hfresh _ Hin). apply elem_of_union_l, elem_of_singleton.
        reflexivity.
      * intros t Ht. simpl in Ht. apply elem_of_cons in Ht as [-> | Ht]; [exact Hnew|].
        intros Hin. apply (Hfresh t Ht). apply elem_of_union_r. exact Hin.
      * etrans; [apply union_subseteq_r|exact Hsub].
Qed.

(** C4. A session of the cloud recognizer starts with an empty set of
    processed transcripts; whatever responses arrive during it, no
    transcript is handed to the callback twice; and a response whose
    transcript is already in the set leaves the log of callback calls as
    it is. *)
Theorem C4_duplicate_transcript_discarded (s0 s : OpenAI.Service)
  (media : Completion unit) (chunks : list OpenAI.Chunk)
  (blob : Blob) (r : Response) :
  let session := exec (OpenAI.startRecording media) s0 in
  let after := OpenAI.feed OpenAI.tryOpenAITranscription chunks session in
  OpenAI.processedTranscriptions session = ∅
  /\ NoDup (emittedSince (length (OpenAI.emitted session)) after)
  /\ (body r ∈ OpenAI.processedTranscriptions s ->
      OpenAI.emitted (exec (OpenAI.tryOpenAITranscription blob (Normal r)) s)
      = OpenAI.emitted s).
Proof.
  intros session after.
  destruct (startRecording_cloud media s0) as (_ & Hempty & _).
  split; [exact Hempty|]. split.
  - destruct (feed_transcriptions chunks session) as (extra & Hem & Hnd & _).
    fold after in Hem. unfold emittedSince. rewrite Hem, drop_app_length. exact Hnd.
  - intros Hin.
    destruct (tryOpenAITranscription_spec blob (Normal r) s)
      as (_ & _ & _ & _ & [(Hsame & _) | (r' & Heq & _ & _ & Hnew & _)]).
    + exact Hsame.
    + injection Heq as <-. contradiction.
Qed.

Lemma C4_duplicate_transcript_discarded_witness :
  let session := exec (OpenAI.startRecording (Normal tt)) (OpenAI.new "sk-test") in
  let clip := {| data := []; type := "audio/webm" |} in
  let response := {| status := 200; body := "testing one two" |} in
  let once := exec (OpenAI.tryOpenAITranscription clip (Normal response)) session in
  OpenAI.emitted once = [("testing one two", false)]
  /\ OpenAI.emitted (exec (OpenAI.tryOpenAITranscription clip (Normal response)) once)
     = OpenAI.emitted once.
Proof.
  split; [vm_compute; reflexivity|].
  apply (proj2 (proj2 (C4_duplicate_transcript_discarded
    (OpenAI.new "sk-test")
    (exec (OpenAI.tryOpenAITranscription {| data := []; type := "audio/webm" |}
             (Normal {| status := 200; body := "testing one two" |}))
       (exec (OpenAI.startRecording (Normal tt)) (OpenAI.new "sk-test")))
    (Normal tt) [] {| data := []; type := "audio/webm" |}
    {| status := 200; body := "testing one two" |}))).
  apply (bool_decide_unpack _). vm_compute. exact I.
Defined.

Example duplicate_transcript_scenario :
  let session := exec (OpenAI.startRecording (Normal tt)) (OpenAI.new "sk-test") in
  let chunk := (unsignedChunk, transcriptOf "testing one two") in
  OpenAI.emitted (OpenAI.feed OpenAI.tryOpenAITranscription [chunk; chunk] session)
  = [("testing one two", false)].
Proof. vm_compute. reflexivity. Qed.

(** ** Validation and failures of the transcribe path *)

(** C6 (amended). Before a chunk is posted it has passed a size test (at
    least 10000 bytes) and a test of its declared MIME type (it names
    webm, mp4 or wav); [transcribeAudio] never throws; and a chunk that
    fails (undersized, MIME type not accepted, request rejected, response
    not a success) changes neither the log of callback calls, nor the last
    transcript, nor the set of processed transcripts. *)
Theorem C6_chunk_failures_are_skipped (blob : Blob) (net : FetchResult)
  (s : OpenAI.Service) :
  let s' := exec (OpenAI.transcribeAudio blob net) s in
  completion (OpenAI.transcribeAudio blob net) s = Normal tt
  /\ (exists extra, OpenAI.requests s' = OpenAI.requests s ++ extra
        /\ (extra = []
            \/ (exists form, extra = [form] /\ OpenAI.file form = blob
                  /\ (10000 <= blobSize blob)%N
                  /\ OpenAI.badMimeType blob = false)))
  /\ (chunkFails blob net ->
      OpenAI.emitted s' = OpenAI.emitted s
      /\ OpenAI.finalTranscription s' = OpenAI.finalTranscription s
      /\ OpenAI.processedTranscriptions s' = OpenAI.processedTranscriptions s).
Proof.
  intros s'. subst s'. unfold exec, completion. rewrite transcribeAudio_unfold.
  set (counted := OpenAI.set_chunkCounter (S (OpenAI.chunkCounter s)) s).
  destruct (passesValidation blob && (OpenAI.chunkCounter s =? 0)) eqn:Hgo; cbn [fst snd].
  - apply andb_prop in Hgo as [Hvalid _]. unfold passesValidation in Hvalid.
    apply andb_prop in Hvalid as [Hsize Hmime].
    apply negb_true_iff in Hsize, Hmime. apply N.ltb_ge in Hsize.
    split; [reflexivity|]. split.
    + destruct (tryOpenAITranscription_spec blob net counted)
        as (_ & _ & _ & (form & Hreq & Hfile) & _).
      exists [form]. split; [exact Hreq|]. right. exists form. auto.
    + intros [Hsmall | [Hbad | [[e ->] | (r & -> & Hbadr)]]].
      * lia.
      * congruence.
      * destruct s. run_cloud. cbn. auto.
      * destruct s. run_cloud. cbn [fst snd]. rewrite Hbadr. cbn. auto.
  - split; [reflexivity|]. split.
    + exists []. split; [symmetry; apply app_nil_r|]. left. reflexivity.
    + intros _. destruct s. cbn. auto.
Qed.

Lemma C6_chunk_failures_are_skipped_witness :
  let session := exec (OpenAI.startRecording (Normal tt)) (OpenAI.new "sk-test") in
  let net : FetchResult := Normal {| status := 500; body := "server error" |} in
  let s' := exec (OpenAI.transcribeAudio unsignedChunk net) session in
  OpenAI.emitted s' = OpenAI.emitted session
  /\ OpenAI.finalTranscription s' = OpenAI.finalTranscription session
  /\ OpenAI.processedTranscriptions s' = OpenAI.processedTranscriptions session.
Proof.
  apply (proj2 (proj2 (C6_chunk_failures_are_skipped unsignedChunk
    (Normal {| status := 500; body := "server error" |})
    (exec (OpenAI.startRecording (Normal tt)) (OpenAI.new "sk-test"))))).
  right. right. right. eexists. split; reflexivity.
Defined.

(** C6 as stated fails on the container signature: the first chunk of a
    session is posted although its bytes carry no signature, and a chunk
    that starts with the WebM magic number is skipped because it declares
    no MIME type. *)
Lemma C6_signature_is_not_checked :
  let session := exec (OpenAI.startRecording (Normal tt)) (OpenAI.new "sk-test") in
  OpenAI.hasContainerSignature (take 32 (data unsignedChunk)) = false
  /\ postedSince 0
       (exec (OpenAI.transcribeAudio unsignedChunk (transcriptOf "hello")) session)
     = [unsignedChunk]
  /\ OpenAI.hasContainerSignature (take 32 (data untypedWebmChunk)) = true
  /\ postedSince 0
       (exec (OpenAI.transcribeAudio untypedWebmChunk (transcriptOf "hello")) session)
     = [].
Proof. vm_compute. repeat split; reflexivity. Qed.

(** [validateAudioBlob], which no method calls, would accept the chunk
    without a signature as well: above 8000 bytes it accepts anything. *)
Example validateAudioBlob_accepts_unsigned :
  OpenAI.validateAudioBlob unsignedChunk = true.
Proof. vm_compute. reflexivity. Qed.

(** ** Backend selection *)

(** C8. The backend is decided by two inputs of the host: if the window
    has a speech recogniser the on-device backend is built; otherwise, if
    the credential is present (and not empty), the cloud backend is built
    with it; otherwise the function throws, and the hook's session start
    ends in its error branch without recording.  A backend that is built
    carries the language asked for. *)
Theorem C8_backend_selection (host : Host) (language : string) :
  let onDevice :=
    webkitSpeechRecognition (hostWindow host) || SpeechRecognition (hostWindow host) in
  (onDevice = true ->
   exists s, createVoiceInputService host language = Normal (BrowserVoiceInputService s)
             /\ Browser.getLanguage s = language)
  /\ (onDevice = false ->
      forall key, VITE_OPENAI_API_KEY host = Some key -> truthy key = true ->
      exists s, createVoiceInputService host language = Normal (OpenAIVoiceInputService s)
                /\ OpenAI.getLanguage s = language
                /\ OpenAI.apiKey s = key)
  /\ (onDevice = false ->
      VITE_OPENAI_API_KEY host = None \/ VITE_OPENAI_API_KEY host = Some "" ->
      createVoiceInputService host language = Throw (newError noRecognitionMessage)
      /\ forall rev o io h,
           let h' := exec (Hook.startRecording rev o host io) h in
           Hook.isRecording h' = Hook.isRecording h
           /\ Hook.error h' = Some "Failed to start recording"
           /\ Hook.errors h' = Hook.errors h ++ ["Failed to start recording"]).
Proof.
  intros onDevice. subst onDevice.
  split; [|split].
  - intros H. unfold createVoiceInputService. rewrite H.
    eexists. split; reflexivity.
  - intros H key Hkey Htruthy. unfold createVoiceInputService.
    rewrite H, Hkey, Htruthy. eexists. repeat split; reflexivity.
  - intros Hno Hkey.
    assert (Hthrow : forall lang,
      createVoiceInputService host lang = Throw (newError noRecognitionMessage)).
    { intros lang. unfold createVoiceInputService. rewrite Hno.
      destruct Hkey as [-> | ->]; reflexivity. }
    split; [apply Hthrow|].
    intros rev o io h. cbv zeta. unfold exec. rewrite startRecording_unfold.
    rewrite Hthrow.
    destruct (startRecording_prepare_spec rev o h)
      as (h1 & Hprep & _ & _ & _ & _ & _ & _ & Hrec & _ & _ & Herr).
    unfold exec. rewrite Hprep. cbn. rewrite Hrec, Herr. auto.
Qed.

Lemma C8_backend_selection_witness :
  (exists s, createVoiceInputService browserHost "de" = Normal (BrowserVoiceInputService s)
             /\ Browser.getLanguage s = "de")
  /\ (exists s, createVoiceInputService cloudHost "de" = Normal (OpenAIVoiceInputService s)
                /\ OpenAI.getLanguage s = "de" /\ OpenAI.apiKey s = "sk-test")
  /\ createVoiceInputService bareHost "de" = Throw (newError noRecognitionMessage).
Proof.
  split; [|split].
  - exact (proj1 (C8_backend_selection browserHost "de") eq_refl).
  - exact (proj1 (proj2 (C8_backend_selection cloudHost "de")) eq_refl "sk-test" eq_refl eq_refl).
  - exact (proj1 (proj2 (proj2 (C8_backend_selection bareHost "de")) eq_refl
                    (or_introl eq_refl))).
Defined.

(** The on-device backend wins even when a credential is present. *)
Example on_device_preferred :
  exists s,
    createVoiceInputService
      {| hostWindow := mkWindow false true; VITE_OPENAI_API_KEY := Some "sk-test" |} "auto"
    = Normal (BrowserVoiceInputService s).
Proof. eexists. reflexivity. Qed.

(** ** Permission denied *)

(** A start whose [try] block completes leaves the hook recording, with
    no error. *)
Lemma startRecording_success (rev : Revision) (o : Options)
  (host : Host) (io : VoiceInput.StartIO) (h : State) :
  completion (startRecording_try rev o host io) h = Normal tt ->
  let h' := exec (startRecording rev o host io) h in
  isRecording h' = true
  /\ permissionDenied h' = false
  /\ error h' = None
  /\ errors h' = errors h.
Proof.
  intros Hok h'. subst h'. unfold completion in Hok. revert Hok.
  unfold exec, startRecording, try_catch, startRecording_try, startRecording_launch.
  cbv beta iota delta [bind gets lift modify callService].
  destruct (startRecording_prepare_spec rev o h)
    as (h1 & Hprep & _ & _ & _ & _ & Herr & Hperm & _ & _ & _ & Herrs).
  rewrite Hprep. cbn [fst snd].
  destruct (createVoiceInputService host (language h1)) as [service|e0]; cbn [fst snd];
    [|discriminate].
  destruct (VoiceInput.startRecording io service) as [[[]|e0] v]; cbn [fst snd];
    [|discriminate].
  intros _. cbn. auto.
Qed.

(** C9. When the [try] block of [startRecording] throws an error that the
    hook takes for a refusal of the microphone, [permissionDenied] becomes
    true, the error callback is called once, with ['Microphone permission
    denied'], [isRecording] keeps its value (false for an idle hook), and
    a later [startRecording] whose backend starts sets [isRecording] with
    the error and the flag cleared. *)
Theorem C9_permission_denied (rev : Revision) (o : Options)
  (host : Host) (io : VoiceInput.StartIO) (h : State) (e : Error) :
  completion (startRecording_try rev o host io) h = Throw e ->
  isPermissionError e = true ->
  let h' := exec (startRecording rev o host io) h in
  permissionDenied h' = true
  /\ error h' = Some "Microphone permission denied"
  /\ errors h' = errors h ++ ["Microphone permission denied"]
  /\ isRecording h' = isRecording h
  /\ updates h' = updates h
  /\ forall host' io',
       completion (startRecording_try rev o host' io') h' = Normal tt ->
       let h'' := exec (startRecording rev o host' io') h' in
       isRecording h'' = true
       /\ permissionDenied h'' = false
       /\ error h'' = None
       /\ errors h'' = errors h'.
Proof.
  intros Hthrow Hperm h'.
  assert (Hh' : exists h1, startRecording_try rev o host io h = (Throw e, h1)
                 /\ isRecording h1 = isRecording h
                 /\ updates h1 = updates h /\ errors h1 = errors h
                 /\ h' = exec (startRecording_catch e) h1).
  { subst h'. unfold completion in Hthrow.
    unfold exec, startRecording, try_catch.
    destruct (startRecording_prepare_spec rev o h)
      as (h1 & Hprep & _ & _ & _ & _ & _ & _ & Hrec & _ & Hup & Herr).
    revert Hthrow.
    unfold startRecording_try, startRecording_launch.
    cbv beta iota delta [bind gets lift modify callService].
    rewrite Hprep. cbn [fst snd].
    destruct (createVoiceInputService host (language h1)) as [service|e0]; cbn [fst snd].
    - destruct (VoiceInput.startRecording io service) as [[[]|e0] v]; cbn [fst snd];
        intros Heq; [discriminate|]. injection Heq as ->.
      eexists. split; [reflexivity|]. cbn. auto.
    - intros Heq. injection Heq as ->. eexists. split; [reflexivity|]. auto. }
  destruct Hh' as (h1 & Htry & Hrec & Hup & Herr & ->).
  unfold startRecording_catch. fold (isPermissionError e). rewrite Hperm.
  cbn. rewrite Hrec, Hup, Herr.
  do 5 (split; [reflexivity|]).
  intros host' io' Hok.
  destruct (startRecording_success rev o host' io' _ Hok) as (H1 & H2 & H3 & H4).
  rewrite H1, H2, H3, H4. cbn. rewrite Herr. auto.
Qed.

Lemma C9_permission_denied_witness :
  let o := optionsWith full in
  let h' := exec (startRecording Accumulated o cloudHost deniedStart) (initial o) in
  permissionDenied h' = true
  /\ error h' = Some "Microphone permission denied"
  /\ errors h' = ["Microphone permission denied"]
  /\ isRecording h' = false
  /\ isRecording (exec (startRecording Accumulated o cloudHost quietStart) h') = true.
Proof.
  destruct (C9_permission_denied Accumulated (optionsWith full) cloudHost deniedStart
              (initial (optionsWith full)) (newError "Failed to access microphone")
              eq_refl eq_refl)
    as (Hperm & Herr & Herrs & Hrec & _ & Hagain).
  split; [exact Hperm|]. split; [exact Herr|]. split; [exact Herrs|].
  split; [exact Hrec|].
  exact (proj1 (Hagain cloudHost quietStart eq_refl)).
Defined.

(** On the cloud backend every failure of the microphone set-up reaches
    the hook as ['Failed to access microphone'], which it takes for a
    refusal. *)
Lemma cloud_start_failure_is_permission_error (rev : Revision) (o : Options)
  (key : string) (e0 : Error) (h : State) :
  truthy key = true ->
  let host := {| hostWindow := mkWindow false false; VITE_OPENAI_API_KEY := Some key |} in
  let io := {| VoiceInput.media := Throw e0; VoiceInput.started := Normal tt |} in
  completion (startRecording_try rev o host io) h
  = Throw (newError "Failed to access microphone")
  /\ isPermissionError (newError "Failed to access microphone") = true.
Proof.
  intros Hkey host io. split; [|reflexivity].
  unfold completion, startRecording_try, startRecording_launch.
  cbv beta iota delta [bind gets lift modify callService].
  destruct (startRecording_prepare_spec rev o h) as (h1 & Hprep & _).
  rewrite Hprep. cbn [fst snd].
  unfold createVoiceInputService, host. cbn [hostWindow webkitSpeechRecognition
    SpeechRecognition orb VITE_OPENAI_API_KEY]. rewrite Hkey. reflexivity.
Qed.

(** On the on-device backend a refusal met while the visualization is
    set up is swallowed: the start completes and the hook records. *)
Example on_device_refusal_is_swallowed :
  let o := optionsWith full in
  let h' := exec (startRecording Accumulated o browserHost deniedStart) (initial o) in
  isRecording h' = true /\ permissionDenied h' = false /\ errors h' = [].
Proof. repeat split; reflexivity. Qed.

(** ** The on-device recognizer under the reconciler in full mode *)

Lemma onresult_spec (event : Browser.SpeechRecognitionEvent) (s : Browser.Service) :
  let s' := exec (Browser.onresult event) s in
  let interimT := fst (Browser.splitResults event) in
  let finalT := snd (Browser.splitResults event) in
  Browser.fullTranscript s' = Browser.fullTranscript s +:+ finalT
  /\ Browser.emitted s'
     = Browser.emitted s
       ++ (if truthy interimT then [(Browser.fullTranscript s +:+ interimT, false)] else [])
       ++ (if truthy finalT then [(Browser.fullTranscript s +:+ finalT, true)] else []).
Proof.
  destruct s. run_handler.
  destruct (truthy (fst (Browser.splitResults event))) eqn:Hi;
    destruct (truthy (snd (Browser.splitResults event))) eqn:Hf;
    run_handler; cbn; rewrite <- ?app_assoc, ?app_nil_r;
    try (apply truthy_empty in Hf; rewrite Hf, append_empty_r);
    split; reflexivity.
Qed.

(** Whatever [result] events the recognizer fires, the text the hook
    holds as final is the service's accumulated transcript. *)
Lemma on_device_full_pipeline (o : Options)
  (events : list Browser.SpeechRecognitionEvent)
  (s : Browser.Service) (h : State) :
  emitModeOf o = full ->
  isCancelledRef h = false ->
  transcription h = Browser.fullTranscript s ->
  let s' := Browser.run (map Browser.Result events) s in
  exists fired,
    Browser.emitted s' = Browser.emitted s ++ fired
    /\ transcription (deliver Accumulated o fired h) = Browser.fullTranscript s'
    /\ Browser.fullTranscript s'
       = fold_left
           (fun (acc : string) (e : Browser.SpeechRecognitionEvent) =>
              acc +:+ snd (Browser.splitResults e))
           events (Browser.fullTranscript s).
Proof.
  intros Hmode. revert s h. unfold Browser.run.
  induction events as [|event events IH]; intros s h Hlive Hsame; simpl.
  - exists []. rewrite app_nil_r. auto.
  - destruct (onresult_spec event s) as (Hfull & Hem).
    set (s1 := exec (Browser.onresult event) s) in *.
    set (interimT := fst (Browser.splitResults event)) in *.
    set (finalT := snd (Browser.splitResults event)) in *.
    set (fired1 :=
           (if truthy interimT then [(Browser.fullTranscript s +:+ interimT, false)] else [])
           ++ (if truthy finalT then [(Browser.fullTranscript s +:+ finalT, true)] else []))
      in *.
    assert (Hh1 : isCancelledRef (deliver Accumulated o fired1 h) = false
                  /\ transcription (deliver Accumulated o fired1 h)
                     = Browser.fullTranscript s1).
    { split; [apply deliver_live_full; assumption|].
      subst fired1. rewrite deliver_app.
      assert (Hint : forall l, l = [] \/ (exists t, l = [(t, false)]) ->
                isCancelledRef (deliver Accumulated o l h) = false
                /\ transcription (deliver Accumulated o l h) = transcription h).
      { intros l [-> | [t ->]]; [auto|].
        destruct (onTranscription_full o Hmode Accumulated t false h Hlive)
          as (Hl & _ & Ht & _). auto. }
      destruct (Hint (if truthy interimT
                      then [(Browser.fullTranscript s +:+ interimT, false)] else []))
        as (Hl & Ht); [destruct (truthy interimT); eauto|].
      destruct (truthy finalT) eqn:Hf.
      - destruct (onTranscription_full o Hmode Accumulated
                    (Browser.fullTranscript s +:+ finalT) true _ Hl)
          as (_ & _ & Ht' & _).
        rewrite Hfull. exact Ht'.
      - apply truthy_empty in Hf. simpl. rewrite Ht, Hsame, Hfull, Hf, append_empty_r.
        reflexivity. }
    destruct Hh1 as (Hlive1 & Hsame1).
    destruct (IH s1 (deliver Accumulated o fired1 h) Hlive1 Hsame1)
      as (fired & Hem' & Htr & Hfold).
    exists (fired1 ++ fired). rewrite Hem', Hem, <- app_assoc.
    split; [reflexivity|]. rewrite deliver_app, Htr, Hfold, Hfull.
    split; reflexivity.
Qed.

(** From a newly started service the accumulated transcript is the
    concatenation of the finalized transcripts. *)
Lemma on_device_accumulates (events : list Browser.SpeechRecognitionEvent)
  (w : Window) (media started : Completion unit) :
  Browser.recognition (Browser.new w) = true ->
  Browser.fullTranscript
    (Browser.run (map Browser.Result events)
       (exec (Browser.startRecording media started) (Browser.new w)))
  = finalizedTranscript events.
Proof.
  intros Hrec.
  set (s := exec (Browser.startRecording media started) (Browser.new w)).
  assert (Hempty : Browser.fullTranscript s = "").
  { subst s. unfold exec, Browser.startRecording.
    cbv beta iota delta [bind gets modify lift try_catch throw ret].
    rewrite Hrec. cbn [negb]. destruct media; destruct started; reflexivity. }
  destruct (on_device_full_pipeline (optionsWith full) events s
              (setTranscription (Browser.fullTranscript s) (initial (optionsWith full)))
              eq_refl eq_refl eq_refl) as (_ & _ & _ & Hfold).
  rewrite Hfold, Hempty. reflexivity.
Qed.

(** ** What the backends hand to the reconciler *)

(** Only a [result] event makes the on-device recognizer call the
    callback. *)
Lemma handle_emitted (e : Browser.Event) (s : Browser.Service) :
  match e with
  | Browser.Result _ => True
  | _ => Browser.emitted (exec (Browser.handle e) s) = Browser.emitted s
  end.
Proof. handler_cases e s; try exact I; reflexivity. Qed.

(** The on-device recognizer never calls the callback with an empty
    text. *)
Lemma on_device_emits_no_empty_text (events : list Browser.Event) (s : Browser.Service) :
  noEmptyText (Browser.emitted s) = true ->
  noEmptyText (Browser.emitted (Browser.run events s)) = true.
Proof.
  revert s. unfold Browser.run.
  induction events as [|e events IH]; intros s Hs; [exact Hs|].
  simpl. apply IH. pose proof (handle_emitted e s) as He.
  destruct e as [event|error| |started|cancelled|]; try (rewrite He; exact Hs).
  change (exec (Browser.handle (Browser.Result event)) s)
    with (exec (Browser.onresult event) s).
  destruct (onresult_spec event s) as (_ & ->).
  rewrite !noEmptyText_app, Hs.
  destruct (truthy (fst (Browser.splitResults event))) eqn:Hi;
    destruct (truthy (snd (Browser.splitResults event))) eqn:Hf;
    simpl; rewrite ?truthy_app_r by assumption; reflexivity.
Qed.

(** Neither does the cloud recognizer. *)
Lemma cloud_emits_no_empty_text (chunks : list OpenAI.Chunk) (s : OpenAI.Service) :
  noEmptyText (OpenAI.emitted s) = true ->
  noEmptyText (OpenAI.emitted (OpenAI.feed OpenAI.transcribeAudio chunks s)) = true.
Proof.
  revert s. unfold OpenAI.feed.
  induction chunks as [|[blob net] chunks IH]; intros s Hs; [exact Hs|].
  simpl. apply IH. unfold exec. rewrite transcribeAudio_unfold.
  destruct (passesValidation blob && (OpenAI.chunkCounter s =? 0)); cbn [snd];
    [|destruct s; exact Hs].
  destruct (tryOpenAITranscription_spec blob net
              (OpenAI.set_chunkCounter (S (OpenAI.chunkCounter s)) s))
    as (_ & _ & _ & _ & [(Hsame & _) | (r & _ & _ & Ht & _ & Hadd & _)]).
  - rewrite Hsame. destruct s; exact Hs.
  - rewrite Hadd, noEmptyText_app.
    replace (OpenAI.emitted (OpenAI.set_chunkCounter (S (OpenAI.chunkCounter s)) s))
      with (OpenAI.emitted s) by (destruct s; reflexivity).
    rewrite Hs. simpl.
    destruct (body r); [discriminate Ht|reflexivity].
Qed.

(** So with either backend of the repository no empty text reaches the
    consumer, in any mode of either copy of the hook. *)
Lemma deliver_nonempty_events (rev : Revision) (o : Options)
  (events : list Segment) (h : State) :
  noEmptyText events = true ->
  noEmptyText (updates h) = true ->
  noEmptyText (updates (deliver rev o events h)) = true.
Proof.
  revert h. unfold deliver.
  induction events as [|[t f] events IH]; intros h Hev Hlog; [exact Hlog|].
  simpl in Hev. apply andb_prop in Hev as [Ht Hev]. simpl.
  apply IH; [exact Hev|].
  apply onTranscription_noEmptyText; [right; right; exact Ht|exact Hlog].
Qed.

Corollary on_device_session_no_empty_update (rev : Revision) (o : Options)
  (events : list Browser.Event) (w : Window) (media started : Completion unit)
  (h : State) :
  noEmptyText (updates h) = true ->
  let service := exec (Browser.startRecording media started) (Browser.new w) in
  noEmptyText
    (updates (deliver rev o (Browser.emitted (Browser.run events service)) h)) = true.
Proof.
  intros Hlog service. apply deliver_nonempty_events; [|exact Hlog].
  apply on_device_emits_no_empty_text.
  subst service. unfold exec, Browser.startRecording, Browser.new.
  run_handler. cbn.
  destruct (webkitSpeechRecognition w); cbn;
    [|destruct (SpeechRecognition w); cbn];
    destruct media; destruct started; reflexivity.
Qed.

(** The on-device recognizer under the hook of
    [src/useVoiceTranscription.ts], both newly started: whatever [result]
    events arrive, with whatever interim entries, the final text the hook
    holds in [full] mode is the concatenation of the finalized
    transcripts. *)
Corollary on_device_session_final_text (o : Options)
  (events : list Browser.SpeechRecognitionEvent)
  (host : Host) (io : VoiceInput.StartIO) (h0 : State)
  (w : Window) (media started : Completion unit) :
  emitModeOf o = full ->
  Browser.recognition (Browser.new w) = true ->
  let session := exec (startRecording Accumulated o host io) h0 in
  let service := exec (Browser.startRecording media started) (Browser.new w) in
  let fired := Browser.emitted (Browser.run (map Browser.Result events) service) in
  transcription (deliver Accumulated o fired session) = finalizedTranscript events.
Proof.
  intros Hmode Hrec session service fired.
  destruct (startRecording_resets Accumulated o host io h0) as (Hlive & Hempty & _).
  fold session in Hlive, Hempty.
  assert (Hservice : Browser.fullTranscript service = "" /\ Browser.emitted service = []).
  { subst service. unfold exec, Browser.startRecording.
    cbv beta iota delta [bind gets modify lift try_catch throw ret].
    rewrite Hrec. cbn [negb]. unfold Browser.new. run_handler. cbn.
    destruct (webkitSpeechRecognition w); cbn;
      [|destruct (SpeechRecognition w); cbn];
      destruct media; destruct started; split; reflexivity. }
  destruct Hservice as (Hfull & Hnone).
  destruct (on_device_full_pipeline o events service session Hmode Hlive)
    as (fired' & Hem & Htr & Hfold); [congruence|].
  subst fired. rewrite Hem, Hnone. simpl.
  rewrite Htr, <- (on_device_accumulates events w media started Hrec). reflexivity.
Qed.


(** * Further properties *)

(** ** The hook between its calls *)

Lemma startRecording_prepare_refs (rev : Revision) (o : Options) (h : State) :
  let h1 := exec (startRecording_prepare rev o) h in
  voiceServiceRef h1
  = match voiceServiceRef h with
    | Some v => Some (snd (VoiceInput.stopRecording true v))
    | None => None
    end
  /\ processedRef h1
     = match seededBaseline o with
       | Some baseline => baseline
       | None => processedRef h
       end.
Proof.
  unfold startRecording_prepare, seededBaseline, exec. destruct h.
  cbv beta iota delta [bind modify gets ret try_catch callService].
  destruct rev; cbn;
    (destruct (emitMode o) as [[]|]; cbn;
     try (destruct (getBaselineText o) as [b|]; cbn; try destruct (truthy (trim b)); cbn));
    (match goal with
     | |- context [match ?v with Some _ => _ | None => _ end] => destruct v as [[sb|so]|]
     end; cbn); split; reflexivity.
Qed.

Lemma service_stop_language (cancelled : bool) (v : VoiceInputService) :
  VoiceInput.getLanguage (snd (VoiceInput.stopRecording cancelled v))
  = VoiceInput.getLanguage v.
Proof. destruct v as [[]|[]]; reflexivity. Qed.

Lemma service_reset_language (v : VoiceInputService) :
  VoiceInput.getLanguage (snd (VoiceInput.reset v)) = VoiceInput.getLanguage v.
Proof. destruct v as [[]|[]]; reflexivity. Qed.

Lemma service_start_language (io : VoiceInput.StartIO) (v : VoiceInputService) :
  VoiceInput.getLanguage (snd (VoiceInput.startRecording io v))
  = VoiceInput.getLanguage v.
Proof.
  destruct v as [s|s]; destruct s; destruct io as [m st]; simpl.
  - unfold Browser.startRecording.
    cbv beta iota delta [bind gets modify lift try_catch throw ret].
    cbn [Browser.recognition]. destruct recognition; cbn; [|reflexivity].
    destruct m; destruct st; reflexivity.
  - run_cloud. destruct m; reflexivity.
Qed.

Lemma created_language (host : Host) (lang : string) (v : VoiceInputService) :
  createVoiceInputService host lang = Normal v -> VoiceInput.getLanguage v = lang.
Proof.
  unfold createVoiceInputService.
  destruct (_ || _).
  - intros H. injection H as <-. reflexivity.
  - destruct (VITE_OPENAI_API_KEY host) as [key|]; [|discriminate].
    destruct (truthy key); [|discriminate].
    intros H. injection H as <-. reflexivity.
Qed.

(** What the hook's [stopRecording] does when it is recording. *)
Lemma stopRecording_recording (cancelled : bool) (h : State) (v : VoiceInputService) :
  isRecording h = true ->
  voiceServiceRef h = Some v ->
  exec (stopRecording cancelled) h
  = set_voiceServiceRef
      (Some (snd (VoiceInput.reset (snd (VoiceInput.stopRecording cancelled v)))))
      (setIsRecording false (set_isCancelledRef cancelled h)).
Proof.
  intros Hrec Hsvc.
  unfold stopRecording, exec, bind, gets, modify, try_catch, callService, ret.
  simpl. rewrite Hsvc, Hrec. simpl.
  destruct v as [s|s]; destruct s; reflexivity.
Qed.

Lemma stopRecording_idle (cancelled : bool) (h : State) :
  isRecording h = false \/ voiceServiceRef h = None ->
  exec (stopRecording cancelled) h = h.
Proof.
  intros Hidle.
  unfold stopRecording, exec, bind, gets, modify, try_catch, callService, ret.
  simpl. destruct (voiceServiceRef h) as [v|]; [|reflexivity].
  destruct Hidle as [-> | Hnone]; [reflexivity|discriminate].
Qed.

Lemma setLanguage_exec (l : string) (h : State) :
  exec (Lifecycle.setLanguage l) h
  = if String.eqb (language h) l then setLanguageState l h
    else match voiceServiceRef h with
         | Some v =>
             set_voiceServiceRef
               (Some (snd (Lifecycle.serviceSetLanguage l v))) (setLanguageState l h)
         | None => setLanguageState l h
         end.
Proof.
  unfold Lifecycle.setLanguage, Lifecycle.languageEffect, exec.
  cbv beta iota delta [bind gets modify ret callService].
  cbn [fst snd]. destruct (String.eqb (language h) l); [reflexivity|].
  destruct h as [? ? ? ? ? ? [v|] ? ? ? ? ?]; reflexivity.
Qed.

Lemma serviceSetLanguage_spec (l : string) (v : VoiceInputService) :
  VoiceInput.getLanguage (snd (Lifecycle.serviceSetLanguage l v)) = l
  /\ VoiceInput.isRecording (snd (Lifecycle.serviceSetLanguage l v))
     = VoiceInput.isRecording v.
Proof. destruct v as [[]|[]]; split; reflexivity. Qed.

(** While the hook is cancelled and idle, no call other than
    [startRecording] and no event changes that, or reports anything. *)
Lemma step_cancelled_idle (rev : Revision) (o : Options) (a : Lifecycle.Action) (h : State) :
  match a with Lifecycle.Start _ _ => False | _ => True end ->
  isCancelledRef h = true ->
  isRecording h = false ->
  let h' := Lifecycle.step rev o a h in
  isCancelledRef h' = true /\ isRecording h' = false /\ updates h' = updates h.
Proof.
  intros Ha Hc Hr. destruct a as [host io|c|l|text isFinal]; simpl.
  - contradiction.
  - rewrite stopRecording_idle by (left; exact Hr). auto.
  - rewrite setLanguage_exec.
    destruct (String.eqb (language h) l); [|destruct (voiceServiceRef h)];
      destruct h; simpl in *; auto.
  - rewrite onTranscription_cancelled by exact Hc. auto.
Qed.

(** X1. Once [stopRecording(true)] has stopped a recording hook, no
    further call of [stopRecording] (whatever its argument), no
    [setLanguage] and no segment event makes the hook report a text or
    clears the cancellation flag; only the next [startRecording] does. *)
Theorem cancellation_survives_later_stops (rev : Revision) (o : Options)
  (h : State) (v : VoiceInputService) (actions : list Lifecycle.Action) :
  isRecording h = true ->
  voiceServiceRef h = Some v ->
  noStart actions = true ->
  let stopped := exec (stopRecording true) h in
  let h' := Lifecycle.run rev o actions stopped in
  updates h' = updates h /\ isCancelledRef h' = true /\ isRecording h' = false.
Proof.
  intros Hrec Hsvc Hno stopped h'.
  destruct (stopRecording_sets_flag true h v Hrec Hsvc) as (Hflag & Hidle & Hup & _).
  fold stopped in Hflag, Hidle, Hup. rewrite <- Hup. subst h'.
  clearbody stopped. clear Hup Hrec Hsvc.
  revert stopped Hflag Hidle. unfold Lifecycle.run.
  induction actions as [|a actions IH]; intros s Hflag Hidle; simpl; [auto|].
  simpl in Hno. apply andb_prop in Hno as [Ha Hno].
  destruct (step_cancelled_idle rev o a s) as (Hf & Hi & Hu); try assumption.
  { destruct a; [discriminate|exact I|exact I|exact I]. }
  destruct (IH Hno _ Hf Hi) as (Hu' & Hf' & Hi').
  rewrite Hu', Hu. auto.
Qed.

Lemma cancellation_survives_later_stops_witness :
  let o := optionsWith full in
  let h := exec (startRecording Accumulated o browserHost quietStart) (initial o) in
  let actions := [Lifecycle.SegmentEvent "late" true; Lifecycle.Stop false;
                  Lifecycle.SetLanguage "de"; Lifecycle.SegmentEvent "later" true] in
  noStart actions = true
  /\ updates (Lifecycle.run Accumulated o actions (exec (stopRecording true) h))
     = updates h.
Proof.
  split; [reflexivity|].
  refine (proj1 (cancellation_survives_later_stops Accumulated (optionsWith full)
    (exec (startRecording Accumulated (optionsWith full) browserHost quietStart)
       (initial (optionsWith full)))
    (BrowserVoiceInputService
       (exec (Browser.startRecording (Normal tt) (Normal tt))
          (exec (Browser.setLanguage "auto") (Browser.new (mkWindow true false)))))
    [Lifecycle.SegmentEvent "late" true; Lifecycle.Stop false;
     Lifecycle.SetLanguage "de"; Lifecycle.SegmentEvent "later" true]
    eq_refl eq_refl eq_refl)).
Defined.

(** X2. With either backend of the repository the hook's [stopRecording]
    never enters its [catch] block: a recording hook ends not recording,
    with no error stored or reported, and its backend stopped and reset
    with its language kept. *)
Theorem stopRecording_always_succeeds (cancelled : bool) (h : State)
  (v : VoiceInputService) :
  isRecording h = true ->
  voiceServiceRef h = Some v ->
  let h' := exec (stopRecording cancelled) h in
  isRecording h' = false
  /\ error h' = error h
  /\ errors h' = errors h
  /\ exists v', voiceServiceRef h' = Some v'
                /\ serviceIsReset v' = true
                /\ VoiceInput.getLanguage v' = VoiceInput.getLanguage v.
Proof.
  intros Hrec Hsvc h'. subst h'. rewrite (stopRecording_recording cancelled h v Hrec Hsvc).
  destruct h; simpl. do 3 (split; [reflexivity|]).
  eexists. split; [reflexivity|].
  rewrite service_reset_language, service_stop_language.
  split; [|reflexivity].
  destruct v as [s|s]; destruct s; simpl; [reflexivity|].
  apply bool_decide_eq_true_2. reflexivity.
Qed.

Lemma stopRecording_always_succeeds_witness :
  let o := optionsWith full in
  let h := exec (startRecording Accumulated o cloudHost quietStart) (initial o) in
  let h' := exec (stopRecording false) h in
  isRecording h = true
  /\ isRecording h' = false /\ error h' = error h /\ errors h' = errors h.
Proof.
  split; [reflexivity|].
  destruct (stopRecording_always_succeeds false
    (exec (startRecording Accumulated (optionsWith full) cloudHost quietStart)
       (initial (optionsWith full)))
    (OpenAIVoiceInputService
       (exec (OpenAI.startRecording (Normal tt))
          (exec (OpenAI.setLanguage "auto") (OpenAI.new "sk-test"))))
    eq_refl eq_refl) as (H1 & H2 & H3 & _).
  split; [exact H1|]. split; [exact H2|exact H3].
Defined.

(** The callback writes no field but the texts, the baseline and the log
    of updates. *)
Lemma onTranscription_frame (rev : Revision) (o : Options)
  (text : string) (isFinal : bool) (h : State) :
  let h' := onTranscription rev o text isFinal h in
  voiceServiceRef h' = voiceServiceRef h
  /\ language h' = language h
  /\ isRecording h' = isRecording h
  /\ isCancelledRef h' = isCancelledRef h
  /\ errors h' = errors h.
Proof.
  destruct h. destruct rev; unfold onTranscription, onTranscription_accumulated,
    onTranscription_segmented; cbn [isCancelledRef];
    repeat match goal with
           | |- context [if ?c then _ else _] => destruct c
           end; cbn; repeat split; reflexivity.
Qed.

Lemma startRecording_catch_frame (e : Error) (h : State) :
  language (exec (startRecording_catch e) h) = language h
  /\ voiceServiceRef (exec (startRecording_catch e) h) = voiceServiceRef h
  /\ processedRef (exec (startRecording_catch e) h) = processedRef h.
Proof.
  unfold startRecording_catch, exec. destruct (_ || _); cbn; repeat split; reflexivity.
Qed.

Lemma step_languageInSync (rev : Revision) (o : Options) (a : Lifecycle.Action) (h : State) :
  languageInSync h = true -> languageInSync (Lifecycle.step rev o a h) = true.
Proof.
  intros Hsync. destruct a as [host io|c|l|text isFinal]; simpl.
  - unfold exec. rewrite startRecording_unfold.
    destruct (startRecording_prepare_spec rev o h)
      as (h1 & Hprep & _ & _ & _ & _ & _ & _ & _ & Hlang & _).
    destruct (startRecording_prepare_refs rev o h) as (Href & _).
    unfold exec in *. rewrite Hprep in *. cbn [snd] in *.
    assert (Hsync1 : languageInSync h1 = true).
    { unfold languageInSync in *. rewrite Href, Hlang.
      destruct (voiceServiceRef h) as [v|]; [|reflexivity].
      rewrite service_stop_language. exact Hsync. }
    destruct (createVoiceInputService host (language h1)) as [service|e] eqn:Hcreate.
    + apply created_language in Hcreate.
      assert (Hnew : VoiceInput.getLanguage (snd (VoiceInput.startRecording io service))
                     = language h1)
        by (rewrite service_start_language; exact Hcreate).
      destruct (fst (VoiceInput.startRecording io service)) as [[]|e].
      * unfold languageInSync. destruct h1; simpl in *. rewrite Hnew.
        apply String.eqb_refl.
      * destruct (startRecording_catch_frame e
          (set_voiceServiceRef (Some (snd (VoiceInput.startRecording io service))) h1))
          as (Hl & Hr & _).
        unfold exec in Hl, Hr. unfold languageInSync. rewrite Hl, Hr.
        destruct h1; simpl in *. rewrite Hnew. apply String.eqb_refl.
    + destruct (startRecording_catch_frame e h1) as (Hl & Hr & _).
      unfold exec in Hl, Hr. unfold languageInSync in *. rewrite Hl, Hr. exact Hsync1.
  - destruct (isRecording h) eqn:Hrec;
      [destruct (voiceServiceRef h) as [v|] eqn:Hsvc|].
    + rewrite (stopRecording_recording c h v Hrec Hsvc).
      unfold languageInSync in *. rewrite Hsvc in Hsync. destruct h; simpl in *.
      rewrite service_reset_language, service_stop_language. exact Hsync.
    + rewrite stopRecording_idle by (right; exact Hsvc). exact Hsync.
    + rewrite stopRecording_idle by (left; exact Hrec). exact Hsync.
  - rewrite setLanguage_exec. destruct (String.eqb (language h) l) eqn:Hsame.
    + apply String.eqb_eq in Hsame. subst l. destruct h; exact Hsync.
    + unfold languageInSync. destruct (voiceServiceRef h) as [v|] eqn:Hsvc.
      * destruct h; simpl in *.
        rewrite (proj1 (serviceSetLanguage_spec l v)). apply String.eqb_refl.
      * destruct h; simpl in *. rewrite Hsvc. reflexivity.
  - destruct (onTranscription_frame rev o text isFinal h) as (Hr & Hl & _).
    unfold languageInSync in *. rewrite Hr, Hl. exact Hsync.
Qed.

Lemma getLanguage_in_sync (h : State) :
  languageInSync h = true -> Lifecycle.getLanguage h = language h.
Proof.
  unfold languageInSync, Lifecycle.getLanguage.
  destruct (voiceServiceRef h) as [v|]; [|reflexivity].
  intros Hsync. apply String.eqb_eq in Hsync. rewrite Hsync.
  destruct (truthy (language h)); reflexivity.
Qed.

(** X3. Along every run of calls and events from the first render, a
    live backend carries the hook's language and [getLanguage] returns
    it; after [setLanguage(l)], [getLanguage] returns [l], and a live
    backend carries [l] in the recording state it was in. *)
Theorem language_stays_in_sync (rev : Revision) (o : Options)
  (actions : list Lifecycle.Action) (l : string) :
  let h := Lifecycle.run rev o actions (initial o) in
  let h' := exec (Lifecycle.setLanguage l) h in
  languageInSync h = true
  /\ Lifecycle.getLanguage h = language h
  /\ Lifecycle.getLanguage h' = l
  /\ languageInSync h' = true
  /\ option_map VoiceInput.isRecording (voiceServiceRef h')
     = option_map VoiceInput.isRecording (voiceServiceRef h)
  /\ isRecording h' = isRecording h.
Proof.
  intros h h'.
  assert (Hsync : languageInSync h = true).
  { subst h. unfold Lifecycle.run.
    assert (Hgen : forall s, languageInSync s = true ->
      languageInSync
        (fold_left (fun (acc : State) (a : Lifecycle.Action) => Lifecycle.step rev o a acc)
           actions s) = true).
    { induction actions as [|a actions IH]; intros s Hs; simpl; [exact Hs|].
      apply IH. apply step_languageInSync. exact Hs. }
    apply Hgen. reflexivity. }
  assert (Hsync' : languageInSync h' = true)
    by (apply (step_languageInSync rev o (Lifecycle.SetLanguage l) h Hsync)).
  split; [exact Hsync|]. split; [apply getLanguage_in_sync; exact Hsync|].
  assert (Hlang : language h' = l /\ isRecording h' = isRecording h
                  /\ option_map VoiceInput.isRecording (voiceServiceRef h')
                     = option_map VoiceInput.isRecording (voiceServiceRef h)).
  { subst h'. rewrite setLanguage_exec.
    destruct (String.eqb (language h) l); [destruct h; auto|].
    destruct (voiceServiceRef h) as [v|] eqn:Hsvc.
    - destruct h; simpl in *. rewrite (proj2 (serviceSetLanguage_spec l v)). auto.
    - destruct h; simpl in *. rewrite Hsvc. auto. }
  destruct Hlang as (Hl & Hr & Hs).
  split; [rewrite (getLanguage_in_sync h' Hsync'); exact Hl|].
  auto.
Qed.

Lemma language_stays_in_sync_witness :
  let o := optionsWith full in
  let actions := [Lifecycle.Start cloudHost quietStart; Lifecycle.SetLanguage "fr";
                  Lifecycle.Stop false; Lifecycle.Start browserHost quietStart] in
  let h := Lifecycle.run Accumulated o actions (initial o) in
  Lifecycle.getLanguage h = language h
  /\ Lifecycle.getLanguage (exec (Lifecycle.setLanguage "de") h) = "de".
Proof.
  destruct (language_stays_in_sync Accumulated (optionsWith full)
    [Lifecycle.Start cloudHost quietStart; Lifecycle.SetLanguage "fr";
     Lifecycle.Stop false; Lifecycle.Start browserHost quietStart] "de")
    as (_ & H1 & H2 & _).
  split; [exact H1|exact H2].
Defined.

(** X4. A session's backend is a new object: when the factory builds
    one, the service the hook holds after [startRecording] is that object
    started, whatever backend the hook held before. *)
Theorem session_backend_is_fresh (rev : Revision) (o : Options)
  (host : Host) (io : VoiceInput.StartIO) (h1 h2 : State) (v : VoiceInputService) :
  language h1 = language h2 ->
  createVoiceInputService host (language h1) = Normal v ->
  voiceServiceRef (exec (startRecording rev o host io) h1)
  = Some (snd (VoiceInput.startRecording io v))
  /\ voiceServiceRef (exec (startRecording rev o host io) h2)
     = voiceServiceRef (exec (startRecording rev o host io) h1).
Proof.
  intros Hlang Hcreate.
  assert (Hone : forall h, language h = language h1 ->
    voiceServiceRef (exec (startRecording rev o host io) h)
    = Some (snd (VoiceInput.startRecording io v))).
  { intros h Hh. unfold exec. rewrite startRecording_unfold.
    destruct (startRecording_prepare_spec rev o h)
      as (p & Hprep & _ & _ & _ & _ & _ & _ & _ & Hl & _).
    unfold exec. rewrite Hprep. cbn [snd]. rewrite Hl, Hh, Hcreate.
    destruct (fst (VoiceInput.startRecording io v)) as [[]|e].
    - destruct p; reflexivity.
    - destruct (startRecording_catch_frame e
        (set_voiceServiceRef (Some (snd (VoiceInput.startRecording io v))) p))
        as (_ & Hr & _).
      unfold exec in Hr. rewrite Hr. destruct p; reflexivity. }
  split; [apply Hone; reflexivity|].
  rewrite (Hone h1 eq_refl). apply Hone. symmetry. exact Hlang.
Qed.

Lemma session_backend_is_fresh_witness :
  let o := optionsWith full in
  let used := deliver Accumulated o [("hello", true)]
                (exec (startRecording Accumulated o browserHost quietStart) (initial o)) in
  voiceServiceRef (exec (startRecording Accumulated o browserHost quietStart) used)
  = voiceServiceRef (exec (startRecording Accumulated o browserHost quietStart) (initial o)).
Proof.
  exact (proj2 (session_backend_is_fresh Accumulated (optionsWith full) browserHost
    quietStart (initial (optionsWith full))
    (deliver Accumulated (optionsWith full) [("hello", true)]
       (exec (startRecording Accumulated (optionsWith full) browserHost quietStart)
          (initial (optionsWith full))))
    (BrowserVoiceInputService
       (exec (Browser.setLanguage "auto") (Browser.new (mkWindow true false))))
    eq_refl eq_refl)).
Defined.

(** X5. [startRecording] seeds the baseline of [delta] mode with the
    trimmed value of the accessor when that is not blank, and otherwise
    keeps the text last reported, also from an earlier session; the first
    event of the session is compared against it. *)
Theorem startRecording_baseline (o : Options)
  (host : Host) (io : VoiceInput.StartIO) (h : State)
  (text : string) (isFinal : bool) :
  let session := exec (startRecording Accumulated o host io) h in
  let base := match seededBaseline o with
              | Some baseline => baseline
              | None => processedRef h
              end in
  processedRef session = base
  /\ (emitMode o = Some delta ->
      updates (onTranscription Accumulated o text isFinal session)
      = updates h
        ++ report (if startsWith text base
                   then slice text (String.length base) else text) isFinal).
Proof.
  intros session base.
  assert (Hbase : processedRef session = base).
  { subst session base. unfold exec. rewrite startRecording_unfold.
    destruct (startRecording_prepare_refs Accumulated o h) as (_ & Hp).
    unfold exec in *. set (p := snd (startRecording_prepare Accumulated o h)) in *.
    destruct (createVoiceInputService host (language p)) as [service|e].
    - destruct (fst (VoiceInput.startRecording io service)) as [[]|e].
      + destruct p; exact Hp.
      + destruct (startRecording_catch_frame e
          (set_voiceServiceRef (Some (snd (VoiceInput.startRecording io service))) p))
          as (_ & _ & Hr).
        unfold exec in Hr. rewrite Hr. destruct p; exact Hp.
    - destruct (startRecording_catch_frame e p) as (_ & _ & Hr).
      unfold exec in Hr. rewrite Hr. exact Hp. }
  split; [exact Hbase|]. intros Hmode.
  destruct (startRecording_resets Accumulated o host io h) as (Hlive & _ & _ & _ & Hup).
  fold session in Hlive, Hup. rewrite <- Hup, <- Hbase.
  unfold onTranscription, onTranscription_accumulated, emitModeOf, report.
  rewrite Hmode, Hlive. simpl.
  destruct isFinal; simpl;
    match goal with
    | |- context [truthy ?x] => destruct (truthy x)
    end; simpl; rewrite ?app_nil_r; reflexivity.
Qed.

Lemma startRecording_baseline_witness :
  let o := {| optLanguage := None; emitMode := Some delta;
              getBaselineText := Some "  Dear Sir, " |} in
  let session := exec (startRecording Accumulated o browserHost quietStart) (initial o) in
  processedRef session = "Dear Sir,"
  /\ updates (onTranscription Accumulated o "Dear Sir, hello" false session)
     = [(" hello", false)].
Proof.
  destruct (startRecording_baseline
    {| optLanguage := None; emitMode := Some delta; getBaselineText := Some "  Dear Sir, " |}
    browserHost quietStart
    (initial {| optLanguage := None; emitMode := Some delta;
                getBaselineText := Some "  Dear Sir, " |})
    "Dear Sir, hello" false) as (H1 & H2).
  split; [exact H1|exact (H2 eq_refl)].
Defined.

Lemma onTranscription_ref_indep (rev : Revision) (o : Options)
  (text : string) (isFinal : bool) (x : option VoiceInputService) (h : State) :
  onTranscription rev o text isFinal (set_voiceServiceRef x h)
  = set_voiceServiceRef x (onTranscription rev o text isFinal h).
Proof.
  destruct h. destruct rev; unfold onTranscription, onTranscription_accumulated,
    onTranscription_segmented, set_voiceServiceRef;
    cbn [isCancelledRef processedRef transcriptionHistoryRef];
    repeat match goal with
           | |- context [if ?c then _ else _] => destruct c
           end; reflexivity.
Qed.

Lemma deliver_ref_indep (rev : Revision) (o : Options)
  (events : list Segment) (x : option VoiceInputService) (h : State) :
  deliver rev o events (set_voiceServiceRef x h)
  = set_voiceServiceRef x (deliver rev o events h).
Proof.
  revert h. unfold deliver.
  induction events as [|e events IH]; intros h; [reflexivity|].
  simpl. rewrite onTranscription_ref_indep. apply IH.
Qed.

(** X6. The cleanup of the unmount effect stops and resets the backend
    but writes nothing else: the cancellation flag keeps its value, and
    the segment events the backend still fires are processed and reported
    exactly as they would have been without the cleanup. *)
Theorem cleanup_resets_but_does_not_cancel (rev : Revision) (o : Options)
  (h : State) (v : VoiceInputService) (events : list Segment) :
  voiceServiceRef h = Some v ->
  let h' := exec Lifecycle.cleanup h in
  (exists v', voiceServiceRef h' = Some v' /\ serviceIsReset v' = true)
  /\ isCancelledRef h' = isCancelledRef h
  /\ updates (deliver rev o events h') = updates (deliver rev o events h).
Proof.
  intros Hsvc h'.
  assert (Hh' : h' = set_voiceServiceRef
                       (Some (snd (VoiceInput.reset (snd (VoiceInput.stopRecording true v)))))
                       h).
  { subst h'. unfold Lifecycle.cleanup, exec.
    cbv beta iota delta [bind gets modify ret try_catch callService].
    rewrite Hsvc. destruct v as [s|s]; destruct s; destruct h; reflexivity. }
  rewrite Hh'. split; [|split].
  - eexists. split; [destruct h; reflexivity|].
    destruct v as [s|s]; destruct s; simpl; [reflexivity|].
    apply bool_decide_eq_true_2. reflexivity.
  - destruct h; reflexivity.
  - rewrite deliver_ref_indep. destruct (deliver rev o events h); reflexivity.
Qed.

Lemma cleanup_resets_but_does_not_cancel_witness :
  let o := optionsWith full in
  let h := exec (startRecording Accumulated o browserHost quietStart) (initial o) in
  let h' := exec Lifecycle.cleanup h in
  isCancelledRef h' = isCancelledRef h
  /\ updates (deliver Accumulated o [("late", true)] h')
     = updates (deliver Accumulated o [("late", true)] h).
Proof.
  exact (proj2 (cleanup_resets_but_does_not_cancel Accumulated (optionsWith full)
    (exec (startRecording Accumulated (optionsWith full) browserHost quietStart)
       (initial (optionsWith full)))
    (BrowserVoiceInputService
       (exec (Browser.startRecording (Normal tt) (Normal tt))
          (exec (Browser.setLanguage "auto") (Browser.new (mkWindow true false)))))
    [("late", true)] eq_refl)).
Defined.


(** ** What the emission modes report *)

Lemma joinTexts_app (xs ys : list string) :
  joinTexts (xs ++ ys) = joinTexts xs +:+ joinTexts ys.
Proof.
  unfold joinTexts. induction xs as [|x xs IH]; [reflexivity|].
  simpl. rewrite IH, append_assoc. reflexivity.
Qed.

Lemma joinTexts_report (text : string) (isFinal : bool) :
  joinTexts (map fst (report text isFinal)) = text.
Proof.
  unfold report. destruct (truthy text) eqn:E.
  - simpl. apply append_empty_r.
  - apply truthy_empty in E. subst. reflexivity.
Qed.

Lemma last_cons_default (t d : string) (l : list string) :
  List.last (t :: l) d = List.last l t.
Proof.
  revert t d. induction l as [|x l IH]; intros t d; [reflexivity|].
  change (List.last (x :: l) d = List.last (x :: l) t).
  rewrite (IH x d), (IH x t). reflexivity.
Qed.

Lemma onTranscription_delta_step (o : Options)
  (text : string) (isFinal : bool) (h : State) :
  emitMode o = Some delta ->
  isCancelledRef h = false ->
  let h' := onTranscription Accumulated o text isFinal h in
  isCancelledRef h' = false
  /\ processedRef h' = text
  /\ updates h' = updates h
       ++ report (if startsWith text (processedRef h)
                  then slice text (String.length (processedRef h)) else text) isFinal.
Proof.
  intros Hmode Hlive.
  unfold onTranscription, onTranscription_accumulated, emitModeOf, report.
  rewrite Hmode, Hlive. simpl.
  destruct isFinal; simpl;
    match goal with
    | |- context [truthy ?x] => destruct (truthy x)
    end; simpl; rewrite ?app_nil_r; repeat split; try reflexivity; exact Hlive.
Qed.

(** X7. In [delta] mode, when every text of a run extends the text
    before it (the first one extending the baseline), the deltas the hook
    reports, put one after the other behind the baseline, give the last
    text: nothing is repeated and nothing is lost. *)
Theorem delta_reports_telescope (o : Options) (events : list Segment) (h : State) :
  emitMode o = Some delta ->
  isCancelledRef h = false ->
  extendsChain (processedRef h) (map fst events) = true ->
  let h' := deliver Accumulated o events h in
  processedRef h
    +:+ joinTexts (map fst (reportedSince (length (updates h)) h'))
  = processedRef h'
  /\ processedRef h' = List.last (map fst events) (processedRef h).
Proof.
  intros Hmode Hlive Hchain h'.
  assert (Hgen : exists added,
    updates h' = updates h ++ added
    /\ processedRef h +:+ joinTexts (map fst added) = processedRef h'
    /\ processedRef h' = List.last (map fst events) (processedRef h)).
  { subst h'. revert h Hlive Hchain. unfold deliver.
    induction events as [|[t f] events IH]; intros h Hlive Hchain.
    - exists []. simpl. rewrite app_nil_r, append_empty_r. auto.
    - simpl in Hchain. apply andb_prop in Hchain as [Hext Hchain].
      destruct (onTranscription_delta_step o t f h Hmode Hlive) as (Hl & Hp & Hu).
      rewrite Hext in Hu.
      destruct (startsWith_inv _ _ Hext) as [d Hd].
      cbn [fold_left map fst snd]. set (h1 := onTranscription Accumulated o t f h) in *.
      destruct (IH h1 Hl) as (added & Hadd & Hjoin & Hlast).
      { rewrite Hp. exact Hchain. }
      exists (report (slice t (String.length (processedRef h))) f ++ added).
      rewrite Hadd, Hu, <- app_assoc. split; [reflexivity|].
      rewrite map_app, joinTexts_app, joinTexts_report.
      split.
      + rewrite <- Hjoin, Hp, <- append_assoc. f_equal.
        rewrite Hd at 2. rewrite Hd, slice_app. reflexivity.
      + rewrite Hlast, Hp. symmetry. apply last_cons_default. }
  destruct Hgen as (added & Hadd & Hjoin & Hlast).
  unfold reportedSince. rewrite Hadd, drop_app_length. auto.
Qed.

Lemma delta_reports_telescope_witness :
  let h := initial deltaOptions in
  let events := [("hel", false); ("hello", false); ("hello", true); ("hello world", true)] in
  let h' := deliver Accumulated deltaOptions events h in
  extendsChain (processedRef h) (map fst events) = true
  /\ processedRef h +:+ joinTexts (map fst (reportedSince (length (updates h)) h'))
     = processedRef h'.
Proof.
  split; [reflexivity|].
  exact (proj1 (delta_reports_telescope deltaOptions
    [("hel", false); ("hello", false); ("hello", true); ("hello world", true)]
    (initial deltaOptions) eq_refl eq_refl eq_refl)).
Defined.

Example delta_scenario :
  map fst (updates (deliver Accumulated deltaOptions
    [("hel", false); ("hello", false); ("hello", true); ("hello world", true)]
    (initial deltaOptions)))
  = ["hel"; "lo"; " world"].
Proof. reflexivity. Qed.

(** The texts the hook shows after an event, in every emission mode. *)
Lemma onTranscription_observables (rev : Revision) (o : Options)
  (text : string) (isFinal : bool) (h : State) :
  let h' := onTranscription rev o text isFinal h in
  isCancelledRef h' = isCancelledRef h
  /\ transcription h'
     = (if isCancelledRef h then transcription h
        else if isFinal then newTextOf rev text h else transcription h)
  /\ interimTranscription h'
     = (if isCancelledRef h then interimTranscription h
        else if isFinal then "" else text)
  /\ transcriptionHistoryRef h'
     = (if isCancelledRef h then transcriptionHistoryRef h
        else match rev with
             | Accumulated => transcriptionHistoryRef h
             | Segmented => if isFinal then newTextOf rev text h
                            else transcriptionHistoryRef h
             end).
Proof.
  cbv zeta.
  destruct rev; unfold onTranscription, onTranscription_accumulated,
    onTranscription_segmented, newTextOf;
    destruct (isCancelledRef h) eqn:Hc; try (rewrite Hc; auto);
    destruct isFinal;
    repeat match goal with
           | |- context [if ?c then _ else _] => destruct c
           end; cbn; rewrite ?Hc; repeat split; reflexivity.
Qed.

(** X8. The emission mode decides what is reported, not what the hook
    shows: after any run of events the final text, the interim text and
    the history are the same under any two sets of options. *)
Theorem emission_mode_leaves_texts_alone (rev : Revision) (o1 o2 : Options)
  (events : list Segment) (h : State) :
  let a := deliver rev o1 events h in
  let b := deliver rev o2 events h in
  transcription a = transcription b
  /\ interimTranscription a = interimTranscription b
  /\ transcriptionHistoryRef a = transcriptionHistoryRef b.
Proof.
  assert (Hgen : forall h1 h2,
    isCancelledRef h1 = isCancelledRef h2 ->
    transcription h1 = transcription h2 ->
    interimTranscription h1 = interimTranscription h2 ->
    transcriptionHistoryRef h1 = transcriptionHistoryRef h2 ->
    transcription (deliver rev o1 events h1) = transcription (deliver rev o2 events h2)
    /\ interimTranscription (deliver rev o1 events h1)
       = interimTranscription (deliver rev o2 events h2)
    /\ transcriptionHistoryRef (deliver rev o1 events h1)
       = transcriptionHistoryRef (deliver rev o2 events h2)).
  { unfold deliver. induction events as [|[t f] events IH];
      intros h1 h2 Hc Ht Hi Hh; [auto|].
    cbn [fold_left fst snd].
    destruct (onTranscription_observables rev o1 t f h1) as (Hc1 & Ht1 & Hi1 & Hh1).
    destruct (onTranscription_observables rev o2 t f h2) as (Hc2 & Ht2 & Hi2 & Hh2).
    assert (Hnew : newTextOf rev t h1 = newTextOf rev t h2)
      by (unfold newTextOf; rewrite Hh; reflexivity).
    apply IH.
    - congruence.
    - rewrite Ht1, Ht2, Hc, Ht, Hnew. reflexivity.
    - rewrite Hi1, Hi2, Hc, Hi. reflexivity.
    - rewrite Hh1, Hh2, Hc, Hh, Hnew. reflexivity. }
  intros a b. subst a b. apply Hgen; reflexivity.
Qed.

(** X9. In [segment] mode of [src/unnamed/part_001] the texts reported
    with [isFinal] set since the start of a session, put one after the
    other, are the final text the hook holds, which is the join of the
    finalized segments: a consumer that concatenates what it is given
    rebuilds the transcript. *)
Theorem segment_reports_rebuild_transcript (o : Options)
  (host : Host) (io : VoiceInput.StartIO) (h0 : State) (events : list Segment) :
  emitMode o = Some segment ->
  let session := exec (startRecording Segmented o host io) h0 in
  let h' := deliver Segmented o events session in
  let finals := List.filter (fun e : Segment => snd e)
                  (reportedSince (length (updates session)) h') in
  joinTexts (map fst finals) = transcription h'
  /\ transcription h' = joinSegments (finalized events).
Proof.
  intros Hmode session h' finals.
  destruct (startRecording_resets Segmented o host io h0) as (Hlive & Ht0 & _ & Hh0 & _).
  fold session in Hlive, Ht0, Hh0. specialize (Hh0 eq_refl).
  assert (Hgen : forall evs h,
    isCancelledRef h = false ->
    transcription h = transcriptionHistoryRef h ->
    exists added,
      updates (deliver Segmented o evs h) = updates h ++ added
      /\ transcriptionHistoryRef h
           +:+ joinTexts (map fst (List.filter (fun e : Segment => snd e) added))
         = transcription (deliver Segmented o evs h)
      /\ transcription (deliver Segmented o evs h)
         = fold_left (fun acc t : string => acc +:+ separatorFor acc t +:+ t)
             (finalized evs) (transcriptionHistoryRef h)).
  { unfold deliver, finalized.
    induction evs as [|[t f] evs IH]; intros h Hl Hth.
    - exists []. cbn. rewrite app_nil_r, append_empty_r. auto.
    - cbn [fold_left fst snd].
      destruct (onTranscription_observables Segmented o t f h) as (Hc1 & Ht1 & _ & Hh1).
      rewrite Hl in Hc1, Ht1, Hh1.
      assert (Hu : updates (onTranscription Segmented o t f h)
                   = updates h
                     ++ [(separatorFor (transcriptionHistoryRef h) t +:+ t, f)]).
      { unfold onTranscription, onTranscription_segmented, emitModeOf.
        rewrite Hmode, Hl. destruct f; reflexivity. }
      set (h1 := onTranscription Segmented o t f h) in *.
      destruct (IH h1) as (added & Hadd & Hjoin & Hfold).
      { exact Hc1. }
      { rewrite Ht1, Hh1. destruct f; [reflexivity|exact Hth]. }
      exists ((separatorFor (transcriptionHistoryRef h) t +:+ t, f) :: added).
      split; [rewrite Hadd, Hu, <- app_assoc; reflexivity|].
      split.
      + rewrite <- Hjoin, Hh1. unfold newTextOf.
        destruct f; cbn [List.filter map fst snd]; [|reflexivity].
        change (joinTexts (?x :: ?l)) with (x +:+ joinTexts l).
        rewrite !append_assoc. reflexivity.
      + rewrite Hfold, Hh1. unfold newTextOf.
        destruct f; reflexivity. }
  destruct (Hgen events session Hlive) as (added & Hadd & Hjoin & Hfold).
  { rewrite Ht0, Hh0. reflexivity. }
  fold h' in Hadd, Hjoin, Hfold.
  subst finals. unfold reportedSince. rewrite Hadd, drop_app_length.
  rewrite Hh0 in Hjoin, Hfold. split; [exact Hjoin|exact Hfold].
Qed.

Lemma segment_reports_rebuild_transcript_witness :
  let o := optionsWith segment in
  let session := exec (startRecording Segmented o browserHost quietStart) (initial o) in
  let h' := deliver Segmented o
              [("hel", false); ("hello", true); ("wor", false); ("world", true)] session in
  joinTexts (map fst (List.filter (fun e : Segment => snd e)
                        (reportedSince (length (updates session)) h')))
  = transcription h'.
Proof.
  exact (proj1 (segment_reports_rebuild_transcript (optionsWith segment) browserHost
    quietStart (initial (optionsWith segment))
    [("hel", false); ("hello", true); ("wor", false); ("world", true)] eq_refl)).
Defined.

Example segment_scenario :
  let o := optionsWith segment in
  let session := exec (startRecording Segmented o browserHost quietStart) (initial o) in
  let h' := deliver Segmented o
              [("hel", false); ("hello", true); ("wor", false); ("world", true)] session in
  updates h' = [("hel", false); ("hello", true); (" wor", false); (" world", true)]
  /\ transcription h' = "hello world".
Proof. split; reflexivity. Qed.

(** ** The on-device recognizer across restarts *)

Lemma finalizedTranscript_from (events : list Browser.SpeechRecognitionEvent)
  (acc : string) :
  fold_left
    (fun (acc : string) (e : Browser.SpeechRecognitionEvent) =>
       acc +:+ snd (Browser.splitResults e))
    events acc
  = acc +:+ finalizedTranscript events.
Proof.
  unfold finalizedTranscript. revert acc.
  induction events as [|e events IH]; intros acc; cbn [fold_left].
  - rewrite append_empty_r. reflexivity.
  - rewrite IH, (IH ("" +:+ _)), append_assoc. reflexivity.
Qed.

(** Only [reset()] and a [result] event write [fullTranscript]. *)
Lemma handle_fullTranscript (e : Browser.Event) (s : Browser.Service) :
  Browser.fullTranscript (exec (Browser.handle e) s)
  = match e with
    | Browser.Result ev => Browser.fullTranscript s +:+ snd (Browser.splitResults ev)
    | Browser.Reset => ""
    | _ => Browser.fullTranscript s
    end.
Proof.
  destruct e as [event|error| |started|cancelled|];
    [exact (proj1 (onresult_spec event s))| | | | |];
    destruct s as [w r rec full count lang pend att fresh em];
    run_handler; cbn [fst snd];
    cbn [Browser.isCurrentlyRecording Browser.restartCount Browser.pendingRestarts
         Browser.recognition Browser.window];
    [ split_ifs | split_ifs
    | destruct pend as [|pend]; run_handler;
      [|split_ifs; try destruct started; run_handler]
    | idtac | idtac ];
    reflexivity.
Qed.

Lemma run_fullTranscript (events : list Browser.Event) (s : Browser.Service) :
  noReset events = true ->
  Browser.fullTranscript (Browser.run events s)
  = Browser.fullTranscript s +:+ finalizedTranscript (resultsOf events).
Proof.
  revert s. unfold Browser.run.
  induction events as [|e events IH]; intros s Hno.
  - cbn. rewrite append_empty_r. reflexivity.
  - cbn [fold_left]. cbn [noReset forallb] in Hno.
    apply andb_prop in Hno. destruct Hno as [He Hno].
    rewrite (IH _ Hno), handle_fullTranscript.
    destruct e as [event|error| |started|cancelled|]; try discriminate He;
      cbn [resultsOf flat_map app]; try reflexivity.
    unfold finalizedTranscript at 2. cbn [fold_left].
    rewrite finalizedTranscript_from, !append_assoc. reflexivity.
Qed.

(** X10. The text [stopRecording] of the on-device recognizer returns is
    the finalized transcripts of all [result] events since
    [startRecording], in order: recognizer errors, ends, restart timers
    and fresh recognizer objects in between lose nothing, and what an
    earlier session left in the object is not part of it. *)
Theorem transcript_survives_restarts (s0 : Browser.Service)
  (media started : Completion unit) (events : list Browser.Event)
  (cancelled : bool) :
  Browser.recognition s0 = true ->
  noReset events = true ->
  let s' := Browser.run events (exec (Browser.startRecording media started) s0) in
  completion (Browser.stopRecording cancelled) s'
  = Normal (finalizedTranscript (resultsOf events)).
Proof.
  intros Hrec Hno s'.
  assert (Hret : completion (Browser.stopRecording cancelled) s'
                 = Normal (Browser.fullTranscript s'))
    by (destruct s'; reflexivity).
  rewrite Hret. subst s'. rewrite (run_fullTranscript _ _ Hno).
  assert (Hempty : Browser.fullTranscript
                     (exec (Browser.startRecording media started) s0) = "").
  { unfold exec, Browser.startRecording.
    cbv beta iota delta [bind gets modify lift try_catch throw ret].
    rewrite Hrec. cbn [negb]. destruct media; destruct started; reflexivity. }
  rewrite Hempty. reflexivity.
Qed.

Lemma transcript_survives_restarts_witness :
  let events :=
    [ Browser.Result (Browser.mkEvent 0 [("good ", true)]);
      Browser.Failure "no-speech";
      Browser.Timeout (Normal tt);
      Browser.Result (Browser.mkEvent 0 [("mor", false)]);
      Browser.Ended;
      Browser.Timeout (Throw (newError "busy"));
      Browser.Result (Browser.mkEvent 1 [("good ", true); ("morning", true)]) ] in
  completion (Browser.stopRecording false)
    (Browser.run events
       (exec (Browser.startRecording (Normal tt) (Normal tt))
          (Browser.new (mkWindow true false))))
  = Normal (finalizedTranscript (resultsOf events)).
Proof.
  exact (transcript_survives_restarts (Browser.new (mkWindow true false))
           (Normal tt) (Normal tt)
           [ Browser.Result (Browser.mkEvent 0 [("good ", true)]);
             Browser.Failure "no-speech";
             Browser.Timeout (Normal tt);
             Browser.Result (Browser.mkEvent 0 [("mor", false)]);
             Browser.Ended;
             Browser.Timeout (Throw (newError "busy"));
             Browser.Result (Browser.mkEvent 1 [("good ", true); ("morning", true)]) ]
           false eq_refl eq_refl).
Defined.

Example restarts_scenario :
  finalizedTranscript
    (resultsOf
       [ Browser.Result (Browser.mkEvent 0 [("good ", true)]);
         Browser.Failure "no-speech";
         Browser.Result (Browser.mkEvent 1 [("good ", true); ("morning", true)]) ])
  = "good morning".
Proof. reflexivity. Qed.

(** A recognizer that is not recording stays so under every event. *)
Lemma handle_idle (e : Browser.Event) (s : Browser.Service) :
  Browser.isCurrentlyRecording s = false ->
  Browser.isCurrentlyRecording (exec (Browser.handle e) s) = false
  /\ Browser.freshRecognitions (exec (Browser.handle e) s) = Browser.freshRecognitions s
  /\ Browser.restartAttempts (exec (Browser.handle e) s) = Browser.restartAttempts s.
Proof.
  intros Hidle. destruct s as [w r rec full count lang pend att fresh em].
  cbn in Hidle. subst rec.
  destruct e as [event|error| |started|cancelled|]; run_handler; cbn [fst snd];
    cbn [Browser.isCurrentlyRecording Browser.restartCount Browser.pendingRestarts
         Browser.recognition Browser.window andb];
    [ split_ifs | split_ifs | split_ifs
    | destruct pend as [|pend]; run_handler | idtac | idtac ];
    cbn; repeat split; reflexivity.
Qed.

(** X11. Once the on-device recognizer is not recording (after
    [stopRecording], after [reset], or before the first start), no event
    brings it back: restart timers that were still pending fire without
    building a recognizer, and errors and ends of the old recognizer set
    no new timer. *)
Theorem stopped_recognizer_stays_stopped (events : list Browser.Event)
  (s : Browser.Service) :
  Browser.isRecording s = false ->
  let s' := Browser.run events s in
  Browser.isRecording s' = false
  /\ Browser.freshRecognitions s' = Browser.freshRecognitions s
  /\ Browser.restartAttempts s' = Browser.restartAttempts s.
Proof.
  unfold Browser.isRecording, Browser.run. revert s.
  induction events as [|e events IH]; intros s Hidle; cbn [fold_left].
  - auto.
  - destruct (handle_idle e s Hidle) as (Hi & Hf & Ha).
    destruct (IH _ Hi) as (Hi' & Hf' & Ha').
    cbv zeta. rewrite Hi', Hf', Ha', Hf, Ha. auto.
Qed.

Lemma stopped_recognizer_stays_stopped_witness :
  let recording :=
    Browser.run [Browser.Ended; Browser.Failure "network"]
      (exec (Browser.startRecording (Normal tt) (Normal tt))
         (Browser.new (mkWindow true false))) in
  let stopped := exec (Browser.stopRecording false) recording in
  let s' := Browser.run
              [Browser.Timeout (Normal tt); Browser.Ended; Browser.Timeout (Normal tt);
               Browser.Failure "no-speech"] stopped in
  Browser.pendingRestarts stopped = 2
  /\ Browser.isRecording s' = false
  /\ Browser.freshRecognitions s' = Browser.freshRecognitions stopped
  /\ Browser.restartAttempts s' = Browser.restartAttempts stopped.
Proof.
  split; [reflexivity|].
  exact (stopped_recognizer_stays_stopped
           [Browser.Timeout (Normal tt); Browser.Ended; Browser.Timeout (Normal tt);
            Browser.Failure "no-speech"]
           (exec (Browser.stopRecording false)
              (Browser.run [Browser.Ended; Browser.Failure "network"]
                 (exec (Browser.startRecording (Normal tt) (Normal tt))
                    (Browser.new (mkWindow true false)))))
           eq_refl).
Defined.

(** ** A session of the cloud recognizer, end to end *)

Lemma tryOpenAITranscription_fresh (blob : Blob) (net : FetchResult)
  (s : OpenAI.Service) :
  OpenAI.processedTranscriptions s = ∅ ->
  OpenAI.onTranscriptionCallback s = true ->
  let s' := exec (OpenAI.tryOpenAITranscription blob net) s in
  OpenAI.emitted s'
  = OpenAI.emitted s
    ++ match transcriptIn net with Some t => [(t, false)] | None => [] end
  /\ OpenAI.finalTranscription s'
     = match transcriptIn net with
       | Some t => t
       | None => OpenAI.finalTranscription s
       end
  /\ OpenAI.chunkCounter s' = OpenAI.chunkCounter s.
Proof.
  intros Hproc Hcb. destruct s. cbn in Hproc, Hcb. subst.
  unfold transcriptIn. run_cloud.
  destruct net as [r|e]; cbn [fst snd];
    [|cbn; rewrite app_nil_r; auto].
  destruct (ok r); cbn [negb andb]; [|cbn; rewrite app_nil_r; auto].
  destruct (truthy (trim (body r))) eqn:Ht;
    [|rewrite andb_false_r; cbn; rewrite app_nil_r; auto].
  assert (Hb : truthy (body r) = true) by (destruct (body r); [discriminate Ht|reflexivity]).
  rewrite Hb. cbn [andb fst snd OpenAI.processedTranscriptions].
  destruct (decide (body r ∈ (∅ : gset string))) as [Hin|_];
    [exfalso; exact (not_elem_of_empty _ Hin)|].
  cbn. auto.
Qed.

(** After the first chunk of a session a chunk only moves the counter. *)
Lemma transcribeAudio_later (blob : Blob) (net : FetchResult) (s : OpenAI.Service) :
  0 < OpenAI.chunkCounter s ->
  exec (OpenAI.transcribeAudio blob net) s
  = OpenAI.set_chunkCounter (S (OpenAI.chunkCounter s)) s.
Proof.
  intros Hpos. unfold exec. rewrite transcribeAudio_unfold.
  destruct (OpenAI.chunkCounter s) as [|n] eqn:Hn; [lia|].
  rewrite andb_false_r. reflexivity.
Qed.

Lemma feed_later (chunks : list OpenAI.Chunk) (s : OpenAI.Service) :
  0 < OpenAI.chunkCounter s ->
  let s' := OpenAI.feed OpenAI.transcribeAudio chunks s in
  OpenAI.emitted s' = OpenAI.emitted s
  /\ OpenAI.finalTranscription s' = OpenAI.finalTranscription s.
Proof.
  revert s. unfold OpenAI.feed.
  induction chunks as [|[blob net] chunks IH]; intros s Hpos; [auto|].
  cbn [fold_left fst snd]. rewrite (transcribeAudio_later _ _ _ Hpos).
  destruct (IH (OpenAI.set_chunkCounter (S (OpenAI.chunkCounter s)) s)) as (He & Hf).
  { destruct s; cbn; lia. }
  cbv zeta. rewrite He, Hf. destruct s; auto.
Qed.

(** The callback log and [finalTranscription] after a session's chunks. *)
Lemma cloud_session_spec (s0 : OpenAI.Service) (media : Completion unit)
  (chunks : list OpenAI.Chunk) :
  let session := exec (OpenAI.startRecording media) s0 in
  let s' := OpenAI.feed OpenAI.ondataavailable chunks session in
  OpenAI.emitted session = OpenAI.emitted s0
  /\ OpenAI.emitted s'
     = OpenAI.emitted s0
       ++ match cloudTranscript chunks with Some t => [(t, false)] | None => [] end
  /\ OpenAI.finalTranscription s'
     = match cloudTranscript chunks with Some t => t | None => "" end
  /\ match cloudTranscript chunks with Some t => truthy t = true | None => True end.
Proof.
  intros session s'.
  assert (Hsession : OpenAI.chunkCounter session = 0
                     /\ OpenAI.processedTranscriptions session = ∅
                     /\ OpenAI.onTranscriptionCallback session = true
                     /\ OpenAI.finalTranscription session = ""
                     /\ OpenAI.emitted session = OpenAI.emitted s0).
  { subst session. destruct s0. run_cloud. destruct media; cbn; auto. }
  destruct Hsession as (Hzero & Hproc & Hcb & Hfin & Hem).
  split; [exact Hem|].
  subst s'. rewrite feed_ondataavailable, sendAudioChunk_is_transcribeAudio.
  unfold cloudTranscript.
  destruct (List.filter carriesData chunks) as [|[blob net] rest].
  - cbn. rewrite Hem, Hfin, app_nil_r. auto.
  - change (OpenAI.feed OpenAI.transcribeAudio ((blob, net) :: rest) session)
      with (OpenAI.feed OpenAI.transcribeAudio rest
              (exec (OpenAI.transcribeAudio blob net) session)).
    set (first := exec (OpenAI.transcribeAudio blob net) session).
    assert (Hfirst : OpenAI.chunkCounter first = 1
              /\ OpenAI.emitted first
                 = OpenAI.emitted s0
                   ++ match (if passesValidation blob then transcriptIn net else None) with
                      | Some t => [(t, false)]
                      | None => []
                      end
              /\ OpenAI.finalTranscription first
                 = match (if passesValidation blob then transcriptIn net else None) with
                   | Some t => t
                   | None => ""
                   end).
    { subst first. unfold exec. rewrite transcribeAudio_unfold, Hzero.
      cbn [Nat.eqb]. rewrite andb_true_r.
      destruct (passesValidation blob); cbn [snd].
      - destruct (tryOpenAITranscription_fresh blob net
                    (OpenAI.set_chunkCounter 1 session)) as (He & Hf & Hc).
        { destruct session; exact Hproc. }
        { destruct session; exact Hcb. }
        rewrite He, Hf, Hc.
        replace (OpenAI.emitted (OpenAI.set_chunkCounter 1 session))
          with (OpenAI.emitted s0) by (rewrite <- Hem; destruct session; reflexivity).
        replace (OpenAI.finalTranscription (OpenAI.set_chunkCounter 1 session))
          with "" by (rewrite <- Hfin; destruct session; reflexivity).
        split; [destruct session; reflexivity|]. auto.
      - rewrite <- Hem, <- Hfin, app_nil_r. destruct session; auto. }
    destruct Hfirst as (Hone & He & Hf).
    destruct (feed_later rest first) as (He' & Hf'); [lia|].
    rewrite He', Hf', He, Hf. cbn [fst snd].
    split; [reflexivity|]. split; [reflexivity|].
    destruct (passesValidation blob); [|exact I].
    unfold transcriptIn. destruct net as [r|e]; [|exact I].
    destruct (ok r); [|exact I].
    cbn [andb]. destruct (truthy (trim (body r))) eqn:Ht; [|exact I].
    destruct (body r); [discriminate Ht|reflexivity].
Qed.

(** X12. What a session of the cloud recognizer yields, end to end: the
    callback is called at most once, never with [isFinal] set, with the
    body of the response to the first chunk that carries data (when
    that chunk passes the size and MIME tests and the response is a
    success that is not blank); [stopRecording], called once the chunks
    and the response have been handled, returns that same text, and
    ['Voice input completed'] when there was none. *)
Theorem cloud_session_transcript (s0 : OpenAI.Service) (media : Completion unit)
  (chunks : list OpenAI.Chunk) (cancelled : bool) :
  let session := exec (OpenAI.startRecording media) s0 in
  let s' := OpenAI.feed OpenAI.ondataavailable chunks session in
  OpenAI.emitted s'
  = OpenAI.emitted s0
    ++ match cloudTranscript chunks with Some t => [(t, false)] | None => [] end
  /\ completion (OpenAI.stopRecording cancelled) s'
     = Normal match cloudTranscript chunks with
              | Some t => t
              | None => "Voice input completed"
              end.
Proof.
  intros session s'.
  destruct (cloud_session_spec s0 media chunks) as (_ & Hem & Hfin & Htruthy).
  fold session in Hem, Hfin. fold s' in Hem, Hfin.
  split; [exact Hem|].
  assert (Hstop : completion (OpenAI.stopRecording cancelled) s'
                  = Normal (if truthy (OpenAI.finalTranscription s')
                            then OpenAI.finalTranscription s'
                            else "Voice input completed"))
    by (destruct s'; reflexivity).
  rewrite Hstop, Hfin.
  destruct (cloudTranscript chunks) as [t|]; [rewrite Htruthy|]; reflexivity.
Qed.

Example cloud_session_scenario :
  let net := transcriptOf "hello there" in
  cloudTranscript
    [ ({| data := []; type := "audio/webm" |}, net);
      (unsignedChunk, net);
      (unsignedChunk, transcriptOf "more") ]
  = Some "hello there".
Proof. reflexivity. Qed.

Lemma report_interim_only (shown : string) :
  List.filter (fun e : Segment => snd e) (report shown false) = [].
Proof. unfold report. destruct (truthy shown); reflexivity. Qed.

(** An interim event leaves the final text alone and reports no final. *)
Lemma onTranscription_interim (rev : Revision) (o : Options) (text : string)
  (h : State) :
  isCancelledRef h = false ->
  let h' := onTranscription rev o text false h in
  transcription h' = transcription h
  /\ interimTranscription h' = text
  /\ exists added,
       updates h' = updates h ++ added
       /\ List.filter (fun e : Segment => snd e) added = [].
Proof.
  intros Hlive h'.
  destruct (onTranscription_observables rev o text false h) as (_ & Ht & Hi & _).
  rewrite Hlive in Ht, Hi. split; [exact Ht|]. split; [exact Hi|].
  destruct (onTranscription_updates rev o text false h)
    as (added & Hadd & [-> | [[shown ->] | (_ & _ & ->)]]);
    eexists; (split; [exact Hadd|]); [reflexivity|apply report_interim_only|reflexivity].
Qed.

(** The backend object a start of the hook leaves in [voiceServiceRef]
    when the host has no recognizer and a credential. *)
Lemma startRecording_cloud_ref (rev : Revision) (o : Options) (w : Window)
  (key : string) (io : VoiceInput.StartIO) (h0 : State) :
  webkitSpeechRecognition w || SpeechRecognition w = false ->
  truthy key = true ->
  exists s0,
    voiceServiceRef (exec (startRecording rev o (mkHost w (Some key)) io) h0)
    = Some (OpenAIVoiceInputService (exec (OpenAI.startRecording (VoiceInput.media io)) s0)).
Proof.
  intros Hw Hkey. unfold exec at 1. rewrite startRecording_unfold.
  set (h1 := exec (startRecording_prepare rev o) h0).
  unfold createVoiceInputService. cbn [hostWindow VITE_OPENAI_API_KEY].
  rewrite Hw, Hkey.
  set (service := exec (OpenAI.setLanguage (language h1)) (OpenAI.new key)).
  exists service.
  change (VoiceInput.startRecording io (OpenAIVoiceInputService service))
    with (fst (OpenAI.startRecording (VoiceInput.media io) service),
          OpenAIVoiceInputService (snd (OpenAI.startRecording (VoiceInput.media io) service))).
  cbn [fst snd].
  destruct (fst (OpenAI.startRecording (VoiceInput.media io) service)) as [[]|e].
  - reflexivity.
  - match goal with
    | |- voiceServiceRef (snd (startRecording_catch e ?l)) = _ =>
        destruct (startRecording_catch_spec e l) as (_ & _ & _ & _ & _ & _ & Href)
    end.
    unfold exec in Href. rewrite Href. reflexivity.
Qed.

(** X13. With the cloud backend a session never produces a final text:
    whatever chunks the recorder emits, in either copy of the hook and
    in every emission mode [transcription] stays empty, the transcript
    (if any) is only in [interimTranscription], no update is reported
    with [isFinal] set, and so the first [TextareaWithVoice], which
    writes on final updates only, never calls [onChange]. *)
Theorem cloud_session_never_finalizes (rev : Revision) (o : Options)
  (w : Window) (key : string) (io : VoiceInput.StartIO) (h0 : State)
  (chunks : list OpenAI.Chunk) (value : string) :
  webkitSpeechRecognition w || SpeechRecognition w = false ->
  truthy key = true ->
  let session := exec (startRecording rev o (mkHost w (Some key)) io) h0 in
  exists s,
    voiceServiceRef session = Some (OpenAIVoiceInputService s)
    /\ let s' := OpenAI.feed OpenAI.ondataavailable chunks s in
       let events := drop (length (OpenAI.emitted s)) (OpenAI.emitted s') in
       let h' := deliver rev o events session in
       let reported := reportedSince (length (updates session)) h' in
       transcription h' = ""
       /\ interimTranscription h'
          = match cloudTranscript chunks with Some t => t | None => "" end
       /\ List.filter (fun e : Segment => snd e) reported = []
       /\ Forall (fun e : Segment =>
                    ShellBasic.onTranscriptionUpdate value (fst e) (snd e) = None)
            reported.
Proof.
  intros Hw Hkey session.
  destruct (startRecording_cloud_ref rev o w key io h0 Hw Hkey) as (s0 & Href).
  fold session in Href.
  exists (exec (OpenAI.startRecording (VoiceInput.media io)) s0).
  split; [exact Href|].
  destruct (cloud_session_spec s0 (VoiceInput.media io) chunks) as (Hem0 & Hem & _).
  cbv zeta. rewrite Hem, Hem0, drop_app_length.
  destruct (startRecording_resets rev o (mkHost w (Some key)) io h0)
    as (Hlive & Ht0 & Hi0 & _).
  fold session in Hlive, Ht0, Hi0.
  assert (Hfinals : forall reported : list Segment,
            List.filter (fun e : Segment => snd e) reported = [] ->
            Forall (fun e : Segment =>
                      ShellBasic.onTranscriptionUpdate value (fst e) (snd e) = None)
              reported).
  { induction reported as [|[t f] reported IH]; intros Hnone; [constructor|].
    cbn [List.filter snd] in Hnone. destruct f; [discriminate Hnone|].
    constructor; [reflexivity|exact (IH Hnone)]. }
  unfold reportedSince, deliver.
  destruct (cloudTranscript chunks) as [t|]; cbn [fold_left fst snd].
  - destruct (onTranscription_interim rev o t session Hlive)
      as (Ht & Hi & added & Hadd & Hnone).
    rewrite Ht, Hi, Hadd, drop_app_length, Ht0.
    split; [reflexivity|]. split; [reflexivity|]. split; [exact Hnone|].
    exact (Hfinals _ Hnone).
  - rewrite Ht0, Hi0, drop_all. repeat split; constructor.
Qed.

Lemma cloud_session_never_finalizes_witness :
  let session := exec (startRecording Accumulated (optionsWith full)
                         (mkHost (mkWindow false false) (Some "sk-test")) quietStart)
                   (initial (optionsWith full)) in
  exists s,
    voiceServiceRef session = Some (OpenAIVoiceInputService s)
    /\ let s' := OpenAI.feed OpenAI.ondataavailable
                   [(unsignedChunk, transcriptOf "hello there")] s in
       let events := drop (length (OpenAI.emitted s)) (OpenAI.emitted s') in
       let h' := deliver Accumulated (optionsWith full) events session in
       let reported := reportedSince (length (updates session)) h' in
       transcription h' = ""
       /\ interimTranscription h'
          = match cloudTranscript [(unsignedChunk, transcriptOf "hello there")] with
            | Some t => t
            | None => ""
            end
       /\ List.filter (fun e : Segment => snd e) reported = []
       /\ Forall (fun e : Segment =>
                    ShellBasic.onTranscriptionUpdate "draft" (fst e) (snd e) = None)
            reported.
Proof.
  exact (cloud_session_never_finalizes Accumulated (optionsWith full)
           (mkWindow false false) "sk-test" quietStart (initial (optionsWith full))
           [(unsignedChunk, transcriptOf "hello there")] "draft" eq_refl eq_refl).
Defined.

(** ** A start of the on-device backend that fails *)

(** With a recognizer, [startRecording] completes as [recognition.start()]
    does, whatever the microphone set-up did, and has by then cleared the
    transcript and the restart counter and raised the recording flag. *)
Lemma on_device_start (media started : Completion unit) (s : Browser.Service) :
  Browser.recognition s = true ->
  Browser.startRecording media started s
  = (started,
     Browser.set_restartCount 0
       (Browser.set_isCurrentlyRecording true (Browser.set_fullTranscript "" s))).
Proof.
  intros Hrec. unfold Browser.startRecording.
  cbv beta iota delta [bind gets modify lift try_catch throw ret].
  rewrite Hrec. cbn [negb].
  destruct media as [[]|e0]; destruct started as [[]|e1]; reflexivity.
Qed.

Lemma created_on_device (w : Window) (key : option string) (lang : string) :
  webkitSpeechRecognition w || SpeechRecognition w = true ->
  exists s,
    createVoiceInputService (mkHost w key) lang = Normal (BrowserVoiceInputService s)
    /\ Browser.recognition s = true.
Proof.
  intros Hw. unfold createVoiceInputService. cbn [hostWindow]. rewrite Hw.
  eexists. split; [reflexivity|].
  unfold Browser.new, Browser.initializeRecognition, Browser.setLanguage.
  cbv beta iota delta [exec bind gets modify ret].
  cbn [Browser.window fst snd].
  destruct (webkitSpeechRecognition w); [reflexivity|].
  cbn in Hw. rewrite Hw. reflexivity.
Qed.

(** X14. When [recognition.start()] of the on-device backend throws, the
    hook reports the failure once and is not recording, but the backend
    object it keeps in [voiceServiceRef] has its recording flag raised
    and its full restart budget: an [end] event of the recognizer sets a
    restart timer, and the hook's own [stopRecording] returns at its
    first line without touching the object. *)
Theorem failed_start_leaves_backend_recording (rev : Revision) (o : Options)
  (w : Window) (key : option string) (m : Completion unit) (e : Error) (h0 : State) :
  webkitSpeechRecognition w || SpeechRecognition w = true ->
  isRecording h0 = false ->
  let io := VoiceInput.mkStartIO m (Throw e) in
  let h' := exec (startRecording rev o (mkHost w key) io) h0 in
  isRecording h' = false
  /\ errors h'
     = errors h0 ++ [if isPermissionError e then "Microphone permission denied"
                     else "Failed to start recording"]
  /\ (exists s,
        voiceServiceRef h' = Some (BrowserVoiceInputService s)
        /\ Browser.isRecording s = true
        /\ budget s = Browser.maxRestarts
        /\ Browser.pendingRestarts (exec (Browser.handle Browser.Ended) s)
           = S (Browser.pendingRestarts s))
  /\ forall cancelled, exec (stopRecording cancelled) h' = h'.
Proof.
  intros Hw Hidle io h'.
  destruct (startRecording_prepare_spec rev o h0)
    as (h1 & Hprep & _ & _ & _ & _ & _ & _ & Hrec1 & _ & _ & Herrs1).
  assert (Hh' : exists s,
            Browser.recognition s = true
            /\ h' = exec (startRecording_catch e)
                      (set_voiceServiceRef
                         (Some (BrowserVoiceInputService
                            (Browser.set_restartCount 0
                               (Browser.set_isCurrentlyRecording true
                                  (Browser.set_fullTranscript "" s))))) h1)).
  { subst h'. unfold exec. rewrite startRecording_unfold.
    unfold exec. rewrite Hprep. cbn [snd].
    destruct (created_on_device w key (language h1) Hw) as (s & -> & Hs).
    exists s. split; [exact Hs|].
    unfold VoiceInput.startRecording, io. cbn [VoiceInput.media VoiceInput.started].
    rewrite (on_device_start m (Throw e) s Hs). cbn [fst snd]. reflexivity. }
  destruct Hh' as (s & Hs & Hh').
  set (launched := set_voiceServiceRef _ h1) in Hh'.
  assert (Hcatch : isRecording h' = false
                   /\ voiceServiceRef h' = voiceServiceRef launched
                   /\ errors h'
                      = errors h0 ++ [if isPermissionError e
                                      then "Microphone permission denied"
                                      else "Failed to start recording"]).
  { rewrite Hh'. unfold startRecording_catch, exec. fold (isPermissionError e).
    destruct (isPermissionError e); cbn; rewrite Hrec1, Herrs1; auto. }
  destruct Hcatch as (Hrec & Href & Herrs).
  split; [exact Hrec|]. split; [exact Herrs|]. split.
  - eexists. split; [rewrite Href; reflexivity|].
    destruct s. cbn in Hs. subst. repeat split; reflexivity.
  - intros cancelled. apply stopRecording_idle. left. exact Hrec.
Qed.

Lemma failed_start_leaves_backend_recording_witness :
  let io := VoiceInput.mkStartIO (Normal tt) (Throw (newError "already started")) in
  let h' := exec (startRecording Accumulated (optionsWith full)
                    (mkHost (mkWindow true false) None) io)
              (initial (optionsWith full)) in
  isRecording h' = false
  /\ errors h'
     = errors (initial (optionsWith full))
       ++ [if isPermissionError (newError "already started")
           then "Microphone permission denied"
           else "Failed to start recording"]
  /\ (exists s,
        voiceServiceRef h' = Some (BrowserVoiceInputService s)
        /\ Browser.isRecording s = true
        /\ budget s = Browser.maxRestarts
        /\ Browser.pendingRestarts (exec (Browser.handle Browser.Ended) s)
           = S (Browser.pendingRestarts s))
  /\ forall cancelled, exec (stopRecording cancelled) h' = h'.
Proof.
  exact (failed_start_leaves_backend_recording Accumulated (optionsWith full)
           (mkWindow true false) None (Normal tt) (newError "already started")
           (initial (optionsWith full)) eq_refl eq_refl).
Defined.

(** ** What the cloud recognizer posts *)

Lemma extensionOf_named (blob : Blob) :
  passesValidation blob = true ->
  In (OpenAI.extensionOf blob) ["webm"; "mp4"; "wav"]
  /\ includes (type blob) (OpenAI.extensionOf blob) = true
  /\ (10000 <= blobSize blob)%N.
Proof.
  unfold passesValidation, OpenAI.badMimeType, OpenAI.extensionOf.
  intros H. apply andb_prop in H. destruct H as [Hsize Hmime].
  apply negb_true_iff in Hsize. apply N.ltb_ge in Hsize.
  apply negb_true_iff in Hmime. apply orb_false_elim in Hmime.
  destruct Hmime as [_ Hmime].
  destruct (includes (type blob) "mp4") eqn:Hmp4; [cbn; auto|].
  destruct (includes (type blob) "wav") eqn:Hwav; [cbn; auto|].
  destruct (includes (type blob) "webm") eqn:Hwebm; [cbn; auto|].
  discriminate Hmime.
Qed.

Lemma tryOpenAITranscription_request (blob : Blob) (net : FetchResult)
  (s : OpenAI.Service) :
  let s' := exec (OpenAI.tryOpenAITranscription blob net) s in
  OpenAI.requests s'
  = OpenAI.requests s
    ++ [ {| OpenAI.file := blob;
            OpenAI.filename := "audio." +:+ OpenAI.extensionOf blob;
            OpenAI.model := "whisper-1";
            OpenAI.languageParam := OpenAI.getOpenAILanguageCode s;
            OpenAI.response_format := "text";
            OpenAI.bearer := OpenAI.apiKey s |} ]
  /\ OpenAI.apiKey s' = OpenAI.apiKey s
  /\ OpenAI.language s' = OpenAI.language s.
Proof.
  destruct s as [rec cb final processed lang counter key reqs em].
  run_cloud; cbn [fst snd].
  destruct net as [r|e]; run_cloud; cbn [fst snd];
    cbn [OpenAI.processedTranscriptions OpenAI.onTranscriptionCallback
         OpenAI.set_requests OpenAI.set_processedTranscriptions];
    cloud_ifs; cbn; repeat split; reflexivity.
Qed.

(** X15. Every form the cloud recognizer posts while it handles a run of
    recorder chunks, from any state, carries the model ['whisper-1'],
    the response format ['text'], the object's credential and language
    code, a file of at least 10000 bytes, and the file name ['audio.']
    followed by a container name that occurs in the file's MIME type. *)
Theorem posted_requests_are_well_formed (chunks : list OpenAI.Chunk)
  (s : OpenAI.Service) :
  let s' := OpenAI.feed OpenAI.ondataavailable chunks s in
  exists posted,
    OpenAI.requests s' = OpenAI.requests s ++ posted
    /\ Forall (wellFormedRequest (OpenAI.apiKey s) (OpenAI.getOpenAILanguageCode s))
         posted.
Proof.
  cbv zeta. rewrite feed_ondataavailable, sendAudioChunk_is_transcribeAudio.
  generalize (List.filter carriesData chunks). clear chunks. intros chunks.
  revert s. unfold OpenAI.feed.
  induction chunks as [|[blob net] chunks IH]; intros s.
  - exists []. rewrite app_nil_r. split; [reflexivity|constructor].
  - cbn [fold_left fst snd].
    assert (Hstep : exists posted,
              OpenAI.requests (exec (OpenAI.transcribeAudio blob net) s)
              = OpenAI.requests s ++ posted
              /\ Forall (wellFormedRequest (OpenAI.apiKey s)
                           (OpenAI.getOpenAILanguageCode s)) posted
              /\ OpenAI.apiKey (exec (OpenAI.transcribeAudio blob net) s)
                 = OpenAI.apiKey s
              /\ OpenAI.language (exec (OpenAI.transcribeAudio blob net) s)
                 = OpenAI.language s).
    { unfold exec. rewrite transcribeAudio_unfold.
      destruct (passesValidation blob) eqn:Hvalid; cbn [andb];
        [destruct (OpenAI.chunkCounter s =? 0)|]; cbn [snd];
        try (exists []; rewrite app_nil_r; destruct s; repeat split; constructor).
      destruct (tryOpenAITranscription_request blob net
                  (OpenAI.set_chunkCounter (S (OpenAI.chunkCounter s)) s))
        as (Hreq & Hkey & Hlang).
      destruct (extensionOf_named blob Hvalid) as (Hin & Hinc & Hsize).
      eexists. split; [rewrite Hreq; destruct s; reflexivity|].
      split; [|split; [rewrite Hkey|rewrite Hlang]; destruct s; reflexivity].
      constructor; [|constructor].
      unfold wellFormedRequest. cbn.
      repeat (split; [first [reflexivity | destruct s; reflexivity | exact Hsize]|]).
      exists (OpenAI.extensionOf blob). auto. }
    destruct Hstep as (posted & Hreq & Hwf & Hkey & Hlang).
    destruct (IH (exec (OpenAI.transcribeAudio blob net) s)) as (later & Hreq' & Hwf').
    exists (posted ++ later). rewrite Hreq', Hreq, app_assoc.
    split; [reflexivity|].
    apply Forall_app. split; [exact Hwf|].
    replace (OpenAI.getOpenAILanguageCode (exec (OpenAI.transcribeAudio blob net) s))
      with (OpenAI.getOpenAILanguageCode s) in Hwf'
      by (unfold OpenAI.getOpenAILanguageCode; rewrite Hlang; reflexivity).
    rewrite Hkey in Hwf'. exact Hwf'.
Qed.

(** ** The language catalogue and the two backends *)

Lemma in_catalogue (P : Languages.VoiceLanguage -> Prop) :
  Forall P Languages.VOICE_LANGUAGES ->
  forall l, In l Languages.VOICE_LANGUAGES -> P l.
Proof. intros H l Hin. rewrite List.Forall_forall in H. apply H. exact Hin. Qed.

(** X16. Every language of the catalogue the picker shows is understood
    by both backends: set on the cloud recognizer it gives the request
    the language's primary subtag as its language code (none for
    ['auto']), and set on the on-device recognizer it gives the
    recognizer a tag of the language map that starts with the same
    subtag (for ['auto'], the browser's language, or ['en-US'] when the
    browser names none); the ['-US'] fallback of the on-device backend is
    never used for a catalogue language. *)
Theorem catalogue_languages_are_supported (l : Languages.VoiceLanguage)
  (sc : OpenAI.Service) (sb : Browser.Service) (navigatorLanguage : string) :
  In l Languages.VOICE_LANGUAGES ->
  let code := Languages.code l in
  let cloud := exec (OpenAI.setLanguage code) sc in
  let device := exec (Browser.setLanguage code) (Browser.set_recognition true sb) in
  OpenAI.getOpenAILanguageCode cloud
  = (if String.eqb code "auto" then None else Some (primarySubtag code))
  /\ exists tag,
       BrowserLanguage.updateRecognitionLanguage navigatorLanguage device = Some tag
       /\ if String.eqb code "auto"
          then tag = (if truthy navigatorLanguage then navigatorLanguage else "en-US")
          else BrowserLanguage.BROWSER_LANGUAGE_MAP !! code = Some tag
               /\ startsWith tag (primarySubtag code +:+ "-") = true.
Proof.
  intros Hin. revert l Hin. apply in_catalogue.
  destruct sc, sb. unfold Languages.VOICE_LANGUAGES.
  repeat (apply List.Forall_cons;
          [cbv zeta; split; [reflexivity|]; eexists; split; [reflexivity|];
           first [reflexivity | split; reflexivity]|]).
  apply List.Forall_nil.
Qed.

Lemma catalogue_languages_are_supported_witness :
  let l := Languages.mkLanguage "pt" "Portuguese" "🇵🇹" in
  let code := Languages.code l in
  let cloud := exec (OpenAI.setLanguage code) (OpenAI.new "sk-test") in
  let device := exec (Browser.setLanguage code)
                  (Browser.set_recognition true (Browser.new (mkWindow true false))) in
  OpenAI.getOpenAILanguageCode cloud
  = (if String.eqb code "auto" then None else Some (primarySubtag code))
  /\ exists tag,
       BrowserLanguage.updateRecognitionLanguage "en-GB" device = Some tag
       /\ if String.eqb code "auto"
          then tag = (if truthy "en-GB" then "en-GB" else "en-US")
          else BrowserLanguage.BROWSER_LANGUAGE_MAP !! code = Some tag
               /\ startsWith tag (primarySubtag code +:+ "-") = true.
Proof.
  apply (catalogue_languages_are_supported
           (Languages.mkLanguage "pt" "Portuguese" "🇵🇹")
           (OpenAI.new "sk-test") (Browser.new (mkWindow true false)) "en-GB").
  unfold Languages.VOICE_LANGUAGES. do 12 right. left. reflexivity.
Defined.

Example portuguese_tags :
  OpenAI.getOpenAILanguageCode (exec (OpenAI.setLanguage "pt") (OpenAI.new "sk-test"))
  = Some "pt"
  /\ BrowserLanguage.updateRecognitionLanguage "en-GB"
       (exec (Browser.setLanguage "pt") (Browser.new (mkWindow true false)))
     = Some "pt-BR".
Proof. split; reflexivity. Qed.

(** X17. The two display functions are exact on the catalogue and fall
    back to the ['auto'] entry: for an entry they give its own flag and
    its flag, a space and its name; for a code the catalogue does not
    have they give what they give for ['auto']. *)
Theorem language_display_lookup (languageCode : string) :
  match Languages.find languageCode with
  | Some l =>
      In l Languages.VOICE_LANGUAGES
      /\ Languages.code l = languageCode
      /\ Languages.getLanguageFlag languageCode = Languages.flag l
      /\ Languages.getLanguageDisplay languageCode
         = Languages.flag l +:+ " " +:+ Languages.name l
  | None =>
      Languages.getLanguageFlag languageCode = Languages.getLanguageFlag "auto"
      /\ Languages.getLanguageDisplay languageCode = Languages.getLanguageDisplay "auto"
  end
  /\ forall l, In l Languages.VOICE_LANGUAGES ->
       Languages.find (Languages.code l) = Some l.
Proof.
  split.
  - unfold Languages.getLanguageFlag, Languages.getLanguageDisplay.
    destruct (Languages.find languageCode) as [l|] eqn:Hfind.
    + unfold Languages.find in Hfind. apply find_some in Hfind.
      destruct Hfind as [Hin Heq]. apply String.eqb_eq in Heq. auto.
    + split; reflexivity.
  - apply in_catalogue. unfold Languages.VOICE_LANGUAGES.
    repeat (apply List.Forall_cons; [reflexivity|]). apply List.Forall_nil.
Qed.

(** ** The presentation shell *)

Lemma clear_single (id : positive) :
  List.filter (fun t : positive => negb (Pos.eqb t id)) [id] = [].
Proof. cbn. rewrite Pos.eqb_refl. reflexivity. Qed.

Lemma step_oneTimer (a : Shell.Action) (st : Shell.State) :
  oneTimer st -> oneTimer (Shell.step a st).
Proof.
  unfold oneTimer. intros Hinv.
  destruct a as [m transcribing v t text isFinal| | |id]; cbn [Shell.step].
  - unfold Shell.onTranscriptionUpdate.
    destruct (negb (truthy (trim text))); [exact Hinv|].
    cbv zeta.
    destruct (negb (truthy (Shell.deltaOf (trim text) _)));
      [destruct st; exact Hinv|].
    match goal with
    | |- context [Shell.onChange ?x st] => generalize x
    end.
    intros nextValue.
    destruct st as [lastT interimT interimS ref timers next log].
    cbn [Shell.armed Shell.restartTimeoutRef] in Hinv.
    destruct isFinal; [|exact Hinv].
    cbn [Shell.onChange Shell.resetInterim Shell.restartTimeoutRef Shell.armed
         Shell.lastTranscriptRef Shell.interimTextRef Shell.interimStartRef
         Shell.nextTimer Shell.changes].
    destruct Hinv as [-> | (id & -> & ->)].
    + destruct ref, transcribing; cbn; eauto.
    + destruct transcribing; cbn; rewrite Pos.eqb_refl; cbn; eauto.
  - destruct st; exact Hinv.
  - destruct st as [lastT interimT interimS ref timers next log].
    cbn [Shell.armed Shell.restartTimeoutRef] in Hinv.
    unfold Shell.handleStopTranscription. cbn [Shell.resetInterim Shell.restartTimeoutRef].
    left. destruct Hinv as [-> | (id & -> & ->)].
    + destruct ref; reflexivity.
    + cbn. rewrite Pos.eqb_refl. reflexivity.
  - destruct st as [lastT interimT interimS ref timers next log].
    cbn [Shell.armed Shell.restartTimeoutRef] in Hinv.
    unfold Shell.onRestartTimeout. cbn [Shell.armed].
    destruct (existsb _ timers) eqn:Hfired; [|exact Hinv].
    left. destruct Hinv as [-> | (id' & -> & ->)]; [discriminate Hfired|].
    cbn in Hfired. rewrite orb_false_r in Hfired. cbn. rewrite Hfired. reflexivity.
Qed.

(** X18. Whatever the recognizer reports and the user clicks, the second
    [TextareaWithVoice] never has more than one restart timer armed: a
    final text cancels the timer of the final text before it, the
    armed timer is the one [restartTimeoutRef] holds, and after the stop
    button none is armed. *)
Theorem one_restart_timer_at_most (actions : list Shell.Action) :
  let st := Shell.run actions Shell.initial in
  oneTimer st
  /\ Shell.armed (Shell.step Shell.StopClicked st) = [].
Proof.
  assert (Hinv : forall st, oneTimer st -> oneTimer (Shell.run actions st)).
  { unfold Shell.run. induction actions as [|a actions IH]; intros st Hst; [exact Hst|].
    cbn [fold_left]. apply IH. apply step_oneTimer. exact Hst. }
  cbv zeta. specialize (Hinv Shell.initial (or_introl eq_refl)).
  split; [exact Hinv|].
  destruct (Shell.run actions Shell.initial)
    as [lastT interimT interimS ref timers next log].
  unfold oneTimer in Hinv. cbn [Shell.armed Shell.restartTimeoutRef] in Hinv.
  unfold Shell.step, Shell.handleStopTranscription.
  cbn [Shell.resetInterim Shell.restartTimeoutRef].
  destruct Hinv as [-> | (id & -> & ->)].
  - destruct ref; reflexivity.
  - cbn. rewrite Pos.eqb_refl. reflexivity.
Qed.

Example restart_timer_scenario :
  let st := Shell.run
              [ Shell.Update Shell.replace true "" None "hello" true;
                Shell.Update Shell.replace true "hello" None "hello world" true ]
              Shell.initial in
  Shell.armed st = [2%positive]
  /\ Shell.changes st = ["hello"; "helloworld"].
Proof. split; reflexivity. Qed.







Example interim_scenario :
  let t := Shell.mkTextarea "Dear all, " 10 10 in
  let st' := Shell.onTranscriptionUpdate Shell.replace true "Dear all, "
               (Some t) "thank you" false Shell.initial in
  Shell.changes st' = ["Dear all, thank you"]
  /\ Shell.baseValueOf "Dear all, thank you" st' = "Dear all, ".
Proof. split; reflexivity. Qed.

Lemma slice_all (s : string) : slice s (String.length s) = "".
Proof. induction s as [|c s IH]; [reflexivity|exact IH]. Qed.

Lemma startsWith_refl (s : string) : startsWith s s = true.
Proof. rewrite <- (append_empty_r s) at 1. apply startsWith_app. Qed.

(** What one call of the callback does to the last final transcript and
    to the log, by the text it shows. *)
Lemma onTranscriptionUpdate_shown (m : Shell.TranscriptionMode) (transcribing : bool)
  (v : string) (t : option Shell.Textarea) (text : string) (isFinal : bool)
  (st : Shell.State) :
  let st' := Shell.onTranscriptionUpdate m transcribing v t text isFinal st in
  if truthy (trim text) && truthy (Shell.deltaOf (trim text) st)
  then (exists nextValue, Shell.changes st' = Shell.changes st ++ [nextValue])
       /\ Shell.lastTranscriptRef st'
          = (if isFinal then trim text else Shell.lastTranscriptRef st)
  else Shell.changes st' = Shell.changes st
       /\ Shell.lastTranscriptRef st' = Shell.lastTranscriptRef st.
Proof.
  cbv zeta. unfold Shell.onTranscriptionUpdate.
  destruct (truthy (trim text)); cbn [negb andb]; [|auto].
  cbv zeta.
  destruct (truthy (Shell.deltaOf (trim text) st)); cbn [negb];
    [|destruct st; auto].
  match goal with
  | |- context [Shell.onChange ?x st] => generalize x
  end.
  intros nextValue. destruct st as [lastT interimT interimS ref timers next log].
  destruct isFinal; [destruct ref, transcribing|]; cbn; eauto.
Qed.

(** X20. A text the second [TextareaWithVoice] has just been given as
    final is not inserted a second time: when the recognizer repeats it,
    as an interim or as a final text, in either mode and wherever the
    caret is, [onChange] is not called. *)
Theorem repeated_text_is_not_inserted_again
  (m m' : Shell.TranscriptionMode) (transcribing transcribing' : bool)
  (v v' : string) (t t' : option Shell.Textarea) (text : string) (isFinal' : bool)
  (st : Shell.State) :
  let st1 := Shell.onTranscriptionUpdate m transcribing v t text true st in
  let st2 := Shell.onTranscriptionUpdate m' transcribing' v' t' text isFinal' st1 in
  Shell.changes st2 = Shell.changes st1.
Proof.
  intros st1 st2.
  pose proof (onTranscriptionUpdate_shown m transcribing v t text true st) as H1.
  pose proof (onTranscriptionUpdate_shown m' transcribing' v' t' text isFinal' st1) as H2.
  fold st1 in H1. fold st2 in H2. cbv zeta in H1, H2.
  assert (Hsilent : truthy (trim text) && truthy (Shell.deltaOf (trim text) st1) = false).
  { destruct (truthy (trim text)) eqn:Hraw; [|reflexivity].
    cbn [andb] in *. unfold Shell.deltaOf in *.
    destruct (truthy (if truthy (Shell.lastTranscriptRef st)
                         && startsWith (trim text) (Shell.lastTranscriptRef st)
                      then trimStart (slice (trim text)
                                        (String.length (Shell.lastTranscriptRef st)))
                      else trim text)) eqn:Hshown.
    - destruct H1 as (_ & ->). rewrite Hraw, startsWith_refl, slice_all. reflexivity.
    - destruct H1 as (_ & ->). exact Hshown. }
  rewrite Hsilent in H2. exact (proj1 H2).
Qed.
